(** * lasinfo: header consistency verification and in-place binary repair

  A shallow embedding of the verification and repair core of
  [src/lasinfo.cpp] (LAStools): the quantization validator
  [valid_resolution], the walk over the variable length records that
  locates an editable sub-header field, the cross-checks between the
  point summary and the header counters and bounding box, and the
  [fseek]/[fwrite] calls that patch the file in place.

  Integers of the C++ code are modelled as [Z] with the casts written
  out, [F64] as the binary64 primitive floats of the kernel, and the
  patched file as a map from byte offsets to bytes. *)

Set Warnings "-inexact-float".
From Stdlib Require Import ZArith List Bool Lia Floats.
Import ListNotations.
Local Open Scope Z_scope.

(** ** Machine integers and their casts *)

Module Mach.

Definition U8_MAX : Z := 255.
Definition U16_MAX : Z := 65535.
Definition U32_MAX : Z := 4294967295.

(** [(U16) z] and [(U32) z]: reduction modulo the width. *)
Definition to_U16 (z : Z) : Z := z mod 2 ^ 16.
Definition to_U32 (z : Z) : Z := z mod 2 ^ 32.
Definition to_U64 (z : Z) : Z := z mod 2 ^ 64.

(** [(I32) z] and [(I64) z]: two's complement reinterpretation. *)
Definition to_I32 (z : Z) : Z := (z + 2 ^ 31) mod 2 ^ 32 - 2 ^ 31.
Definition to_I64 (z : Z) : Z := (z + 2 ^ 63) mod 2 ^ 64 - 2 ^ 63.

End Mach.

(** ** The binary file and the calls that patch it *)

Module Patch.

(** One element handed to [fwrite] (or one [fputc]), by its C type. *)
Inductive datum : Type :=
| DU8 (v : Z)
| DU16 (v : Z)
| DU32 (v : Z)
| DI64 (v : Z)
| DF64 (v : float).

(** The calls on the [FILE*] opened with ["rb+"]. *)
Inductive fileop : Type :=
| Fseek (offset : Z)               (* fseek(file, offset, SEEK_SET) *)
| Fwrite (items : list datum).     (* fwrite(ptr, size, count, file) *)

Definition sizeof (d : datum) : Z :=
  match d with
  | DU8 _ => 1
  | DU16 _ => 2
  | DU32 _ => 4
  | DI64 _ => 8
  | DF64 _ => 8
  end.

Definition width (ds : list datum) : Z :=
  fold_right (fun d acc => sizeof d + acc) 0 ds.

(** A correction: what one [fseek] and the [fwrite]s that follow it put
    into the file, a run of [width c_data] bytes from [c_offset] on. *)
Record correction : Type := mkCorrection {
  c_offset : Z;
  c_data : list datum
}.

Definition c_width (c : correction) : Z := width (c_data c).

(** The file position and the correction under construction. *)
Record cursor : Type := mkCursor {
  cur_pos : Z;
  cur_open : option correction;
  cur_done : list correction
}.

Definition flush (k : cursor) : list correction :=
  match cur_open k with
  | Some c => cur_done k ++ [c]
  | None => cur_done k
  end.

Definition step (k : cursor) (op : fileop) : cursor :=
  match op with
  | Fseek o => mkCursor o None (flush k)
  | Fwrite ds =>
      let c := match cur_open k with
               | Some c => mkCorrection (c_offset c) (c_data c ++ ds)
               | None => mkCorrection (cur_pos k) ds
               end in
      mkCursor (cur_pos k + width ds) (Some c) (cur_done k)
  end.

(** The corrections a sequence of calls amounts to (the file is freshly
    opened: position 0). *)
Definition corrections (ops : list fileop) : list correction :=
  flush (fold_left step ops (mkCursor 0 None [])).

(** Half-open byte ranges [lo, hi). *)
Definition range_of (c : correction) : Z * Z :=
  (c_offset c, c_offset c + c_width c).

Definition in_range (o : Z) (r : Z * Z) : bool :=
  (fst r <=? o) && (o <? snd r).

Definition overlap (r1 r2 : Z * Z) : bool :=
  (fst r1 <? snd r2) && (fst r2 <? snd r1).

Fixpoint pairwise_disjoint (rs : list (Z * Z)) : bool :=
  match rs with
  | [] => true
  | r :: rest => forallb (fun r' => negb (overlap r r')) rest && pairwise_disjoint rest
  end.

Definition written (ops : list fileop) (o : Z) : bool :=
  existsb (fun c => in_range o (range_of c)) (corrections ops).

(** Two ranges share a byte; no two ranges of a list do. *)
Definition shares_byte (r1 r2 : Z * Z) : Prop :=
  exists a, in_range a r1 = true /\ in_range a r2 = true.

Definition disjoint_ranges (rs : list (Z * Z)) : Prop :=
  ForallOrdPairs (fun r1 r2 => ~ shares_byte r1 r2) rs.

(** The elements of a list whose flag is set. *)
Fixpoint keep {A : Type} (flags : list bool) (l : list A) : list A :=
  match flags, l with
  | b :: flags', x :: l' => if b then x :: keep flags' l' else keep flags' l'
  | _, _ => []
  end.

(** A sequence of calls that starts with a seek (or is empty) opens
    corrections of its own. *)
Definition seek_led (ops : list fileop) : Prop :=
  match ops with
  | [] => True
  | Fseek _ :: _ => True
  | Fwrite _ :: _ => False
  end.

(** All that a run of [fwrite]s hands over. *)
Definition gather (ops : list fileop) : list datum :=
  flat_map (fun op => match op with Fwrite ds => ds | Fseek _ => [] end) ops.

Definition is_fwrite (op : fileop) : Prop :=
  match op with Fwrite _ => True | Fseek _ => False end.

(** The calls are none, or a seek and writes that fill exactly the range
    [r]; [b] tells which. *)
Definition fills (ops : list fileop) (b : bool) (r : Z * Z) : Prop :=
  map range_of (corrections ops) = keep [b] [r] /\ seek_led ops.

End Patch.

(** ** Bytes: little-endian integers and binary64 doubles *)

Module Bytes.

(** A file maps a byte offset to the byte stored there. *)
Definition file : Type := Z -> Z.

(** The [n] low bytes of [v], least significant first; a negative [v] comes
    out in two's complement. *)
Fixpoint le_bytes (n : nat) (v : Z) : list Z :=
  match n with
  | O => []
  | S k => v mod 256 :: le_bytes k (v / 256)
  end.

Fixpoint le_value (bs : list Z) : Z :=
  match bs with
  | [] => 0
  | b :: rest => b + 256 * le_value rest
  end.

(** The 64 bits of a double: sign, 11 bits of biased exponent, 52 bits of
    fraction. NaN payloads are not modelled: every NaN is the quiet NaN. *)
Definition sign_bit (s : bool) : Z := if s then 2 ^ 63 else 0.

Definition bits_of_F64 (x : float) : Z :=
  match Prim2SF x with
  | S754_zero s => sign_bit s
  | S754_infinity s => sign_bit s + 2047 * 2 ^ 52
  | S754_nan => 2047 * 2 ^ 52 + 2 ^ 51
  | S754_finite s m e =>
      if Z.pos m <? 2 ^ 52
      then sign_bit s + Z.pos m
      else sign_bit s + (e + 1075) * 2 ^ 52 + (Z.pos m - 2 ^ 52)
  end.

Definition SF_of_bits (b : Z) : spec_float :=
  let s := 2 ^ 63 <=? b in
  let e := (b / 2 ^ 52) mod 2048 in
  let m := b mod 2 ^ 52 in
  if e =? 2047 then
    if m =? 0 then S754_infinity s else S754_nan
  else if e =? 0 then
    match m with
    | Z.pos p => S754_finite s p (-1074)
    | _ => S754_zero s
    end
  else
    match m + 2 ^ 52 with
    | Z.pos p => S754_finite s p (e - 1075)
    | _ => S754_nan
    end.

Definition F64_of_bits (b : Z) : float := SF2Prim (SF_of_bits b).

Definition datum_bytes (d : Patch.datum) : list Z :=
  match d with
  | Patch.DU8 v => le_bytes 1 v
  | Patch.DU16 v => le_bytes 2 v
  | Patch.DU32 v => le_bytes 4 v
  | Patch.DI64 v => le_bytes 8 v
  | Patch.DF64 x => le_bytes 8 (bits_of_F64 x)
  end.

Definition data_bytes (ds : list Patch.datum) : list Z :=
  flat_map datum_bytes ds.

(** [store f o bs]: the file [f] with the bytes [bs] written from offset
    [o] on. *)
Definition store (f : file) (o : Z) (bs : list Z) : file :=
  fun a =>
    if (o <=? a) && (a <? o + Z.of_nat (length bs))
    then nth (Z.to_nat (a - o)) bs 0
    else f a.

(** [fseek] moves the position, [fwrite] stores at the position and
    advances it. *)
Definition exec (st : Z * file) (op : Patch.fileop) : Z * file :=
  match op with
  | Patch.Fseek o => (o, snd st)
  | Patch.Fwrite ds =>
      (fst st + Patch.width ds, store (snd st) (fst st) (data_bytes ds))
  end.

Definition run_ops (ops : list Patch.fileop) (f : file) : file :=
  snd (fold_left exec ops (0, f)).

Definition apply_correction (f : file) (c : Patch.correction) : file :=
  store f (Patch.c_offset c) (data_bytes (Patch.c_data c)).

(** Reading [n] bytes from offset [o]. *)
Fixpoint read_bytes (f : file) (o : Z) (n : nat) : list Z :=
  match n with
  | O => []
  | S k => f o :: read_bytes f (o + 1) k
  end.

Definition read_uint (f : file) (o : Z) (n : nat) : Z :=
  le_value (read_bytes f o n).

Definition read_F64 (f : file) (o : Z) : float :=
  F64_of_bits (read_uint f o 8).

Definition byte_file (f : file) : Prop := forall a, 0 <= f a < 256.

(** A file given by its first bytes, zero beyond. *)
Definition file_of_list (bs : list Z) : file :=
  fun a => if a <? 0 then 0 else nth (Z.to_nat a) bs 0.

End Bytes.

(** ** The header, the variable length records and the point summary *)

Module LAS.

(** The fields of [LASvlr] the walk over the records reads. *)
Record LASvlr : Type := mkVlr {
  record_length_after_header : Z      (* U16 at 20 of the sub-header *)
}.

(** The fields of [LASheader] that [lasinfo.cpp] checks or repairs. *)
Record LASheader : Type := mkHeader {
  version_minor : Z;                              (* U8  at 25 *)
  header_size : Z;                                (* U16 at 94 *)
  number_of_variable_length_records : Z;          (* U32 at 100 *)
  point_data_format : Z;                          (* U8  at 104 *)
  number_of_point_records : Z;                    (* U32 at 107 *)
  number_of_points_by_return : list Z;            (* U32[5] at 111 *)
  x_scale_factor : float;                         (* F64 at 131 *)
  y_scale_factor : float;
  z_scale_factor : float;
  x_offset : float;                               (* F64 at 155 *)
  y_offset : float;
  z_offset : float;
  max_x : float;                                  (* F64 at 179 *)
  min_x : float;
  max_y : float;
  min_y : float;
  max_z : float;
  min_z : float;
  extended_number_of_point_records : Z;           (* U64 at 247 *)
  extended_number_of_points_by_return : list Z;   (* U64[15] at 255 *)
  vlrs : list LASvlr
}.

(** What the read pass leaves in [LASsummary], as far as the checks read
    it: the counters are [I64], the integer extrema [I32]. *)
Record LASsummary : Type := mkSummary {
  sum_number_of_point_records : Z;
  sum_number_of_points_by_return : list Z;        (* I64[16] *)
  max_X : Z;
  min_X : Z;
  max_Y : Z;
  min_Y : Z;
  max_Z : Z;
  min_Z : Z
}.

(** Conversion of an integer to [F64] (exact below 2^53, rounded to
    nearest even above). *)
Definition F64_of_int (z : Z) : float :=
  SF2Prim (binary_normalize prec emax z 0 false).

(** Modelled from the spec: [LASheader::get_x], [get_y] and [get_z] are
    declared outside [lasinfo.cpp]; the spec gives the real-world value of
    an integer coordinate as offset + integer * scale_factor. *)
Definition get_x (h : LASheader) (X : Z) : float :=
  (x_offset h + F64_of_int X * x_scale_factor h)%float.

Definition get_y (h : LASheader) (Y : Z) : float :=
  (y_offset h + F64_of_int Y * y_scale_factor h)%float.

Definition get_z (h : LASheader) (Z' : Z) : float :=
  (z_offset h + F64_of_int Z' * z_scale_factor h)%float.

(** The header as the reader parses it from the bytes of the file. The
    offsets are those [lasinfo.cpp] seeks to when it edits or repairs a
    field; each record starts with a 54 byte sub-header (reserved 2,
    user id 16, record id 2, length after header 2, description 32). *)
Fixpoint read_vlrs (f : Bytes.file) (n : nat) (pos : Z) : list LASvlr :=
  match n with
  | O => []
  | S k =>
      let len := Bytes.read_uint f (pos + 20) 2 in
      mkVlr len :: read_vlrs f k (pos + 54 + len)
  end.

Fixpoint read_uints (f : Bytes.file) (o : Z) (size : nat) (n : nat) : list Z :=
  match n with
  | O => []
  | S k => Bytes.read_uint f o size :: read_uints f (o + Z.of_nat size) size k
  end.

Definition read_header (f : Bytes.file) : LASheader :=
  let minor := Bytes.read_uint f 25 1 in
  let hsize := Bytes.read_uint f 94 2 in
  let nvlrs := Bytes.read_uint f 100 4 in
  {| version_minor := minor;
     header_size := hsize;
     number_of_variable_length_records := nvlrs;
     point_data_format := Bytes.read_uint f 104 1;
     number_of_point_records := Bytes.read_uint f 107 4;
     number_of_points_by_return := read_uints f 111 4 5;
     x_scale_factor := Bytes.read_F64 f 131;
     y_scale_factor := Bytes.read_F64 f 139;
     z_scale_factor := Bytes.read_F64 f 147;
     x_offset := Bytes.read_F64 f 155;
     y_offset := Bytes.read_F64 f 163;
     z_offset := Bytes.read_F64 f 171;
     max_x := Bytes.read_F64 f 179;
     min_x := Bytes.read_F64 f 187;
     max_y := Bytes.read_F64 f 195;
     min_y := Bytes.read_F64 f 203;
     max_z := Bytes.read_F64 f 211;
     min_z := Bytes.read_F64 f 219;
     extended_number_of_point_records :=
       if 4 <=? minor then Bytes.read_uint f 247 8 else 0;
     extended_number_of_points_by_return :=
       if 4 <=? minor then read_uints f 255 8 15 else repeat 0 15;
     vlrs := read_vlrs f (Z.to_nat nvlrs) hsize |}.

(** The ranges the C++ types of the fields impose, and the table of
    records having as many entries as the header declares. *)
Definition between (lo hi v : Z) : Prop := lo <= v <= hi.

Record wf_header (h : LASheader) : Prop := mkWf {
  wf_minor : between 0 Mach.U8_MAX (version_minor h);
  wf_header_size : between 0 Mach.U16_MAX (header_size h);
  wf_nvlrs : number_of_variable_length_records h = Z.of_nat (length (vlrs h));
  wf_nvlrs_range : between 0 Mach.U32_MAX (number_of_variable_length_records h);
  wf_format : between 0 Mach.U8_MAX (point_data_format h);
  wf_count : between 0 Mach.U32_MAX (number_of_point_records h);
  wf_by_return : length (number_of_points_by_return h) = 5%nat;
  wf_by_return_range :
    Forall (between 0 Mach.U32_MAX) (number_of_points_by_return h);
  wf_ext_count : between 0 (2 ^ 64 - 1) (extended_number_of_point_records h);
  wf_ext_by_return : length (extended_number_of_points_by_return h) = 15%nat;
  wf_ext_by_return_range :
    Forall (between 0 (2 ^ 64 - 1)) (extended_number_of_points_by_return h);
  wf_vlrs :
    Forall (fun v => between 0 Mach.U16_MAX (record_length_after_header v)) (vlrs h)
}.

End LAS.

(** ** Locating an editable field of a variable length record *)

Module Locator.
Import LAS.

(** The three sub-header fields that can be edited, and their offsets
    inside the 54 byte sub-header. *)
Inductive vlr_field : Type := UserId | RecordId | Description.

Definition sub_offset (fld : vlr_field) : Z :=
  match fld with
  | UserId => 2
  | RecordId => 18
  | Description => 22
  end.

(** The bytes an edit of the field writes. *)
Definition field_width (fld : vlr_field) : Z :=
  match fld with
  | UserId => 16
  | RecordId => 2
  | Description => 32
  end.

Definition no_vlr : LASvlr := mkVlr 0.

(** The loop
      [for (i = 0; i < index; i++) { pos += 54; pos += vlrs[i].record_length_after_header; }]
    with [steps] iterations left, the loop counter at [i]. *)
Fixpoint walk (table : list LASvlr) (steps : nat) (i : nat) (pos : Z) : Z :=
  match steps with
  | O => pos
  | S k =>
      walk table k (S i)
        (pos + 54 + record_length_after_header (nth i table no_vlr))
  end.

(** [set_vlr_user_id_pos], [set_vlr_record_id_pos] and
    [set_vlr_description_pos]: the same block of code three times, with
    the sub-offset 2, 18 or 22. The position stays at its initial -1 when
    no edit is requested ([index] is -1) or the record is not there. *)
Definition set_vlr_pos (h : LASheader) (index : Z) (fld : vlr_field) : Z :=
  if index =? -1 then -1
  else if index <? Mach.to_I32 (number_of_variable_length_records h) then
    walk (vlrs h) (Z.to_nat index) 0 (header_size h) + sub_offset fld
  else -1.

(** The "SKIPPING: cannot set ..." message of the else branch. *)
Definition skipping (h : LASheader) (index : Z) : bool :=
  negb (index =? -1)
  && negb (index <? Mach.to_I32 (number_of_variable_length_records h)).

(** The characters [s[0..n-1]] written with [fputc], zeros after the end
    of the string. *)
Fixpoint put_padded (s : list Z) (n : nat) : list Patch.fileop :=
  match n with
  | O => []
  | S k =>
      match s with
      | [] => Patch.Fwrite [Patch.DU8 0] :: put_padded [] k
      | c :: rest => Patch.Fwrite [Patch.DU8 (c mod 256)] :: put_padded rest k
      end
  end.

(** The value an edit writes. *)
Inductive vlr_value : Type :=
| NewUserId (s : list Z)
| NewRecordId (id : Z)
| NewDescription (s : list Z).

Definition field_of (v : vlr_value) : vlr_field :=
  match v with
  | NewUserId _ => UserId
  | NewRecordId _ => RecordId
  | NewDescription _ => Description
  end.

(** The writes of one requested edit:
      [if (index != -1) { if (pos != -1) { fseek(file, pos, SEEK_SET); ... } }] *)
Definition edit_vlr (index pos : Z) (v : vlr_value) : list Patch.fileop :=
  if index =? -1 then []
  else if pos =? -1 then []
  else
    Patch.Fseek pos ::
    match v with
    | NewUserId s => put_padded s 16
    | NewRecordId id => [Patch.Fwrite [Patch.DU16 (Mach.to_U16 id)]]
    | NewDescription s => put_padded s 32
    end.

(** A request: the index given on the command line (or -1) and the new
    value. *)
Definition vlr_request : Type := (Z * vlr_value)%type.

Definition vlr_edit (h : LASheader) (r : vlr_request) : list Patch.fileop :=
  edit_vlr (fst r) (set_vlr_pos h (fst r) (field_of (snd r))) (snd r).

(** The three edits in the order of the code: user id, record id,
    description. *)
Record vlr_edits : Type := mkEdits {
  set_vlr_user_id_index : Z;
  set_vlr_user_id : list Z;
  set_vlr_record_id_index : Z;
  set_vlr_record_id : Z;
  set_vlr_description_index : Z;
  set_vlr_description : list Z
}.

Definition no_edits : vlr_edits := mkEdits (-1) [] (-1) 0 (-1) [].

Definition vlr_edit_ops (h : LASheader) (e : vlr_edits) : list Patch.fileop :=
  vlr_edit h (set_vlr_user_id_index e, NewUserId (set_vlr_user_id e))
  ++ vlr_edit h (set_vlr_record_id_index e, NewRecordId (set_vlr_record_id e))
  ++ vlr_edit h (set_vlr_description_index e, NewDescription (set_vlr_description e)).

(** The sum the spec gives for the start of record [index]: the header
    size, plus 54 and the body length for every record before it. *)
Definition body_sum (l : list LASvlr) : Z :=
  fold_right (fun v acc => 54 + record_length_after_header v + acc) 0 l.

Definition record_start (h : LASheader) (index : nat) : Z :=
  header_size h + body_sum (firstn index (vlrs h)).

End Locator.

(** ** Cross-checking the header against the point summary *)

Module Check.
Import LAS.
Import Patch.

(** The switches of the command line the checks read. [file_out] is
    whether the report stream is there. The report goes to the same
    messages whether it is printed as text or collected as JSON. *)
Record options : Type := mkOptions {
  repair_bb : bool;
  repair_counters : bool;
  no_warnings : bool;
  file_out : bool
}.

Inductive axis : Type := AxisX | AxisY | AxisZ.

(** The lines of the report, by their format string and its arguments. *)
Inductive message : Type :=
| CountRepaired (real header : Z)
| CountTooBigCannotRepair (real : Z)
| CountOverflowRepaired (real header : Z)
| CountCorrect
| CountDiffers (real header : Z)
| CountTooBig (real : Z)
| CountOverflowNotZero (real header : Z)
| LegacyCountNotZero (format header : Z) (repaired : bool)
| ExtCountDiffers (real header : Z) (repaired : bool)
| ExtCountCorrect
| ReturnDiffers (i real header : Z) (repaired : bool)
| ReturnNotSet (i real : Z) (repaired : bool)
| ReturnTooBig (i real : Z) (cannot_repair : bool)
| ReturnOverflowNotZero (i real header : Z) (repaired : bool)
| LegacyReturnNotZero (format i header : Z) (repaired : bool)
| ReturnsCorrect
| ExtReturnDiffers (i real header : Z) (repaired : bool)
| ExtReturnNotSet (i real : Z) (repaired : bool)
| ExtReturnsCorrect
| BoundingBoxRepaired
| BoundingBoxCorrect
| RealMaxLarger (a : axis) (by_ : float)
| RealMinSmaller (a : axis) (by_ : float).

(** What a check does: calls on the file and lines of the report. *)
Definition outcome : Type := (list fileop * list message)%type.

Definition say (cond : bool) (m : message) : list message :=
  if cond then [m] else [].

(** *** number_of_point_records (legacy, 4 bytes at offset 107) *)

Definition check_number_of_point_records
    (o : options) (h : LASheader) (s : LASsummary) : outcome :=
  let real := sum_number_of_point_records s in
  let hdr := number_of_point_records h in
  if (point_data_format h <? 6) && negb (real =? hdr) then
    if repair_counters o then
      if real <=? Mach.U32_MAX then
        ([Fseek 107; Fwrite [DU32 (Mach.to_U32 real)]],
         say (file_out o) (CountRepaired (Mach.to_U32 real) hdr))
      else if version_minor h <? 4 then
        ([], say (file_out o) (CountTooBigCannotRepair real))
      else if negb (hdr =? 0) then
        ([Fseek 107; Fwrite [DU32 0]],
         say (file_out o) (CountOverflowRepaired real hdr))
      else
        ([], say (file_out o) CountCorrect)
    else
      ([],
       if negb (no_warnings o) && file_out o then
         if real <=? Mach.U32_MAX then [CountDiffers real hdr]
         else if version_minor h <? 4 then [CountTooBig real]
         else if negb (hdr =? 0) then [CountOverflowNotZero real hdr]
         else []
       else [])
  else if (6 <=? point_data_format h) && negb (hdr =? 0) then
    ((if repair_counters o then [Fseek 107; Fwrite [DU32 0]] else []),
     say (negb (no_warnings o) && file_out o)
       (LegacyCountNotZero (point_data_format h) hdr (repair_counters o)))
  else
    ([], say (repair_counters o && file_out o) CountCorrect).

(** The three ways the legacy count of a file of format below 6 is
    repaired, as a table. *)
Definition legacy_count_policy (minor header real : Z) : list correction :=
  if real <=? 2 ^ 32 - 1 then [mkCorrection 107 [DU32 real]]
  else if minor <? 4 then []
  else if header =? 0 then []
  else [mkCorrection 107 [DU32 0]].

(** *** extended_number_of_point_records (8 bytes at offset 235 + 12) *)

Definition check_extended_number_of_point_records
    (o : options) (h : LASheader) (s : LASsummary) : outcome :=
  let real := sum_number_of_point_records s in
  let hdr := extended_number_of_point_records h in
  if 3 <? version_minor h then
    if negb (real =? Mach.to_I64 hdr) then
      ((if repair_counters o then [Fseek (235 + 12); Fwrite [DI64 real]] else []),
       say (negb (no_warnings o) && file_out o)
         (ExtCountDiffers real hdr (repair_counters o)))
    else
      ([], say (repair_counters o && file_out o) ExtCountCorrect)
  else ([], []).

(** *** number_of_points_by_return[5] (20 bytes at offset 111) *)

(** [a[i] = v] on a local array. *)
Fixpoint upd (a : list Z) (i : nat) (v : Z) : list Z :=
  match a, i with
  | [], _ => []
  | _ :: rest, O => v :: rest
  | x :: rest, S k => x :: upd rest k v
  end.

(** [was_set]: some of the first [n] header entries is not zero. *)
Definition was_set (entries : list Z) (n : nat) : bool :=
  existsb (fun v => negb (v =? 0)) (firstn n entries).

(** The state of the loop over the returns: the local array
    [number_of_points_by_return], [wrong_entry], the report so far. *)
Record by_return_state : Type := mkByReturn {
  br_array : list Z;
  br_wrong_entry : bool;
  br_report : list message
}.

(** The body of [for (i = 1; i < 6; i++)]. Where the code leaves
    [number_of_points_by_return[i - 1]] unassigned the array keeps what it
    held before. *)
Definition by_return_step
    (o : options) (h : LASheader) (s : LASsummary)
    (st : by_return_state) (i : nat) : by_return_state :=
  let hdr := nth (i - 1) (number_of_points_by_return h) 0 in
  let real := nth i (sum_number_of_points_by_return s) 0 in
  let warn := negb (no_warnings o) && file_out o in
  let rep := repair_counters o in
  let idx := Z.of_nat i in
  if (point_data_format h <? 6) && negb (hdr =? real) then
    if real <=? Mach.U32_MAX then
      mkByReturn (upd (br_array st) (i - 1) (Mach.to_U32 real)) true
        (br_report st ++
         say warn (if was_set (number_of_points_by_return h) 5
                   then ReturnDiffers idx (Mach.to_U32 real) hdr rep
                   else ReturnNotSet idx (Mach.to_U32 real) rep))
    else if version_minor h <? 4 then
      mkByReturn (br_array st) (br_wrong_entry st)
        (br_report st ++ say warn (ReturnTooBig idx real rep))
    else if negb (hdr =? 0) then
      mkByReturn (upd (br_array st) (i - 1) 0) true
        (br_report st ++ say warn (ReturnOverflowNotZero idx real hdr rep))
    else
      mkByReturn (upd (br_array st) (i - 1) 0) (br_wrong_entry st) (br_report st)
  else if (6 <=? point_data_format h) && negb (hdr =? 0) then
    mkByReturn (upd (br_array st) (i - 1) 0) true
      (br_report st ++
       say warn (LegacyReturnNotZero (point_data_format h) idx hdr rep))
  else
    mkByReturn (upd (br_array st) (i - 1) (Mach.to_U32 real))
      (br_wrong_entry st) (br_report st).

(** [stack k] is what the memory of cell [k] of the local array holds
    before the loop: the array is declared without an initializer. *)
Definition uninitialized (stack : nat -> Z) (n : nat) : list Z :=
  map (fun k => Mach.to_U32 (stack k)) (seq 0 n).

Definition check_number_of_points_by_return
    (o : options) (stack : nat -> Z) (h : LASheader) (s : LASsummary) : outcome :=
  let st := fold_left (by_return_step o h s) (seq 1 5)
              (mkByReturn (uninitialized stack 5) false []) in
  if repair_counters o then
    if br_wrong_entry st then
      ([Fseek 111; Fwrite (map DU32 (br_array st))], br_report st)
    else
      ([], br_report st ++ say (file_out o) ReturnsCorrect)
  else ([], br_report st).

(** *** extended_number_of_points_by_return[15] (120 bytes at offset 235 + 20) *)

Definition ext_by_return_step
    (o : options) (h : LASheader) (s : LASsummary)
    (st : by_return_state) (i : nat) : by_return_state :=
  let hdr := nth (i - 1) (extended_number_of_points_by_return h) 0 in
  let real := nth i (sum_number_of_points_by_return s) 0 in
  let warn := negb (no_warnings o) && file_out o in
  let rep := repair_counters o in
  let idx := Z.of_nat i in
  let a := upd (br_array st) (i - 1) real in
  if negb (Mach.to_I64 hdr =? real) then
    mkByReturn a true
      (br_report st ++
       say warn (if was_set (extended_number_of_points_by_return h) 14
                 then ExtReturnDiffers idx real hdr rep
                 else ExtReturnNotSet idx real rep))
  else mkByReturn a (br_wrong_entry st) (br_report st).

(** Every cell of the local array is assigned in the loop before the
    array is written, so what it held before does not matter. *)
Definition check_extended_number_of_points_by_return
    (o : options) (h : LASheader) (s : LASsummary) : outcome :=
  if 3 <? version_minor h then
    let st := fold_left (ext_by_return_step o h s)
                (seq 1 15) (mkByReturn (repeat 0 15) false []) in
    if repair_counters o then
      if br_wrong_entry st then
        ([Fseek (235 + 20); Fwrite (map DI64 (br_array st))], br_report st)
      else
        ([], br_report st ++ say (file_out o) ExtReturnsCorrect)
    else ([], br_report st)
  else ([], []).

(** Whether the loop sets [wrong_entry] at return [i], and what it
    assigns to cell [i - 1] of the local array ([None]: the cell is left as
    it was). *)
Definition legacy_bucket_wrong (h : LASheader) (s : LASsummary) (i : nat) : bool :=
  let hdr := nth (i - 1) (number_of_points_by_return h) 0 in
  let real := nth i (sum_number_of_points_by_return s) 0 in
  if (point_data_format h <? 6) && negb (hdr =? real) then
    (real <=? Mach.U32_MAX)
    || (negb (version_minor h <? 4) && negb (hdr =? 0))
  else (6 <=? point_data_format h) && negb (hdr =? 0).

Definition legacy_bucket_value (h : LASheader) (s : LASsummary) (i : nat) : option Z :=
  let hdr := nth (i - 1) (number_of_points_by_return h) 0 in
  let real := nth i (sum_number_of_points_by_return s) 0 in
  if (point_data_format h <? 6) && negb (hdr =? real) then
    if real <=? Mach.U32_MAX then Some (Mach.to_U32 real)
    else if version_minor h <? 4 then None
    else Some 0
  else if (6 <=? point_data_format h) && negb (hdr =? 0) then Some 0
  else Some (Mach.to_U32 real).

Definition ext_bucket_wrong (h : LASheader) (s : LASsummary) (i : nat) : bool :=
  negb (Mach.to_I64 (nth (i - 1) (extended_number_of_points_by_return h) 0)
        =? nth i (sum_number_of_points_by_return s) 0).

(** *** The bounding box (six doubles, 48 bytes at offset 179) *)

(** [a != b] on doubles. *)
Definition F64_neq (a b : float) : bool := negb (a =? b)%float.

(** [a > b] on doubles. *)
Definition F64_gt (a b : float) : bool := (b <? a)%float.

Definition enlarged_min_x (h : LASheader) : float :=
  (min_x h - 0.25 * x_scale_factor h)%float.
Definition enlarged_max_x (h : LASheader) : float :=
  (max_x h + 0.25 * x_scale_factor h)%float.
Definition enlarged_min_y (h : LASheader) : float :=
  (min_y h - 0.25 * y_scale_factor h)%float.
Definition enlarged_max_y (h : LASheader) : float :=
  (max_y h + 0.25 * y_scale_factor h)%float.
Definition enlarged_min_z (h : LASheader) : float :=
  (min_z h - 0.25 * z_scale_factor h)%float.
Definition enlarged_max_z (h : LASheader) : float :=
  (max_z h + 0.25 * z_scale_factor h)%float.

(** The six recomputed extrema, in the order of the file: max x, min x,
    max y, min y, max z, min z. *)
Definition real_box (h : LASheader) (s : LASsummary) : list float :=
  [get_x h (max_X s); get_x h (min_X s);
   get_y h (max_Y s); get_y h (min_Y s);
   get_z h (max_Z s); get_z h (min_Z s)].

Definition header_box (h : LASheader) : list float :=
  [max_x h; min_x h; max_y h; min_y h; max_z h; min_z h].

(** The comparison as the spec words it: bit for bit. *)
Definition F64_bits_differ (a b : float) : bool :=
  negb (Bytes.bits_of_F64 a =? Bytes.bits_of_F64 b).

Definition spec_box_wrong_entry (h : LASheader) (s : LASsummary) : bool :=
  existsb (fun p => F64_bits_differ (fst p) (snd p))
    (combine (real_box h s) (header_box h)).

(** Neither a NaN nor a pair of zeros. *)
Definition is_nan (a : float) : bool :=
  match Prim2SF a with S754_nan => true | _ => false end.

Definition is_zero (a : float) : bool :=
  match Prim2SF a with S754_zero _ => true | _ => false end.

(** [wrong_entry] after the six tests of the repair branch. *)
Definition box_wrong_entry (h : LASheader) (s : LASsummary) : bool :=
  let w := false in
  let w := if F64_neq (get_x h (max_X s)) (max_x h) then true else w in
  let w := if F64_neq (get_x h (min_X s)) (min_x h) then true else w in
  let w := if F64_neq (get_y h (max_Y s)) (max_y h) then true else w in
  let w := if F64_neq (get_y h (min_Y s)) (min_y h) then true else w in
  let w := if F64_neq (get_z h (max_Z s)) (max_z h) then true else w in
  let w := if F64_neq (get_z h (min_Z s)) (min_z h) then true else w in
  w.

Definition check_bounding_box
    (o : options) (h : LASheader) (s : LASsummary) : outcome :=
  let warn := negb (no_warnings o) && file_out o in
  if repair_bb o then
    if box_wrong_entry h s then
      ([Fseek 179;
        Fwrite [DF64 (get_x h (max_X s))];
        Fwrite [DF64 (get_x h (min_X s))];
        Fwrite [DF64 (get_y h (max_Y s))];
        Fwrite [DF64 (get_y h (min_Y s))];
        Fwrite [DF64 (get_z h (max_Z s))];
        Fwrite [DF64 (get_z h (min_Z s))]],
       say (file_out o) BoundingBoxRepaired)
    else ([], say (file_out o) BoundingBoxCorrect)
  else
    ([],
     (let value := get_x h (max_X s) in
      say (F64_gt value (enlarged_max_x h) && warn)
        (RealMaxLarger AxisX (value - max_x h)))
     ++ (let value := get_x h (min_X s) in
         say ((value <? enlarged_min_x h)%float && warn)
           (RealMinSmaller AxisX (min_x h - value)))
     ++ (let value := get_y h (max_Y s) in
         say (F64_gt value (enlarged_max_y h) && warn)
           (RealMaxLarger AxisY (value - max_y h)))
     ++ (let value := get_y h (min_Y s) in
         say ((value <? enlarged_min_y h)%float && warn)
           (RealMinSmaller AxisY (min_y h - value)))
     ++ (let value := get_z h (max_Z s) in
         say (F64_gt value (enlarged_max_z h) && warn)
           (RealMaxLarger AxisZ (value - max_z h)))
     ++ (let value := get_z h (min_Z s) in
         say ((value <? enlarged_min_z h)%float && warn)
           (RealMinSmaller AxisZ (min_z h - value)))).

(** *** All the checks of [if (check_points) { ... }], in order *)

Definition both (a b : outcome) : outcome :=
  (fst a ++ fst b, snd a ++ snd b).

Definition check_counters
    (o : options) (stack : nat -> Z) (h : LASheader) (s : LASsummary) : outcome :=
  both (check_number_of_point_records o h s)
    (both (check_extended_number_of_point_records o h s)
       (both (check_number_of_points_by_return o stack h s)
          (check_extended_number_of_points_by_return o h s))).

Definition check_header
    (o : options) (stack : nat -> Z) (h : LASheader) (s : LASsummary) : outcome :=
  both (check_counters o stack h s) (check_bounding_box o h s).

(** All corrections of one pass over a file: the edits of the variable
    length records and the repairs of the checks. The two come from two
    headers. The fields of the records are located by readers that the
    edit block opens before it writes anything (lines 846 to 905): in the
    header [found]. The checks run against the header that the reader of
    the pass parses after the edit block has written the header fields of
    the [-set_...] options (line 1235): in the header [h]. Without a
    header edit the two are one header. *)
Definition all_corrections
    (e : Locator.vlr_edits) (o : options) (stack : nat -> Z)
    (found h : LASheader) (s : LASsummary) : list correction :=
  corrections (Locator.vlr_edit_ops found e)
  ++ corrections (fst (check_header o stack h s)).

(** The records begin behind the header fields that the repairs write:
    the header in which the records are located is at least 227 bytes long
    (the bounding box ends there), and at least 375 bytes when the header
    that is checked has a minor version of 4 or more (the extended
    counters end there). *)
Definition records_behind_repairs (found h : LASheader) : Prop :=
  227 <= header_size found /\ (3 < version_minor h -> 375 <= header_size found).

(** The file after the calls of the checks, and the header a reader
    parses from it. *)
Definition repaired_file
    (o : options) (stack : nat -> Z) (h : LASheader) (s : LASsummary)
    (f : Bytes.file) : Bytes.file :=
  Bytes.run_ops (fst (check_header o stack h s)) f.

(** *** The header box against the recomputed extent

    The words of the spec for a header box that is larger than the true
    extent: it contains the recomputed extrema, and lies beyond one of
    them. *)

Definition scales_not_negative (h : LASheader) : bool :=
  negb (x_scale_factor h <? 0)%float
  && negb (y_scale_factor h <? 0)%float
  && negb (z_scale_factor h <? 0)%float.

Definition header_box_contains (h : LASheader) (s : LASsummary) : bool :=
  (get_x h (max_X s) <=? max_x h)%float
  && (min_x h <=? get_x h (min_X s))%float
  && (get_y h (max_Y s) <=? max_y h)%float
  && (min_y h <=? get_y h (min_Y s))%float
  && (get_z h (max_Z s) <=? max_z h)%float
  && (min_z h <=? get_z h (min_Z s))%float.

Definition header_box_beyond (h : LASheader) (s : LASsummary) : bool :=
  (get_x h (max_X s) <? max_x h)%float
  || (min_x h <? get_x h (min_X s))%float
  || (get_y h (max_Y s) <? max_y h)%float
  || (min_y h <? get_y h (min_Y s))%float
  || (get_z h (max_Z s) <? max_z h)%float
  || (min_z h <? get_z h (min_Z s))%float.

(** Strictly larger on all six sides. *)
Definition header_box_strictly_larger (h : LASheader) (s : LASsummary) : bool :=
  (get_x h (max_X s) <? max_x h)%float
  && (min_x h <? get_x h (min_X s))%float
  && (get_y h (max_Y s) <? max_y h)%float
  && (min_y h <? get_y h (min_Y s))%float
  && (get_z h (max_Z s) <? max_z h)%float
  && (min_z h <? get_z h (min_Z s))%float.

(** The test that the spec gives for a warning of the check-only mode:
    the recomputed extremum lies beyond the enlarged header box, outwards
    (a maximum above, a minimum below). *)
Definition beyond_enlarged_box
    (h : LASheader) (s : LASsummary) (m : message) : bool :=
  match m with
  | RealMaxLarger AxisX _ => F64_gt (get_x h (max_X s)) (enlarged_max_x h)
  | RealMaxLarger AxisY _ => F64_gt (get_y h (max_Y s)) (enlarged_max_y h)
  | RealMaxLarger AxisZ _ => F64_gt (get_z h (max_Z s)) (enlarged_max_z h)
  | RealMinSmaller AxisX _ => (get_x h (min_X s) <? enlarged_min_x h)%float
  | RealMinSmaller AxisY _ => (get_y h (min_Y s) <? enlarged_min_y h)%float
  | RealMinSmaller AxisZ _ => (get_z h (min_Z s) <? enlarged_min_z h)%float
  | _ => false
  end.

End Check.

(** ** The quantization validator *)

Module Quantize.

Section Quantizer.

(** [I64_QUANTIZE] is a macro that is declared outside [lasinfo.cpp]: the
    validator is modelled for any function from the doubles to the
    integers. *)
Variable I64_QUANTIZE : float -> Z.



End Quantizer.









End Quantize.

(** ** Rounding and order of the doubles

    The shapes that the rounding of [SpecFloat] produces, and the order
    that [SFcompare] decides, as definitions for the properties of the
    enlarged bounding box. *)

Module Round.

(** The finite double of sign [s], mantissa [m] and exponent [e], or the
    infinity when the exponent is beyond the format. *)
Definition fin_or_inf (s : bool) (m e : Z) : spec_float :=
  match m with
  | Z.pos p => if e <=? 971 then S754_finite s p e else S754_infinity s
  | _ => S754_nan
  end.

(** The result of rounding to nearest: the rounded mantissa [m1] at the
    exponent [f] of the format, renormalized when the mantissa has
    reached 2^53. *)
Definition pack (s : bool) (m1 f : Z) : spec_float :=
  if m1 =? 0 then S754_zero s
  else if m1 <? 2 ^ 53 then fin_or_inf s m1 f
  else fin_or_inf s (2 ^ 52) (f + 1).

End Round.

Module Order.

(** The place of a double in the order of [SFcompare]: class, then
    exponent, then mantissa, the last two negated for negative numbers. *)
Definition key (x : spec_float) : option (Z * Z * Z) :=
  match x with
  | S754_nan => None
  | S754_infinity true => Some (-2, 0, 0)
  | S754_finite true m e => Some (-1, - e, - Z.pos m)
  | S754_zero _ => Some (0, 0, 0)
  | S754_finite false m e => Some (1, e, Z.pos m)
  | S754_infinity false => Some (2, 0, 0)
  end.

Definition lex_lt (a b : Z * Z * Z) : Prop :=
  fst (fst a) < fst (fst b)
  \/ (fst (fst a) = fst (fst b)
      /\ (snd (fst a) < snd (fst b)
          \/ (snd (fst a) = snd (fst b) /\ snd a < snd b))).

Definition lex_le (a b : Z * Z * Z) : Prop := lex_lt a b \/ a = b.

(** [x <= y], or one of them is not a number. *)
Definition le_or_nan (x y : spec_float) : Prop :=
  match key x, key y with
  | Some a, Some b => lex_le a b
  | _, _ => True
  end.

(** Positive, zero of either sign, or not a number. *)
Definition not_negative (x : spec_float) : Prop :=
  match x with
  | S754_infinity true | S754_finite true _ _ => False
  | _ => True
  end.

End Order.

(** ** One input file: read pass, refusal, repair *)

Module Run.
Import LAS.
Import Patch.
Import Check.

(** What [lasreadopener] and the reader say about the input, and whether
    [LASfopen(name, "rb+")] succeeds. *)
Record input : Type := mkInput {
  is_piped : bool;
  is_merged : bool;
  is_buffered : bool;
  is_las_or_laz : bool;       (* get_format() <= LAS_TOOLS_FORMAT_LAZ *)
  name_is_las_or_laz : bool;  (* the file name has .las, .laz, .LAS or .LAZ *)
  reopen_ok : bool
}.

Inductive refusal : Type :=
| CannotEditPiped | CannotEditMerged | CannotEditBuffered
| CannotEditFormat | CannotOpenForEdit
| CannotRepairPiped | CannotRepairMerged | CannotRepairBuffered
| CannotRepairFormat | CannotReopen
| DeletingNotImplemented | RenamingNotImplemented | CommandFailed.

(** The commands that [-delete_empty] and [-rename] hand to [system]. *)
Inductive command : Type := Del | Rename.

(** What happens, in order. *)
Inductive event : Type :=
| Refused (why : refusal)      (* laserror(...) *)
| OpenedForUpdate              (* LASfopen(name, "rb+") *)
| FileOp (op : fileop)         (* fseek, fwrite, fputc on that file *)
| ReadPoint                    (* lasreader->read_point() delivered a point *)
| ReaderClosed                 (* lasreader->close() *)
| Reported (m : message)
| Executed (cmd : command).    (* system(command) *)

Definition is_write (e : event) : bool :=
  match e with
  | FileOp (Fwrite _) => true
  | _ => false
  end.


Definition is_refusal (e : event) : bool :=
  match e with
  | Refused _ => true
  | _ => false
  end.



Definition no_write (e : event) : bool := negb (is_write e).

(** [laserror]: the message, and then either the program ends ([halt]) or
    the code after the call goes on. The function is declared outside
    [lasinfo.cpp]; both behaviours are kept. *)
Definition laserror (halt : bool) (why : refusal) (rest : list event) : list event :=
  Refused why :: (if halt then [] else rest).

Definition events_of (out : outcome) : list event :=
  map FileOp (fst out) ++ map Reported (snd out).






Section OnePass.

(** The points of the stream and the accumulator of the summary
    ([LASsummary::add], declared outside [lasinfo.cpp]). *)
Variable point : Type.
Variable lassummary_add : LASsummary -> point -> LASsummary.

Definition empty_summary : LASsummary := mkSummary 0 (repeat 0 16) 0 0 0 0 0 0.

(** The settings of one run. *)
Record settings : Type := mkSettings {
  halt_on_error : bool;
  edit_header : bool;
  edits : Locator.vlr_edits;
  check_points : bool;
  subsequence_start : Z;
  subsequence_stop : Z;
  opts : options;
  stack : nat -> Z
}.

(** The points [while (lasreader->read_point())] delivers before the loop
    ends: after [seek(subsequence_start)] the counter [p_count] starts at
    [subsequence_start]; the point that takes [p_count] beyond
    [subsequence_stop] is read and then dropped by [break]. *)
Fixpoint read_loop (pts : list point) (p_count stop : Z) (acc : LASsummary)
  : list event * LASsummary :=
  match pts with
  | [] => ([], acc)
  | p :: rest =>
      if stop <? p_count + 1 then ([ReadPoint], acc)
      else
        let r := read_loop rest (p_count + 1) stop (lassummary_add acc p) in
        (ReadPoint :: fst r, snd r)
  end.

Definition read_pass (c : settings) (pts : list point) : list event * LASsummary :=
  if check_points c then
    read_loop (skipn (Z.to_nat (subsequence_start c)) pts)
      (subsequence_start c) (subsequence_stop c) empty_summary
  else ([], empty_summary).

Definition without_repair (o : options) : options :=
  mkOptions false false (no_warnings o) (file_out o).

(** The checks, with the options as the gate left them. *)
Definition check_phase (c : settings) (o : options) (h : LASheader)
    (s : LASsummary) : list event :=
  if check_points c then events_of (check_header o (stack c) h s) else [].

(** [file = LASfopen(name, "rb+")] and what follows it. *)
Definition reopen (c : settings) (i : input) (o : options) (h : LASheader)
    (s : LASsummary) : list event :=
  OpenedForUpdate ::
  (if reopen_ok i then check_phase c o h s
   else laserror (halt_on_error c) CannotReopen
          (check_phase c (without_repair o) h s)).

(** [if (repair_bb || repair_counters) { ... }] after the reader is
    closed, and the checks after it. *)
Definition repair_gate (c : settings) (i : input) (h : LASheader)
    (s : LASsummary) : list event :=
  let o := opts c in
  if repair_bb o || repair_counters o then
    let off := without_repair o in
    if is_piped i then
      laserror (halt_on_error c) CannotRepairPiped (reopen c i off h s)
    else if is_merged i then
      laserror (halt_on_error c) CannotRepairMerged (reopen c i off h s)
    else if is_buffered i then
      laserror (halt_on_error c) CannotRepairBuffered (reopen c i off h s)
    else if negb (is_las_or_laz i) then
      laserror (halt_on_error c) CannotRepairFormat (reopen c i off h s)
    else reopen c i o h s
  else check_phase c o h s.

(** From the report of the header to the end of the loop body (from line
    1270 on): the part of a pass that comes behind the blocks of
    [-delete_empty] and [-rename], and that a pass which one of them
    takes away does not reach (see [opened]). *)
Definition read_and_check (c : settings) (i : input) (h : LASheader)
    (pts : list point) : list event :=
  let r := read_pass c pts in
  fst r ++ ReaderClosed :: repair_gate c i h (snd r).

(** [if (edit_header) { ... }] at the start of the loop body, as far as
    the edits of the variable length records go. *)
Definition edit_phase (c : settings) (i : input) (h : LASheader)
    (rest : list event) : list event :=
  if edit_header c then
    let halt := halt_on_error c in
    let open_and_edit (allowed : bool) :=
      OpenedForUpdate ::
      (if reopen_ok i then
         (if allowed then map FileOp (Locator.vlr_edit_ops h (edits c)) else [])
         ++ rest
       else laserror halt CannotOpenForEdit rest) in
    let check_name (allowed : bool) :=
      if name_is_las_or_laz i then open_and_edit allowed
      else laserror halt CannotEditFormat (open_and_edit false) in
    if is_piped i then laserror halt CannotEditPiped (check_name false)
    else if is_merged i then laserror halt CannotEditMerged (check_name false)
    else if is_buffered i then laserror halt CannotEditBuffered (check_name false)
    else check_name true
  else rest.



End OnePass.


End Run.

(** ** Sample files *)

Module Samples.
Import LAS Check.

(** A LAS 1.2 file of point format 1 without variable length records: the
    header declares 100 points, 60 first and 40 second returns, and the
    box [0, 10] x [0, 20] x [0, 5] at a scale of 0.01. *)
Definition header_12 : LASheader :=
  {| version_minor := 2;
     header_size := 227;
     number_of_variable_length_records := 0;
     point_data_format := 1;
     number_of_point_records := 100;
     number_of_points_by_return := [60; 40; 0; 0; 0];
     x_scale_factor := 0.01; y_scale_factor := 0.01; z_scale_factor := 0.01;
     x_offset := 0; y_offset := 0; z_offset := 0;
     max_x := 10; min_x := 0; max_y := 20; min_y := 0; max_z := 5; min_z := 0;
     extended_number_of_point_records := 0;
     extended_number_of_points_by_return := repeat 0 15;
     vlrs := [] |}.

(** The stream holds 95 points (57 first, 38 second returns) that fill
    the declared box. *)
Definition summary_95 : LASsummary :=
  {| sum_number_of_point_records := 95;
     sum_number_of_points_by_return := [0; 57; 38] ++ repeat 0 13;
     max_X := 1000; min_X := 0;
     max_Y := 2000; min_Y := 0;
     max_Z := 500; min_Z := 0 |}.

(** A LAS 1.4 file of point format 7: the extended counters are right
    (95 points, 57 first and 38 second returns), the legacy count holds 42
    where it has to be zero. *)
Definition header_14 : LASheader :=
  {| version_minor := 4;
     header_size := 375;
     number_of_variable_length_records := 0;
     point_data_format := 7;
     number_of_point_records := 42;
     number_of_points_by_return := [0; 0; 0; 0; 0];
     x_scale_factor := 0.01; y_scale_factor := 0.01; z_scale_factor := 0.01;
     x_offset := 0; y_offset := 0; z_offset := 0;
     max_x := 10; min_x := 0; max_y := 20; min_y := 0; max_z := 5; min_z := 0;
     extended_number_of_point_records := 95;
     extended_number_of_points_by_return := [57; 38] ++ repeat 0 13;
     vlrs := [] |}.

(** A LAS 1.2 header followed by three records with bodies of 10, 0 and
    200 bytes. *)
Definition header_3_vlrs : LASheader :=
  {| version_minor := 2;
     header_size := 227;
     number_of_variable_length_records := 3;
     point_data_format := 1;
     number_of_point_records := 100;
     number_of_points_by_return := [60; 40; 0; 0; 0];
     x_scale_factor := 0.01; y_scale_factor := 0.01; z_scale_factor := 0.01;
     x_offset := 0; y_offset := 0; z_offset := 0;
     max_x := 10; min_x := 0; max_y := 20; min_y := 0; max_z := 5; min_z := 0;
     extended_number_of_point_records := 0;
     extended_number_of_points_by_return := repeat 0 15;
     vlrs := [mkVlr 10; mkVlr 0; mkVlr 200] |}.

(** A stream of 97 points, 57 first and 40 second returns: against
    [header_12] the count of the first returns is wrong, the count of the
    second returns is right. *)
Definition summary_97 : LASsummary :=
  {| sum_number_of_point_records := 97;
     sum_number_of_points_by_return := [0; 57; 40] ++ repeat 0 13;
     max_X := 1000; min_X := 0;
     max_Y := 2000; min_Y := 0;
     max_Z := 500; min_Z := 0 |}.

(** The bytes of a header: an empty file into which the fields are
    written at their offsets. *)
Definition header_ops (h : LASheader) : list Patch.fileop :=
  [Patch.Fseek 24; Patch.Fwrite [Patch.DU8 1; Patch.DU8 (version_minor h)];
   Patch.Fseek 94; Patch.Fwrite [Patch.DU16 (header_size h)];
   Patch.Fseek 100;
   Patch.Fwrite [Patch.DU32 (number_of_variable_length_records h)];
   Patch.Fwrite [Patch.DU8 (point_data_format h)];
   Patch.Fseek 107; Patch.Fwrite [Patch.DU32 (number_of_point_records h)];
   Patch.Fwrite (map Patch.DU32 (number_of_points_by_return h));
   Patch.Fwrite [Patch.DF64 (x_scale_factor h); Patch.DF64 (y_scale_factor h);
                 Patch.DF64 (z_scale_factor h)];
   Patch.Fwrite [Patch.DF64 (x_offset h); Patch.DF64 (y_offset h);
                 Patch.DF64 (z_offset h)];
   Patch.Fwrite [Patch.DF64 (max_x h); Patch.DF64 (min_x h);
                 Patch.DF64 (max_y h); Patch.DF64 (min_y h);
                 Patch.DF64 (max_z h); Patch.DF64 (min_z h)];
   Patch.Fseek 247;
   Patch.Fwrite [Patch.DI64 (extended_number_of_point_records h)];
   Patch.Fwrite (map Patch.DI64 (extended_number_of_points_by_return h))].

Definition empty_file : Bytes.file := fun _ => 0.

Definition file_of_header (h : LASheader) : Bytes.file :=
  Bytes.run_ops (header_ops h) empty_file.

(** A LAS 1.4 file of point format 6 whose extended counters are right
    (95 points, 57 first and 38 second returns) and whose legacy count is
    zero, as it has to be; of the legacy counts by return the first holds
    7, the others are zero. *)
Definition header_stale : LASheader :=
  {| version_minor := 4;
     header_size := 375;
     number_of_variable_length_records := 0;
     point_data_format := 6;
     number_of_point_records := 0;
     number_of_points_by_return := [7; 0; 0; 0; 0];
     x_scale_factor := 0.01; y_scale_factor := 0.01; z_scale_factor := 0.01;
     x_offset := 0; y_offset := 0; z_offset := 0;
     max_x := 10; min_x := 0; max_y := 20; min_y := 0; max_z := 5; min_z := 0;
     extended_number_of_point_records := 95;
     extended_number_of_points_by_return := [57; 38] ++ repeat 0 13;
     vlrs := [] |}.

(** A file whose only point lies at the origin; the header holds the box
    of that point, with a negative zero as the maximum of x. *)
Definition header_origin : LASheader :=
  {| version_minor := 2;
     header_size := 227;
     number_of_variable_length_records := 0;
     point_data_format := 1;
     number_of_point_records := 1;
     number_of_points_by_return := [1; 0; 0; 0; 0];
     x_scale_factor := 0.01; y_scale_factor := 0.01; z_scale_factor := 0.01;
     x_offset := 0; y_offset := 0; z_offset := 0;
     max_x := (-0)%float; min_x := 0; max_y := 0; min_y := 0; max_z := 0; min_z := 0;
     extended_number_of_point_records := 0;
     extended_number_of_points_by_return := repeat 0 15;
     vlrs := [] |}.

Definition summary_origin : LASsummary :=
  {| sum_number_of_point_records := 1;
     sum_number_of_points_by_return := [0; 1] ++ repeat 0 14;
     max_X := 0; min_X := 0;
     max_Y := 0; min_Y := 0;
     max_Z := 0; min_Z := 0 |}.

Definition repair_all : options := mkOptions true true false true.
Definition check_only : options := mkOptions false false false true.

Definition zero_stack : nat -> Z := fun _ => 0.

(** Edits of the user id of record 0 ("LAS"), the record id of record 1
    and the description of record 2 ("hi"). *)
Definition three_edits : Locator.vlr_edits :=
  Locator.mkEdits 0 [76; 65; 83] 1 4711 2 [104; 105].

(** An accumulator that only counts the points; two points on standard
    input. *)
Definition count_point (s : LASsummary) (p : unit) : LASsummary :=
  {| sum_number_of_point_records := sum_number_of_point_records s + 1;
     sum_number_of_points_by_return := sum_number_of_points_by_return s;
     max_X := max_X s; min_X := min_X s;
     max_Y := max_Y s; min_Y := min_Y s;
     max_Z := max_Z s; min_Z := min_Z s |}.



Definition repair_run (halt : bool) : Run.settings :=
  Run.mkSettings halt false Locator.no_edits true 0 (2 ^ 63 - 1)
    repair_all zero_stack.

(** Points of [header_12] that lie well inside its box: x, y from 1 to 5,
    z from 1 to 3. *)
Definition summary_inside : LASsummary :=
  {| sum_number_of_point_records := 100;
     sum_number_of_points_by_return := [0; 60; 40] ++ repeat 0 13;
     max_X := 500; min_X := 100;
     max_Y := 500; min_Y := 100;
     max_Z := 300; min_Z := 100 |}.

(** A file whose only point lies at the origin, with the box
    [-1, 1] x [-1, 1] x [-1, 1] in its header and a scale factor of -8
    for x. *)
Definition header_negative_scale : LASheader :=
  {| version_minor := 2;
     header_size := 227;
     number_of_variable_length_records := 0;
     point_data_format := 1;
     number_of_point_records := 1;
     number_of_points_by_return := [1; 0; 0; 0; 0];
     x_scale_factor := (-8)%float; y_scale_factor := 1; z_scale_factor := 1;
     x_offset := 0; y_offset := 0; z_offset := 0;
     max_x := 1; min_x := (-1)%float;
     max_y := 1; min_y := (-1)%float;
     max_z := 1; min_z := (-1)%float;
     extended_number_of_point_records := 0;
     extended_number_of_points_by_return := repeat 0 15;
     vlrs := [] |}.

End Samples.

(** ** Editing the header: the fields at fixed offsets *)

Module Edit.
Import LAS Patch.

(** A C array as the function from an index to its element, and its
    first [n] elements. *)
Definition array {A : Type} (n : nat) (a : nat -> A) : list A := map a (seq 0 n).

(** An array that was not allocated (the null pointer) is never read. *)
Definition allocated {A : Type} (p : option (nat -> A)) : bool :=
  match p with Some _ => true | None => false end.

Definition elements {A : Type} (d : A) (p : option (nat -> A)) : nat -> A :=
  match p with Some a => a | None => fun _ => d end.

(** The values of the [-set_...] options after the command line is
    parsed. An [I32], [I64] or [I8] option holds -1 when it was not given,
    [set_header_size] and [set_offset_to_point_data] hold 0, and the arrays
    that are allocated on demand are null. *)
Record header_edits : Type := mkHeaderEdits {
  set_file_source_ID : Z;                          (* I32 *)
  set_global_encoding : Z;                         (* I32 *)
  set_project_ID_GUID_data_1 : Z;                  (* I64 *)
  set_project_ID_GUID_data_2 : Z;                  (* I32 *)
  set_project_ID_GUID_data_3 : Z;                  (* I32 *)
  set_project_ID_GUID_data_4 : nat -> Z;           (* U8[8] *)
  set_version_major : Z;                           (* I8 *)
  set_version_minor : Z;                           (* I8 *)
  set_system_identifier : option (nat -> Z);       (* I8[32] *)
  set_generating_software : option (nat -> Z);     (* I8[32] *)
  set_creation_day : Z;                            (* I32 *)
  set_creation_year : Z;                           (* I32 *)
  set_header_size : Z;                             (* U16 *)
  set_offset_to_point_data : Z;                    (* U32 *)
  set_number_of_variable_length_records : Z;       (* I32 *)
  set_point_data_format : Z;                       (* I32 *)
  set_point_data_record_length : Z;                (* I32 *)
  set_number_of_point_records : Z;                 (* I32 *)
  set_number_of_points_by_return : nat -> Z;       (* I32[5] *)
  set_scale : option (nat -> float);               (* F64[3] *)
  set_offset : option (nat -> float);              (* F64[3] *)
  set_bounding_box : option (nat -> float);        (* F64[6] *)
  set_start_of_waveform_data_packet_record : Z     (* I64 *)
}.

(** Nothing was given. *)
Definition no_header_edits : header_edits :=
  mkHeaderEdits (-1) (-1) (-1) (-1) (-1) (fun _ => 0) (-1) (-1) None None
    (-1) (-1) 0 0 (-1) (-1) (-1) (-1) (fun _ => -1) None None None (-1).

(** [-set_bounding_box min_x min_y min_z max_x max_y max_z]: the six
    numbers of the command line go to the cells 1, 3, 5, 0, 2, 4. *)
Definition parse_set_bounding_box
    (a1 a2 a3 a4 a5 a6 : float) : nat -> float :=
  fun i =>
    match i with
    | 1%nat => a1      (* x min *)
    | 3%nat => a2      (* y min *)
    | 5%nat => a3      (* z min *)
    | 0%nat => a4      (* x max *)
    | 2%nat => a5      (* y max *)
    | 4%nat => a6      (* z max *)
    | _ => 0%float
    end.

(** One block
      [if (cond) { fseek(file, offset, SEEK_SET); fwrite(...); ... }]:
    the condition, the offset, and what each [fwrite] of the block hands
    over. *)
Definition slot : Type := (bool * Z * list (list datum))%type.

Definition requested (s : slot) : bool := fst (fst s).
Definition slot_offset (s : slot) : Z := snd (fst s).
Definition slot_writes (s : slot) : list (list datum) := snd s.

Definition slot_ops (s : slot) : list fileop :=
  if requested s then Fseek (slot_offset s) :: map Fwrite (slot_writes s)
  else [].

Definition slot_range (s : slot) : Z * Z :=
  (slot_offset s, slot_offset s + width (concat (slot_writes s))).

Section Clamps.

(** [U8_CLAMP], [U16_CLAMP] and [U32_CLAMP] are macros that are declared
    outside [lasinfo.cpp]: the edits are modelled for any three
    functions. *)
Variable U8_CLAMP : Z -> Z.
Variable U16_CLAMP : Z -> Z.
Variable U32_CLAMP : Z -> Z.

(** The blocks in the order of the code. [fwrite] takes the bytes of the
    variable it is given: a datum stands for the low bytes of its value in
    two's complement ([Bytes.datum_bytes]), so an [I8] is written as a
    [DU8], an [I32] as a [DU32], and what a clamp delivers is cut to the
    width of the variable it is assigned to. *)
Definition slots (e : header_edits) : list slot :=
  [ (negb (set_file_source_ID e =? -1), 4,
     [[DU16 (U16_CLAMP (set_file_source_ID e))]]);
    (negb (set_global_encoding e =? -1), 6,
     [[DU16 (U16_CLAMP (set_global_encoding e))]]);
    (negb (set_project_ID_GUID_data_1 e =? -1), 8,
     [[DU32 (U32_CLAMP (set_project_ID_GUID_data_1 e))];
      [DU16 (U16_CLAMP (set_project_ID_GUID_data_2 e))];
      [DU16 (U16_CLAMP (set_project_ID_GUID_data_3 e))];
      map DU8 (array 8 (set_project_ID_GUID_data_4 e))]);
    (negb (set_version_major e =? -1), 24, [[DU8 (set_version_major e)]]);
    (negb (set_version_minor e =? -1), 25, [[DU8 (set_version_minor e)]]);
    (allocated (set_system_identifier e), 26,
     [map DU8 (array 32 (elements 0 (set_system_identifier e)))]);
    (allocated (set_generating_software e), 58,
     [map DU8 (array 32 (elements 0 (set_generating_software e)))]);
    (negb (set_creation_day e =? -1), 90,
     [[DU16 (U16_CLAMP (set_creation_day e))]]);
    (negb (set_creation_year e =? -1), 92,
     [[DU16 (U16_CLAMP (set_creation_year e))]]);
    (negb (set_header_size e =? 0), 94, [[DU16 (set_header_size e)]]);
    (negb (set_offset_to_point_data e =? 0), 96,
     [[DU32 (set_offset_to_point_data e)]]);
    (negb (set_number_of_variable_length_records e =? -1), 100,
     [[DU32 (set_number_of_variable_length_records e)]]);
    (negb (set_point_data_format e =? -1), 104,
     [[DU8 (U8_CLAMP (set_point_data_format e))]]);
    (negb (set_point_data_record_length e =? -1), 105,
     [[DU16 (U16_CLAMP (set_point_data_record_length e))]]);
    (negb (set_number_of_point_records e =? -1), 107,
     [[DU32 (set_number_of_point_records e)]]);
    (negb (set_number_of_points_by_return e 0 =? -1), 111,
     [[DU32 (set_number_of_points_by_return e 0)]]);
    (negb (set_number_of_points_by_return e 1 =? -1), 115,
     [[DU32 (set_number_of_points_by_return e 1)]]);
    (negb (set_number_of_points_by_return e 2 =? -1), 119,
     [[DU32 (set_number_of_points_by_return e 2)]]);
    (negb (set_number_of_points_by_return e 3 =? -1), 123,
     [[DU32 (set_number_of_points_by_return e 3)]]);
    (negb (set_number_of_points_by_return e 4 =? -1), 127,
     [[DU32 (set_number_of_points_by_return e 4)]]);
    (allocated (set_scale e), 131,
     [map DF64 (array 3 (elements 0%float (set_scale e)))]);
    (allocated (set_offset e), 155,
     [map DF64 (array 3 (elements 0%float (set_offset e)))]);
    (allocated (set_bounding_box e), 179,
     [map DF64 (array 6 (elements 0%float (set_bounding_box e)))]);
    (negb (set_start_of_waveform_data_packet_record e =? -1), 227,
     [[DI64 (set_start_of_waveform_data_packet_record e)]]) ].

(** The calls of the blocks from [set_file_source_ID] to
    [set_start_of_waveform_data_packet_record], in the order of the code. *)
Definition fixed_edit_ops (e : header_edits) : list fileop :=
  flat_map slot_ops (slots e).

(** All calls of the edit of one file before the EPSG block: the fields
    at fixed offsets, then the three fields of variable length records. *)
Definition edit_ops (h : LASheader) (e : header_edits)
    (v : Locator.vlr_edits) : list fileop :=
  fixed_edit_ops e ++ Locator.vlr_edit_ops h v.

End Clamps.

(** The ranges of the blocks, in the order of the code. *)
Definition fixed_ranges : list (Z * Z) :=
  [(4, 6); (6, 8); (8, 24); (24, 25); (25, 26); (26, 58); (58, 90); (90, 92);
   (92, 94); (94, 96); (96, 100); (100, 104); (104, 105); (105, 107);
   (107, 111); (111, 115); (115, 119); (119, 123); (123, 127); (127, 131);
   (131, 155); (155, 179); (179, 227); (227, 235)].

(** Each range starts where the one before it ends, or later. *)
Fixpoint ascending (lo : Z) (rs : list (Z * Z)) : bool :=
  match rs with
  | [] => true
  | r :: rest => (lo <=? fst r) && (fst r <=? snd r) && ascending (snd r) rest
  end.

(** The header is as long as the fields that are edited: 227 bytes, and
    235 bytes when the start of the waveform data is set. *)
Definition covers_edits (h : LASheader) (e : header_edits) : Prop :=
  227 <= header_size h
  /\ (set_start_of_waveform_data_packet_record e <> -1 -> 235 <= header_size h).

(** [-scale_header fx fy fz] together with [-set_scale], [-set_offset] or
    [-set_bounding_box] is reported with [laserror]. *)
Inductive conflict : Type := ScaleGiven | OffsetGiven | BoundingBoxGiven.

Definition scale_header_conflicts (e : header_edits) : list conflict :=
  (if allocated (set_scale e) then [ScaleGiven] else [])
  ++ (if allocated (set_offset e) then [OffsetGiven] else [])
  ++ (if allocated (set_bounding_box e) then [BoundingBoxGiven] else []).

(** [-scale_header fx fy fz]: before the edits the header is read, and
    scale factors, offsets and bounding box are set to those of the header
    times the factor of their axis. *)

Definition scale_header_edits
    (h : LASheader) (scale_header : nat -> float) (e : header_edits)
  : header_edits :=
  {| set_file_source_ID := set_file_source_ID e;
     set_global_encoding := set_global_encoding e;
     set_project_ID_GUID_data_1 := set_project_ID_GUID_data_1 e;
     set_project_ID_GUID_data_2 := set_project_ID_GUID_data_2 e;
     set_project_ID_GUID_data_3 := set_project_ID_GUID_data_3 e;
     set_project_ID_GUID_data_4 := set_project_ID_GUID_data_4 e;
     set_version_major := set_version_major e;
     set_version_minor := set_version_minor e;
     set_system_identifier := set_system_identifier e;
     set_generating_software := set_generating_software e;
     set_creation_day := set_creation_day e;
     set_creation_year := set_creation_year e;
     set_header_size := set_header_size e;
     set_offset_to_point_data := set_offset_to_point_data e;
     set_number_of_variable_length_records :=
       set_number_of_variable_length_records e;
     set_point_data_format := set_point_data_format e;
     set_point_data_record_length := set_point_data_record_length e;
     set_number_of_point_records := set_number_of_point_records e;
     set_number_of_points_by_return := set_number_of_points_by_return e;
     set_scale :=
       Some (fun i =>
               match i with
               | 0%nat => x_scale_factor h * scale_header 0%nat
               | 1%nat => y_scale_factor h * scale_header 1%nat
               | _ => z_scale_factor h * scale_header 2%nat
               end)%float;
     set_offset :=
       Some (fun i =>
               match i with
               | 0%nat => x_offset h * scale_header 0%nat
               | 1%nat => y_offset h * scale_header 1%nat
               | _ => z_offset h * scale_header 2%nat
               end)%float;
     set_bounding_box :=
       Some (fun i =>
               match i with
               | 1%nat => min_x h * scale_header 0%nat
               | 3%nat => min_y h * scale_header 1%nat
               | 5%nat => min_z h * scale_header 2%nat
               | 0%nat => max_x h * scale_header 0%nat
               | 2%nat => max_y h * scale_header 1%nat
               | _ => max_z h * scale_header 2%nat
               end)%float;
     set_start_of_waveform_data_packet_record :=
       set_start_of_waveform_data_packet_record e |}.

End Edit.

(** ** One input file, with all the edits of its header *)

Module FullRun.
Import LAS Patch Check Run.

(** [if (edit_header) { ... }] as in [Run.edit_phase], with [ops] for the
    calls of the branch that edits the opened file: the fields at fixed
    offsets, the fields of variable length records and the GeoTIFF
    keys. *)
Definition edit_phase (ops : list fileop) (c : settings) (i : input)
    (rest : list event) : list event :=
  if edit_header c then
    let halt := halt_on_error c in
    let open_and_edit (allowed : bool) :=
      OpenedForUpdate ::
      (if reopen_ok i then
         (if allowed then map FileOp ops else []) ++ rest
       else laserror halt CannotOpenForEdit rest) in
    let check_name (allowed : bool) :=
      if name_is_las_or_laz i then open_and_edit allowed
      else laserror halt CannotEditFormat (open_and_edit false) in
    if is_piped i then laserror halt CannotEditPiped (check_name false)
    else if is_merged i then laserror halt CannotEditMerged (check_name false)
    else if is_buffered i then laserror halt CannotEditBuffered (check_name false)
    else check_name true
  else rest.

Section OnePass.

Variable point : Type.
Variable lassummary_add : LASsummary -> point -> LASsummary.

(** One pass of [while (lasreadopener.active())] that neither
    [-delete_empty] nor [-rename] takes away: the header [h] is the one
    the reader parses when it is opened after the edits. *)
Definition run (ops : list fileop) (c : settings) (i : input) (h : LASheader)
    (pts : list point) : list event :=
  edit_phase ops c i (read_and_check point lassummary_add c i h pts).

End OnePass.

End FullRun.

(** ** More sample inputs *)

Module MoreSamples.
Import LAS Check.

(** A clamp as LAStools has it: into the range of the type. *)
Definition clamp (hi : Z) (z : Z) : Z := Z.max 0 (Z.min hi z).

(** [-set_point_data_format 3 -set_number_of_point_records 95
     -set_bounding_box 0 0 0 10 20 5]. *)
Definition sample_edits : Edit.header_edits :=
  Edit.mkHeaderEdits (-1) (-1) (-1) (-1) (-1) (fun _ => 0) (-1) (-1) None None
    (-1) (-1) 0 0 (-1) 3 (-1) 95 (fun _ => -1) None None
    (Some (Edit.parse_set_bounding_box 0 0 0 10 20 5)) (-1).

(** A LAS file on disk that can be opened for update. *)
Definition regular_input : Run.input :=
  Run.mkInput false false false true true true.

(** [-start_at_point 1 -stop_at_point 3] without repair. *)
Definition subsequence_run : Run.settings :=
  Run.mkSettings false false Locator.no_edits true 1 3 Samples.check_only
    Samples.zero_stack.

(** [-set_version 1.4 -set_header_size 375
     -set_number_of_variable_length_records 0], and
    [-set_vlr_description 0 hi]. *)
Definition version_edits : Edit.header_edits :=
  Edit.mkHeaderEdits (-1) (-1) (-1) (-1) (-1) (fun _ => 0) 1 4 None None
    (-1) (-1) 375 0 0 (-1) (-1) (-1) (fun _ => -1) None None None (-1).

Definition description_edit : Locator.vlr_edits :=
  Locator.mkEdits (-1) [] (-1) 0 0 [104; 105].

(** Against [Samples.header_12] (60 first and 40 second returns): five
    billion first returns, beyond what 32 bits hold, and 38 second
    returns. *)
Definition summary_overflow : LASsummary :=
  {| sum_number_of_point_records := 5000000038;
     sum_number_of_points_by_return := [0; 5000000000; 38] ++ repeat 0 13;
     max_X := 1000; min_X := 0;
     max_Y := 2000; min_Y := 0;
     max_Z := 500; min_Z := 0 |}.

End MoreSamples.

(** ** [-auto_date]: the creation date, from one input file to the next *)

Module AutoDate.
Import LAS Patch Run.

(** The fields of [SYSTEMTIME] that the code reads. *)
Record SYSTEMTIME : Type := mkSystemTime {
  wYear : Z;
  wMonth : Z;
  wDay : Z
}.

Definition startday : list Z :=
  [-1; 0; 31; 59; 90; 120; 151; 181; 212; 243; 273; 304; 334].

(** [set_creation_day] after the block of [-auto_date]. *)
Definition creation_day (t : SYSTEMTIME) : Z :=
  let day := nth (Z.to_nat (wMonth t)) startday 0 + wDay t in
  if (wYear t mod 4 =? 0) && (2 <? wMonth t) then day + 1 else day.

(** The two assignments of the block. *)
Definition with_creation (e : Edit.header_edits) (day year : Z)
  : Edit.header_edits :=
  Edit.mkHeaderEdits
    (Edit.set_file_source_ID e) (Edit.set_global_encoding e)
    (Edit.set_project_ID_GUID_data_1 e) (Edit.set_project_ID_GUID_data_2 e)
    (Edit.set_project_ID_GUID_data_3 e) (Edit.set_project_ID_GUID_data_4 e)
    (Edit.set_version_major e) (Edit.set_version_minor e)
    (Edit.set_system_identifier e) (Edit.set_generating_software e)
    day year
    (Edit.set_header_size e) (Edit.set_offset_to_point_data e)
    (Edit.set_number_of_variable_length_records e)
    (Edit.set_point_data_format e) (Edit.set_point_data_record_length e)
    (Edit.set_number_of_point_records e)
    (Edit.set_number_of_points_by_return e)
    (Edit.set_scale e) (Edit.set_offset e) (Edit.set_bounding_box e)
    (Edit.set_start_of_waveform_data_packet_record e).

(** [edit_header = ...]. *)
Definition set_edit_header (c : settings) (b : bool) : settings :=
  mkSettings (halt_on_error c) b (edits c) (check_points c)
    (subsequence_start c) (subsequence_stop c) (opts c) (stack c).

(** [edit_header] when the block [if (edit_header) { ... }] is left: each
    refusal of the block sets it to false. *)
Definition edit_header_after (b : bool) (i : input) : bool :=
  b && negb (is_piped i) && negb (is_merged i) && negb (is_buffered i)
  && name_is_las_or_laz i && reopen_ok i.

(** [repair_bb] and [repair_counters] when the block
    [if (repair_bb || repair_counters) { ... }] is left: each refusal of
    the block sets both to false. *)
Definition opts_after (o : Check.options) (i : input) : Check.options :=
  if (Check.repair_bb o || Check.repair_counters o)
     && (is_piped i || is_merged i || is_buffered i
         || negb (is_las_or_laz i) || negb (reopen_ok i))
  then without_repair o else o.

(** The members at the end of a pass over the input [i]. *)
Definition settings_after (c : settings) (i : input) : settings :=
  mkSettings (halt_on_error c) (edit_header_after (edit_header c) i)
    (edits c) (check_points c) (subsequence_start c) (subsequence_stop c)
    (opts_after (opts c) i) (stack c).

(** A LAS file on disk that opens for update. *)
Definition regular (i : input) : Prop :=
  is_piped i = false /\ is_merged i = false /\ is_buffered i = false
  /\ is_las_or_laz i = true /\ name_is_las_or_laz i = true
  /\ reopen_ok i = true.

(** A date as [FileTimeToSystemTime] delivers it. *)
Definition date (t : SYSTEMTIME) : Prop :=
  1 <= wMonth t <= 12 /\ 1 <= wDay t /\ 0 <= wYear t.

Section Loop.

Variable U8_CLAMP : Z -> Z.
Variable U16_CLAMP : Z -> Z.
Variable U32_CLAMP : Z -> Z.
Variable point : Type.
Variable lassummary_add : LASsummary -> point -> LASsummary.

(** One input file: what the opener says about it, whether
    [lasreadopener.get_file_name()] is a name, the time the file was
    created, the header that the readers of the edit block find, the
    header that the reader of the pass parses, and the points. *)
Record file_in : Type := mkFile {
  inp : input;
  has_name : bool;
  created : SYSTEMTIME;
  found : LASheader;
  header : LASheader;
  points : list point
}.

(** The build ([#ifdef _WIN32]) and the option. *)
Variable win32 : bool.
Variable auto_date_creation : bool.

(** One pass over the file [x] with the values of the options as the
    passes before have left them. *)
Definition pass (c : settings) (e : Edit.header_edits) (x : file_in)
  : list event :=
  FullRun.run point lassummary_add
    (Edit.edit_ops U8_CLAMP U16_CLAMP U32_CLAMP (found x) e (edits c))
    c (inp x) (header x) (points x).

(** [while (lasreadopener.active())] for a command line without
    [-scale_header], [-set_file_source_ID_from_point_source_ID],
    [-delete_empty] and [-rename]: [edit_header], [repair_bb],
    [repair_counters], [set_creation_day] and [set_creation_year] are
    members, and a pass finds them as the pass before left them. The
    block of [-auto_date] comes after the block of the edits and after the
    reader is opened. *)
Fixpoint passes (c : settings) (e : Edit.header_edits) (files : list file_in)
  : list (list event) :=
  match files with
  | [] => []
  | x :: rest =>
      let t := pass c e x in
      t ::
      (if halt_on_error c && existsb is_refusal t then []
       else if win32 && auto_date_creation && has_name x then
         passes (set_edit_header (settings_after c (inp x)) true)
           (with_creation e (creation_day (created x)) (wYear (created x)))
           rest
       else passes (settings_after c (inp x)) e rest)
  end.

End Loop.

Arguments inp {point} _.
Arguments has_name {point} _.
Arguments created {point} _.
Arguments found {point} _.
Arguments header {point} _.
Arguments points {point} _.

End AutoDate.

(** ** Sample input files with their dates *)

Module DateSamples.
Import AutoDate.

(** Three LAS files of one point each, created on 1 March 2024,
    31 December 2023 and 15 January 2100. *)
Definition file_created (t : SYSTEMTIME) : file_in unit :=
  mkFile unit MoreSamples.regular_input true t
    Samples.header_12 Samples.header_12 [tt].

Definition march_2024 : SYSTEMTIME := mkSystemTime 2024 3 1.
Definition december_2023 : SYSTEMTIME := mkSystemTime 2023 12 31.
Definition january_2100 : SYSTEMTIME := mkSystemTime 2100 1 15.

Definition three_files : list (file_in unit) :=
  [file_created march_2024; file_created december_2023;
   file_created january_2100].

(** [lasinfo -auto_date] without further options. *)
Definition plain_run : Run.settings :=
  Run.mkSettings false false Locator.no_edits true 0 (2 ^ 63 - 1)
    Samples.check_only Samples.zero_stack.

End DateSamples.

(** ** Printing a double without trailing zeros *)

Module Print.

(** The characters ['0'] and ['.']. *)
Definition zero_char : Z := 48.
Definition dot_char : Z := 46.

(** [while (string[len] == '0') len--;] on the characters that [sprintf]
    has left in the buffer: [None] when [len] leaves the buffer at its
    start. The character at the length of the string is the terminating
    zero byte. *)
Fixpoint skip_zeros (string : list Z) (len : nat) : option nat :=
  match len with
  | O => if nth 0 string 0 =? zero_char then None else Some O
  | S k => if nth (S k) string 0 =? zero_char then skip_zeros string k
           else Some (S k)
  end.

(** [lidardouble2string(string, value)] on what
    [sprintf(string, "%.15f", value)] has printed ([sprintf] is declared
    outside [lasinfo.cpp]): the string that is left in the buffer and the
    value returned. An empty string has [string[-1]] read. *)
Definition lidardouble2string (printed : list Z) : option (list Z * Z) :=
  match length printed with
  | O => None
  | S n =>
      match skip_zeros printed n with
      | None => None
      | Some len =>
          let len := if nth len printed 0 =? dot_char then len else S len in
          Some (firstn len printed, Z.of_nat len)
      end
  end.

(** The strings "1.500" and "2.000". *)
Definition one_and_a_half : list Z := [49; 46; 53; 48; 48].
Definition two : list Z := [50; 46; 48; 48; 48].

End Print.

(** * Properties *)

(** ** Casts *)

Module MachFacts.
Import Mach.

Lemma to_U32_id z : 0 <= z <= U32_MAX -> to_U32 z = z.
Proof. unfold to_U32, U32_MAX. intros. apply Z.mod_small. lia. Qed.

Lemma to_U32_range z : 0 <= to_U32 z <= U32_MAX.
Proof.
  unfold to_U32, U32_MAX.
  pose proof (Z.mod_pos_bound z (2 ^ 32) ltac:(lia)). lia.
Qed.

Lemma to_I32_id z : - 2 ^ 31 <= z < 2 ^ 31 -> to_I32 z = z.
Proof. unfold to_I32. intros. rewrite Z.mod_small; lia. Qed.

Lemma to_I64_id z : - 2 ^ 63 <= z < 2 ^ 63 -> to_I64 z = z.
Proof. unfold to_I64. intros. rewrite Z.mod_small; lia. Qed.

End MachFacts.

(** ** The legacy and the extended point count *)

(** C1. For a file of point format below 6 whose summary total differs
    from the legacy count of the header, repair of the counters does one
    of three things: a total of at most 2^32-1 is written as a 4 byte
    value at offset 107; a larger total with a minor version below 4 is
    only reported, nothing is written; a larger total with a minor version
    of 4 or more has the legacy count written to zero, unless it is zero
    already. A total of 2^32-1 is written, a total of 2^32 is not. *)
Theorem legacy_count_repair_policy
    (o : Check.options) (h : LAS.LASheader) (s : LAS.LASsummary) :
  let real := LAS.sum_number_of_point_records s in
  let hdr := LAS.number_of_point_records h in
  let out := Check.check_number_of_point_records o h s in
  LAS.point_data_format h < 6 ->
  real <> hdr ->
  0 <= real ->
  Check.repair_counters o = true ->
  Patch.corrections (fst out)
    = Check.legacy_count_policy (LAS.version_minor h) hdr real
  /\ (real <= 2 ^ 32 - 1 ->
      fst out = [Patch.Fseek 107; Patch.Fwrite [Patch.DU32 real]]
      /\ map Patch.c_width (Patch.corrections (fst out)) = [4])
  /\ (2 ^ 32 <= real -> LAS.version_minor h < 4 ->
      fst out = []
      /\ snd out = Check.say (Check.file_out o) (Check.CountTooBigCannotRepair real))
  /\ (2 ^ 32 <= real -> 4 <= LAS.version_minor h ->
      fst out = if hdr =? 0 then []
                else [Patch.Fseek 107; Patch.Fwrite [Patch.DU32 0]]).
Proof.
  intros real hdr out Hfmt Hne Hpos Hrep.
  unfold out, Check.check_number_of_point_records, Check.legacy_count_policy.
  fold real hdr. rewrite Hrep.
  assert (Hf : (LAS.point_data_format h <? 6) = true) by (apply Z.ltb_lt; lia).
  assert (Hn : (real =? hdr) = false) by (apply Z.eqb_neq; assumption).
  rewrite Hf, Hn. cbn [andb negb].
  unfold Mach.U32_MAX.
  destruct (Z.leb_spec real 4294967295) as [Hle | Hgt].
  - assert (Hr : (real <=? 2 ^ 32 - 1) = true) by (apply Z.leb_le; lia).
    rewrite Hr, MachFacts.to_U32_id by (unfold Mach.U32_MAX; lia).
    repeat split; try reflexivity; intros; lia.
  - assert (Hr : (real <=? 2 ^ 32 - 1) = false) by (apply Z.leb_gt; lia).
    rewrite Hr.
    destruct (Z.ltb_spec (LAS.version_minor h) 4) as [Hm | Hm].
    + repeat split; try reflexivity; intros; lia.
    + destruct (Z.eqb_spec hdr 0) as [Hz | Hz]; cbn [negb];
        repeat split; try reflexivity; intros; lia.
Qed.

Lemma legacy_count_repair_policy_witness :
  Patch.corrections
    (fst (Check.check_number_of_point_records
            Samples.repair_all Samples.header_12 Samples.summary_95))
  = [Patch.mkCorrection 107 [Patch.DU32 95]].
Proof.
  refine (proj1 (legacy_count_repair_policy
                   Samples.repair_all Samples.header_12 Samples.summary_95
                   _ _ _ _)).
  - reflexivity.
  - simpl. lia.
  - simpl. lia.
  - reflexivity.
Defined.

(** ** The loops over the returns *)

Module ReturnFacts.
Import LAS Patch Check.

Lemma upd_length a i v : length (upd a i v) = length a.
Proof.
  revert i. induction a as [| x a IH]; intros [| i]; simpl; auto.
Qed.

Lemma nth_upd_same a i v d : (i < length a)%nat -> nth i (upd a i v) d = v.
Proof.
  revert i. induction a as [| x a IH]; intros [| i] H; simpl in *; try lia; auto.
  apply IH. lia.
Qed.

Lemma nth_upd_other a i j v d : i <> j -> nth j (upd a i v) d = nth j a d.
Proof.
  revert i j. induction a as [| x a IH]; intros [| i] [| j] H; simpl; auto; try lia.
Qed.

(** One step of the loop: the flag, the cell, the other cells. *)
Lemma by_return_step_wrong o h s st i :
  br_wrong_entry (by_return_step o h s st i)
  = br_wrong_entry st || legacy_bucket_wrong h s i.
Proof.
  unfold by_return_step, legacy_bucket_wrong.
  destruct ((point_data_format h <? 6)
            && negb (nth (i - 1) (number_of_points_by_return h) 0
                     =? nth i (sum_number_of_points_by_return s) 0)).
  - destruct (nth i (sum_number_of_points_by_return s) 0 <=? Mach.U32_MAX);
      cbn [br_wrong_entry orb]; [ now rewrite orb_true_r |].
    destruct (version_minor h <? 4); cbn [br_wrong_entry negb andb orb];
      [ now rewrite orb_false_r |].
    destruct (nth (i - 1) (number_of_points_by_return h) 0 =? 0);
      cbn [br_wrong_entry negb]; [ now rewrite orb_false_r | now rewrite orb_true_r ].
  - destruct ((6 <=? point_data_format h)
              && negb (nth (i - 1) (number_of_points_by_return h) 0 =? 0));
      cbn [br_wrong_entry]; [ now rewrite orb_true_r | now rewrite orb_false_r ].
Qed.

Lemma by_return_step_array o h s st i :
  br_array (by_return_step o h s st i)
  = match legacy_bucket_value h s i with
    | Some v => upd (br_array st) (i - 1) v
    | None => br_array st
    end.
Proof.
  unfold by_return_step, legacy_bucket_value.
  destruct ((point_data_format h <? 6)
            && negb (nth (i - 1) (number_of_points_by_return h) 0
                     =? nth i (sum_number_of_points_by_return s) 0)).
  - destruct (nth i (sum_number_of_points_by_return s) 0 <=? Mach.U32_MAX);
      [ reflexivity |].
    destruct (version_minor h <? 4); [ reflexivity |].
    destruct (negb (nth (i - 1) (number_of_points_by_return h) 0 =? 0));
      reflexivity.
  - destruct ((6 <=? point_data_format h)
              && negb (nth (i - 1) (number_of_points_by_return h) 0 =? 0));
      reflexivity.
Qed.

Lemma by_return_fold_wrong o h s l st :
  br_wrong_entry (fold_left (by_return_step o h s) l st)
  = br_wrong_entry st || existsb (legacy_bucket_wrong h s) l.
Proof.
  revert st. induction l as [| i l IH]; intro st; simpl.
  - now rewrite orb_false_r.
  - rewrite IH, by_return_step_wrong. now rewrite orb_assoc.
Qed.

Lemma by_return_fold_length o h s l st :
  length (br_array (fold_left (by_return_step o h s) l st)) = length (br_array st).
Proof.
  revert st. induction l as [| i l IH]; intro st; simpl; [ reflexivity |].
  rewrite IH, by_return_step_array.
  destruct (legacy_bucket_value h s i); [ apply upd_length | reflexivity ].
Qed.

(** A cell that the rest of the loop does not visit keeps its value. *)
Lemma by_return_fold_skip o h s l st k d :
  Forall (fun i => (1 <= i)%nat) l ->
  ~ In (S k) l ->
  nth k (br_array (fold_left (by_return_step o h s) l st)) d
  = nth k (br_array st) d.
Proof.
  revert st. induction l as [| i l IH]; intros st Hpos Hn; simpl; [ reflexivity |].
  inversion Hpos as [| ? ? Hi Hl]; subst.
  rewrite IH by (auto; intro; apply Hn; now right).
  rewrite by_return_step_array.
  destruct (legacy_bucket_value h s i); [| reflexivity ].
  apply nth_upd_other. intro E. apply Hn. left. lia.
Qed.

(** The cell of a return the loop visits once holds what that step
    assigned, or what it held before when the step assigns nothing. *)
Lemma by_return_fold_cell o h s l st k d :
  Forall (fun i => (1 <= i)%nat) l ->
  NoDup l ->
  In (S k) l ->
  (k < length (br_array st))%nat ->
  nth k (br_array (fold_left (by_return_step o h s) l st)) d
  = match legacy_bucket_value h s (S k) with
    | Some v => v
    | None => nth k (br_array st) d
    end.
Proof.
  revert st. induction l as [| i l IH]; intros st Hpos Hnd Hin Hlen; simpl.
  - destruct Hin.
  - inversion Hpos as [| ? ? Hi Hl]; subst.
    inversion Hnd as [| ? ? Hni Hnd']; subst.
    destruct (Nat.eq_dec i (S k)) as [-> | Hne].
    + rewrite by_return_fold_skip by assumption.
      rewrite by_return_step_array.
      destruct (legacy_bucket_value h s (S k)); [| reflexivity ].
      replace (S k - 1)%nat with k by lia.
      now apply nth_upd_same.
    + destruct Hin as [E | Hin]; [ congruence |].
      rewrite IH; auto.
      * rewrite by_return_step_array.
        destruct (legacy_bucket_value h s (S k)); [ reflexivity |].
        destruct (legacy_bucket_value h s i); [| reflexivity ].
        apply nth_upd_other. lia.
      * rewrite by_return_step_array.
        destruct (legacy_bucket_value h s i); [ now rewrite upd_length | assumption ].
Qed.

Lemma seq_1_positive n : Forall (fun i => (1 <= i)%nat) (seq 1 n).
Proof. apply Forall_forall. intros i Hi. apply in_seq in Hi. lia. Qed.

Lemma uninitialized_length stack n : length (uninitialized stack n) = n.
Proof. unfold uninitialized. now rewrite length_map, length_seq. Qed.

(** The extended loop. *)
Lemma ext_by_return_step_wrong o h s st i :
  br_wrong_entry (ext_by_return_step o h s st i)
  = br_wrong_entry st || ext_bucket_wrong h s i.
Proof.
  unfold ext_by_return_step, ext_bucket_wrong.
  destruct (negb (Mach.to_I64 (nth (i - 1) (extended_number_of_points_by_return h) 0)
                  =? nth i (sum_number_of_points_by_return s) 0));
    cbn [br_wrong_entry]; [ now rewrite orb_true_r | now rewrite orb_false_r ].
Qed.

Lemma ext_by_return_step_array o h s st i :
  br_array (ext_by_return_step o h s st i)
  = upd (br_array st) (i - 1) (nth i (sum_number_of_points_by_return s) 0).
Proof.
  unfold ext_by_return_step.
  destruct (negb (Mach.to_I64 (nth (i - 1) (extended_number_of_points_by_return h) 0)
                  =? nth i (sum_number_of_points_by_return s) 0)); reflexivity.
Qed.

Lemma ext_by_return_fold_wrong o h s l st :
  br_wrong_entry (fold_left (ext_by_return_step o h s) l st)
  = br_wrong_entry st || existsb (ext_bucket_wrong h s) l.
Proof.
  revert st. induction l as [| i l IH]; intro st; simpl.
  - now rewrite orb_false_r.
  - rewrite IH, ext_by_return_step_wrong. now rewrite orb_assoc.
Qed.

Lemma ext_by_return_fold_length o h s l st :
  length (br_array (fold_left (ext_by_return_step o h s) l st)) = length (br_array st).
Proof.
  revert st. induction l as [| i l IH]; intro st; simpl; [ reflexivity |].
  now rewrite IH, ext_by_return_step_array, upd_length.
Qed.

Lemma ext_by_return_fold_skip o h s l st k d :
  Forall (fun i => (1 <= i)%nat) l ->
  ~ In (S k) l ->
  nth k (br_array (fold_left (ext_by_return_step o h s) l st)) d
  = nth k (br_array st) d.
Proof.
  revert st. induction l as [| i l IH]; intros st Hpos Hn; simpl; [ reflexivity |].
  inversion Hpos as [| ? ? Hi Hl]; subst.
  rewrite IH by (auto; intro; apply Hn; now right).
  rewrite ext_by_return_step_array.
  apply nth_upd_other. intro E. apply Hn. left. lia.
Qed.

Lemma ext_by_return_fold_cell o h s l st k d :
  Forall (fun i => (1 <= i)%nat) l ->
  NoDup l ->
  In (S k) l ->
  (k < length (br_array st))%nat ->
  nth k (br_array (fold_left (ext_by_return_step o h s) l st)) d
  = nth (S k) (sum_number_of_points_by_return s) 0.
Proof.
  revert st. induction l as [| i l IH]; intros st Hpos Hnd Hin Hlen; simpl.
  - destruct Hin.
  - inversion Hpos as [| ? ? Hi Hl]; subst.
    inversion Hnd as [| ? ? Hni Hnd']; subst.
    destruct (Nat.eq_dec i (S k)) as [-> | Hne].
    + rewrite ext_by_return_fold_skip by assumption.
      rewrite ext_by_return_step_array.
      replace (S k - 1)%nat with k by lia.
      now apply nth_upd_same.
    + destruct Hin as [E | Hin]; [ congruence |].
      apply IH; auto.
      now rewrite ext_by_return_step_array, upd_length.
Qed.

(** What the two checks write, in terms of the buckets. *)
Lemma by_return_ops o stack h s :
  fst (check_number_of_points_by_return o stack h s)
  = if repair_counters o && existsb (legacy_bucket_wrong h s) (seq 1 5)
    then [Fseek 111;
          Fwrite (map DU32
                    (br_array (fold_left (by_return_step o h s) (seq 1 5)
                                 (mkByReturn (uninitialized stack 5) false []))))]
    else [].
Proof.
  unfold check_number_of_points_by_return.
  rewrite by_return_fold_wrong. cbn [br_wrong_entry orb].
  destruct (repair_counters o); [| reflexivity ].
  destruct (existsb (legacy_bucket_wrong h s) (seq 1 5)); reflexivity.
Qed.

Lemma ext_by_return_ops o h s :
  fst (check_extended_number_of_points_by_return o h s)
  = if (3 <? version_minor h) && repair_counters o
       && existsb (ext_bucket_wrong h s) (seq 1 15)
    then [Fseek (235 + 20);
          Fwrite (map DI64
                    (br_array (fold_left (ext_by_return_step o h s) (seq 1 15)
                                 (mkByReturn (repeat 0 15) false []))))]
    else [].
Proof.
  unfold check_extended_number_of_points_by_return.
  destruct (3 <? version_minor h); [| reflexivity ].
  rewrite ext_by_return_fold_wrong. cbn [br_wrong_entry orb andb].
  destruct (repair_counters o); [| reflexivity ].
  destruct (existsb (ext_bucket_wrong h s) (seq 1 15)); reflexivity.
Qed.

End ReturnFacts.

Module HeaderFacts.
Import LAS Patch Check.

Lemma existsb_false {A} (f : A -> bool) l :
  (forall x, In x l -> f x = false) -> existsb f l = false.
Proof.
  intro H. induction l as [| x l IH]; simpl; [ reflexivity |].
  rewrite H by now left. apply IH. intros; apply H; now right.
Qed.

(** The calls of all checks, one check after the other. *)
Lemma check_header_ops o stack h s :
  fst (check_header o stack h s)
  = fst (check_number_of_point_records o h s)
    ++ fst (check_extended_number_of_point_records o h s)
    ++ fst (check_number_of_points_by_return o stack h s)
    ++ fst (check_extended_number_of_points_by_return o h s)
    ++ fst (check_bounding_box o h s).
Proof.
  unfold check_header, check_counters, both. cbn [fst].
  now rewrite <- !app_assoc.
Qed.

Lemma bounding_box_ops o h s :
  fst (check_bounding_box o h s)
  = if repair_bb o && box_wrong_entry h s
    then [Fseek 179;
          Fwrite [DF64 (get_x h (max_X s))];
          Fwrite [DF64 (get_x h (min_X s))];
          Fwrite [DF64 (get_y h (max_Y s))];
          Fwrite [DF64 (get_y h (min_Y s))];
          Fwrite [DF64 (get_z h (max_Z s))];
          Fwrite [DF64 (get_z h (min_Z s))]]
    else [].
Proof.
  unfold check_bounding_box.
  destruct (repair_bb o); [| reflexivity ].
  destruct (box_wrong_entry h s); reflexivity.
Qed.

End HeaderFacts.

(** C4. For a file of point format 6 or more whose legacy count is not
    zero, repair of the counters writes zero to the 4 bytes at offset 107,
    whatever the summary total is. When the extended count already equals
    the total, nothing is written to the extended count, and the two
    count checks make this one correction; when the other counters and
    the bounding box agree with the summary as well, it is the only
    correction of the pass. *)
Theorem legacy_count_zeroed_for_new_formats
    (o : Check.options) (stack : nat -> Z) (h : LAS.LASheader) (s : LAS.LASsummary) :
  let real := LAS.sum_number_of_point_records s in
  let count := Check.check_number_of_point_records o h s in
  let ext := Check.check_extended_number_of_point_records o h s in
  6 <= LAS.point_data_format h ->
  LAS.number_of_point_records h <> 0 ->
  Check.repair_counters o = true ->
  fst count = [Patch.Fseek 107; Patch.Fwrite [Patch.DU32 0]]
  /\ (LAS.extended_number_of_point_records h = real ->
      0 <= real < 2 ^ 63 ->
      fst ext = []
      /\ Patch.corrections (fst count ++ fst ext)
         = [Patch.mkCorrection 107 [Patch.DU32 0]]
      /\ (LAS.number_of_points_by_return h = [0; 0; 0; 0; 0] ->
          (forall i, In i (seq 1 15) -> Check.ext_bucket_wrong h s i = false) ->
          Check.repair_bb o && Check.box_wrong_entry h s = false ->
          Patch.corrections (fst (Check.check_header o stack h s))
          = [Patch.mkCorrection 107 [Patch.DU32 0]])).
Proof.
  intros real count ext Hfmt Hne Hrep.
  assert (Hcount : fst count = [Patch.Fseek 107; Patch.Fwrite [Patch.DU32 0]]).
  { unfold count, Check.check_number_of_point_records.
    assert (Hf : (LAS.point_data_format h <? 6) = false) by (apply Z.ltb_ge; lia).
    assert (Hg : (6 <=? LAS.point_data_format h) = true) by (apply Z.leb_le; lia).
    assert (Hz : (LAS.number_of_point_records h =? 0) = false)
      by (apply Z.eqb_neq; assumption).
    rewrite Hf, Hg, Hz, Hrep. reflexivity. }
  split; [ exact Hcount |].
  intros Hext Hrange.
  assert (Hnone : fst ext = []).
  { unfold ext, Check.check_extended_number_of_point_records.
    rewrite Hext. fold real. rewrite MachFacts.to_I64_id by lia.
    rewrite Z.eqb_refl. cbn [negb].
    destruct (3 <? LAS.version_minor h); reflexivity. }
  split; [ exact Hnone |].
  split.
  - rewrite Hcount, Hnone. reflexivity.
  - intros Hret Hextret Hbox.
    rewrite HeaderFacts.check_header_ops.
    fold count ext. rewrite Hcount, Hnone.
    rewrite ReturnFacts.by_return_ops, ReturnFacts.ext_by_return_ops,
      HeaderFacts.bounding_box_ops.
    rewrite Hbox.
    rewrite (HeaderFacts.existsb_false (Check.ext_bucket_wrong h s)) by assumption.
    assert (Hleg : existsb (Check.legacy_bucket_wrong h s) (seq 1 5) = false).
    { apply HeaderFacts.existsb_false. intros i Hi.
      unfold Check.legacy_bucket_wrong. rewrite Hret.
      assert (Hf : (LAS.point_data_format h <? 6) = false) by (apply Z.ltb_ge; lia).
      rewrite Hf. cbn [andb].
      simpl in Hi.
      destruct Hi as [<- | [<- | [<- | [<- | [<- | []]]]]]; simpl;
        now rewrite andb_false_r. }
    rewrite Hleg, !andb_false_r. reflexivity.
Qed.

Lemma legacy_count_zeroed_for_new_formats_witness :
  Patch.corrections
    (fst (Check.check_header Samples.repair_all Samples.zero_stack
            Samples.header_14 Samples.summary_95))
  = [Patch.mkCorrection 107 [Patch.DU32 0]].
Proof.
  pose proof (legacy_count_zeroed_for_new_formats
                Samples.repair_all Samples.zero_stack
                Samples.header_14 Samples.summary_95) as H.
  cbv zeta in H.
  destruct H as [_ H].
  - simpl. lia.
  - simpl. lia.
  - reflexivity.
  - destruct H as [_ [_ H]].
    + reflexivity.
    + simpl. lia.
    + apply H.
      * reflexivity.
      * intros i Hi. simpl in Hi.
        repeat (destruct Hi as [<- | Hi]; [ reflexivity |]). destruct Hi.
      * vm_compute. reflexivity.
Defined.

(** ** The walk over the variable length records *)

Module LocatorFacts.
Import LAS Patch Locator.

Lemma walk_sum table steps i pos :
  (i + steps <= length table)%nat ->
  walk table steps i pos = pos + body_sum (firstn steps (skipn i table)).
Proof.
  revert i pos. induction steps as [| k IH]; intros i pos Hlen; simpl.
  - unfold body_sum. simpl. lia.
  - rewrite IH by lia.
    assert (Hi : (i < length table)%nat) by lia.
    destruct (skipn i table) as [| v rest] eqn:E.
    + apply (f_equal (@length _)) in E. rewrite length_skipn in E. simpl in E. lia.
    + assert (Hn : nth i table no_vlr = v).
      { rewrite <- (firstn_skipn i table) at 1.
        rewrite app_nth2; rewrite length_firstn, Nat.min_l by lia; [| lia ].
        rewrite Nat.sub_diag, E. reflexivity. }
      assert (Hs : skipn (S i) table = rest).
      { change (S i) with (1 + i)%nat.
        rewrite <- skipn_skipn, E. reflexivity. }
      rewrite Hn, Hs. cbn [firstn]. unfold body_sum. cbn [fold_right]. lia.
Qed.

Lemma walk_record_start h index :
  (index <= length (vlrs h))%nat ->
  walk (vlrs h) index 0 (header_size h) = record_start h index.
Proof.
  intro H. rewrite walk_sum by lia. reflexivity.
Qed.

Lemma body_sum_bounds l :
  Forall (fun v => between 0 Mach.U16_MAX (record_length_after_header v)) l ->
  0 <= body_sum l <= Z.of_nat (length l) * (54 + Mach.U16_MAX).
Proof.
  induction 1 as [| v l Hv Hl IH]; unfold body_sum in *;
    cbn [fold_right length]; [ lia |].
  unfold between, Mach.U16_MAX in *. nia.
Qed.

Lemma Forall_firstn {A} (P : A -> Prop) n l : Forall P l -> Forall P (firstn n l).
Proof.
  intro H. revert n. induction H; intros [| n]; simpl; constructor; auto.
Qed.

(** With an index below 2^16, as the command line admits it, the position
    stays far below the range of [I64] and of a 64 bit [long]. *)
Lemma record_start_bounds h index :
  wf_header h ->
  0 <= record_start h index <= Mach.U16_MAX + Z.of_nat index * (54 + Mach.U16_MAX).
Proof.
  intros W. unfold record_start.
  pose proof (body_sum_bounds (firstn index (vlrs h))
                (Forall_firstn _ index _ (wf_vlrs h W))) as B.
  pose proof (wf_header_size h W) as S. unfold between in S.
  rewrite length_firstn in B.
  assert (Z.of_nat (Nat.min index (length (vlrs h))) <= Z.of_nat index) by lia.
  unfold Mach.U16_MAX in *. nia.
Qed.

End LocatorFacts.

(** C6. For a record table with fewer than 2^31 records and a requested
    index below the record count, the position of a field is the header
    size, plus 54 and the body length for every record before the index,
    plus 2 for the user id, 18 for the record id, 22 for the description.
    For an index that is not below the record count the position stays -1,
    the "SKIPPING" message is given, the edit makes no call on the file and
    the file is left as it is. *)
Theorem record_locator
    (h : LAS.LASheader) (index : Z) (v : Locator.vlr_value) :
  LAS.wf_header h ->
  LAS.number_of_variable_length_records h < 2 ^ 31 ->
  0 <= index ->
  (Locator.sub_offset Locator.UserId, Locator.sub_offset Locator.RecordId,
   Locator.sub_offset Locator.Description) = (2, 18, 22)
  /\ (index < LAS.number_of_variable_length_records h ->
      Locator.set_vlr_pos h index (Locator.field_of v)
      = Locator.record_start h (Z.to_nat index)
        + Locator.sub_offset (Locator.field_of v)
      /\ Locator.skipping h index = false
      /\ hd_error (Locator.vlr_edit h (index, v))
         = Some (Patch.Fseek (Locator.set_vlr_pos h index (Locator.field_of v))))
  /\ (LAS.number_of_variable_length_records h <= index ->
      Locator.set_vlr_pos h index (Locator.field_of v) = -1
      /\ Locator.skipping h index = true
      /\ Locator.vlr_edit h (index, v) = []
      /\ forall f, Bytes.run_ops (Locator.vlr_edit h (index, v)) f = f).
Proof.
  intros W Hsmall Hidx.
  pose proof (LAS.wf_nvlrs h W) as Hn.
  pose proof (LAS.wf_nvlrs_range h W) as Hr. unfold LAS.between in Hr.
  assert (Hcast : Mach.to_I32 (LAS.number_of_variable_length_records h)
                  = LAS.number_of_variable_length_records h)
    by (apply MachFacts.to_I32_id; lia).
  assert (Hreq : (index =? -1) = false) by (apply Z.eqb_neq; lia).
  split; [ reflexivity |].
  split.
  - intro Hlt.
    assert (Hpos : Locator.set_vlr_pos h index (Locator.field_of v)
                   = Locator.record_start h (Z.to_nat index)
                     + Locator.sub_offset (Locator.field_of v)).
    { unfold Locator.set_vlr_pos. rewrite Hreq, Hcast.
      assert (Hb : (index <? LAS.number_of_variable_length_records h) = true)
        by (apply Z.ltb_lt; lia).
      rewrite Hb, LocatorFacts.walk_record_start by lia. reflexivity. }
    split; [ exact Hpos |].
    split.
    + unfold Locator.skipping. rewrite Hcast.
      assert (Hb : (index <? LAS.number_of_variable_length_records h) = true)
        by (apply Z.ltb_lt; lia).
      rewrite Hb. now rewrite andb_false_r.
    + unfold Locator.vlr_edit, Locator.edit_vlr. cbn [fst snd].
      rewrite Hreq.
      pose proof (LocatorFacts.record_start_bounds h (Z.to_nat index) W) as B.
      assert (Hs : 2 <= Locator.sub_offset (Locator.field_of v))
        by (destruct v; simpl; lia).
      assert (Hne : (Locator.set_vlr_pos h index (Locator.field_of v) =? -1) = false)
        by (apply Z.eqb_neq; lia).
      rewrite Hne. reflexivity.
  - intro Hge.
    assert (Hb : (index <? LAS.number_of_variable_length_records h) = false)
      by (apply Z.ltb_ge; lia).
    assert (Hpos : Locator.set_vlr_pos h index (Locator.field_of v) = -1).
    { unfold Locator.set_vlr_pos. now rewrite Hreq, Hcast, Hb. }
    assert (Hnil : Locator.vlr_edit h (index, v) = []).
    { unfold Locator.vlr_edit, Locator.edit_vlr. cbn [fst snd].
      rewrite Hreq, Hpos. reflexivity. }
    split; [ exact Hpos |].
    split; [ unfold Locator.skipping; now rewrite Hreq, Hcast, Hb |].
    split; [ exact Hnil |].
    intro f. rewrite Hnil. reflexivity.
Qed.

Module SamplesFacts.
Import LAS Samples.

Ltac wf_sample :=
  constructor; unfold between, Mach.U8_MAX, Mach.U16_MAX, Mach.U32_MAX;
  cbn; try lia; try reflexivity;
  repeat (constructor; cbn; try lia).

Lemma header_12_wf : wf_header header_12.
Proof. wf_sample. Qed.

Lemma header_14_wf : wf_header header_14.
Proof. wf_sample. Qed.

Lemma header_3_vlrs_wf : wf_header header_3_vlrs.
Proof. wf_sample. Qed.

End SamplesFacts.

Lemma record_locator_witness :
  Locator.set_vlr_pos Samples.header_3_vlrs 2 Locator.UserId = 227 + (54 + 10) + (54 + 0) + 2
  /\ Locator.vlr_edit Samples.header_3_vlrs (5, Locator.NewDescription [104; 105]) = [].
Proof.
  split.
  - pose proof (record_locator Samples.header_3_vlrs 2 (Locator.NewUserId [])
                  SamplesFacts.header_3_vlrs_wf) as H.
    destruct H as [_ [H _]]; [ simpl; lia | lia |].
    destruct H as [H _]; [ simpl; lia |].
    exact H.
  - pose proof (record_locator Samples.header_3_vlrs 5
                  (Locator.NewDescription [104; 105])
                  SamplesFacts.header_3_vlrs_wf) as H.
    destruct H as [_ [_ H]]; [ simpl; lia | lia |].
    destruct H as [_ [_ [H _]]]; [ simpl; lia |].
    exact H.
Defined.

(** ** One pass over an input file *)

Module RunFacts.
Import LAS Patch Check Run.

Lemma count_no_repair o h s :
  repair_counters o = false -> fst (check_number_of_point_records o h s) = [].
Proof.
  intro R. unfold check_number_of_point_records. rewrite R.
  destruct ((point_data_format h <? 6)
            && negb (sum_number_of_point_records s =? number_of_point_records h));
    [ reflexivity |].
  destruct ((6 <=? point_data_format h) && negb (number_of_point_records h =? 0));
    reflexivity.
Qed.

Lemma ext_count_no_repair o h s :
  repair_counters o = false ->
  fst (check_extended_number_of_point_records o h s) = [].
Proof.
  intro R. unfold check_extended_number_of_point_records. rewrite R.
  destruct (3 <? version_minor h); [| reflexivity ].
  destruct (negb (sum_number_of_point_records s
                  =? Mach.to_I64 (extended_number_of_point_records h)));
    reflexivity.
Qed.

Lemma check_header_no_repair o stack h s :
  repair_bb o = false -> repair_counters o = false ->
  fst (check_header o stack h s) = [].
Proof.
  intros B C.
  rewrite HeaderFacts.check_header_ops, count_no_repair, ext_count_no_repair,
    ReturnFacts.by_return_ops, ReturnFacts.ext_by_return_ops,
    HeaderFacts.bounding_box_ops by assumption.
  rewrite B, C, andb_false_r. reflexivity.
Qed.





Section Reads.
Variable point : Type.
Variable lassummary_add : LASsummary -> point -> LASsummary.

Lemma read_loop_reads pts p stop acc :
  Forall (fun e => e = ReadPoint) (fst (read_loop point lassummary_add pts p stop acc)).
Proof.
  revert p acc. induction pts as [| x pts IH]; intros p acc; simpl.
  - constructor.
  - destruct (stop <? p + 1); simpl; constructor; auto.
Qed.

Lemma read_pass_reads c pts :
  Forall (fun e => e = ReadPoint) (fst (read_pass point lassummary_add c pts)).
Proof.
  unfold read_pass. destruct (check_points c); [ apply read_loop_reads | constructor ].
Qed.


End Reads.

End RunFacts.

Module GateFacts.
Import LAS Patch Check Run.


Lemma reads_no_write t :
  Forall (fun e => e = ReadPoint) t -> forallb no_write t = true.
Proof. induction 1 as [| e t He Ht IH]; simpl; [ reflexivity |]. now subst e. Qed.






Section Opened.
Variable point : Type.
Variable lassummary_add : LASsummary -> point -> LASsummary.



End Opened.

End GateFacts.




(** ** Corrections and their byte ranges *)

Module PatchFacts.
Import Patch.

Lemma fold_step_done ops p op done :
  fold_left step ops (mkCursor p op done)
  = mkCursor (cur_pos (fold_left step ops (mkCursor p op [])))
      (cur_open (fold_left step ops (mkCursor p op [])))
      (done ++ cur_done (fold_left step ops (mkCursor p op []))).
Proof.
  revert p op done. induction ops as [| x ops IH]; intros p op done; simpl.
  - now rewrite app_nil_r.
  - destruct x as [o | ds]; simpl.
    + rewrite (IH o None (flush (mkCursor p op done))).
      rewrite (IH o None (flush (mkCursor p op []))).
      cbn [cur_pos cur_open cur_done]. f_equal.
      unfold flush. cbn [cur_open cur_done].
      destruct op; cbn [app]; [ now rewrite <- app_assoc | reflexivity ].
    + rewrite IH. symmetry. rewrite IH. reflexivity.
Qed.

Lemma corrections_seek o ops :
  corrections (Fseek o :: ops) = flush (fold_left step ops (mkCursor o None [])).
Proof. reflexivity. Qed.

Lemma flush_done p op d d' :
  flush (mkCursor p op (d ++ d')) = d ++ flush (mkCursor p op d').
Proof. unfold flush. simpl. destruct op; now rewrite ?app_assoc. Qed.

Lemma corrections_app_seek a o b :
  corrections (a ++ Fseek o :: b) = corrections a ++ corrections (Fseek o :: b).
Proof.
  rewrite corrections_seek. unfold corrections.
  rewrite fold_left_app. cbn [fold_left step].
  rewrite fold_step_done, flush_done.
  f_equal.
Qed.

Lemma corrections_app a b :
  seek_led b -> corrections (a ++ b) = corrections a ++ corrections b.
Proof.
  destruct b as [| [o | ds] b]; simpl; intro H.
  - now rewrite !app_nil_r.
  - apply corrections_app_seek.
  - destruct H.
Qed.

Lemma seek_led_app a b : seek_led a -> seek_led b -> seek_led (a ++ b).
Proof. destruct a as [| [o | ds] a]; simpl; auto. Qed.

Lemma width_cons d l : width (d :: l) = sizeof d + width l.
Proof. reflexivity. Qed.

Lemma width_app a b : width (a ++ b) = width a + width b.
Proof.
  induction a as [| d a IH]; [ reflexivity |].
  rewrite <- app_comm_cons, !width_cons, IH. lia.
Qed.

Lemma gather_cons_write ds ws : gather (Fwrite ds :: ws) = ds ++ gather ws.
Proof. reflexivity. Qed.

Lemma fold_writes ws q c done :
  Forall is_fwrite ws ->
  fold_left step ws (mkCursor q (Some c) done)
  = mkCursor (q + width (gather ws))
      (Some (mkCorrection (c_offset c) (c_data c ++ gather ws))) done.
Proof.
  intro H. revert q c. induction H as [| w ws Hw Hws IH]; intros q c.
  - cbn [fold_left gather flat_map]. rewrite app_nil_r.
    change (width []) with 0. rewrite Z.add_0_r. now destruct c.
  - destruct w as [o | ds]; [ destruct Hw |].
    cbn [fold_left step cur_open cur_pos cur_done].
    rewrite IH, gather_cons_write, width_app. cbn [c_offset c_data].
    now rewrite Z.add_assoc, app_assoc.
Qed.

Lemma corrections_seek_writes p w ws :
  Forall is_fwrite (w :: ws) ->
  corrections (Fseek p :: w :: ws) = [mkCorrection p (gather (w :: ws))].
Proof.
  intro H. inversion H as [| ? ? Hw Hws]; subst.
  destruct w as [o | ds]; [ destruct Hw |].
  rewrite corrections_seek. simpl. rewrite fold_writes by assumption.
  reflexivity.
Qed.

Lemma width_DU32 l : width (map DU32 l) = 4 * Z.of_nat (length l).
Proof.
  induction l as [| x l IH]; [ reflexivity |].
  cbn [map]. rewrite width_cons, IH. cbn [sizeof length]. lia.
Qed.

Lemma width_DI64 l : width (map DI64 l) = 8 * Z.of_nat (length l).
Proof.
  induction l as [| x l IH]; [ reflexivity |].
  cbn [map]. rewrite width_cons, IH. cbn [sizeof length]. lia.
Qed.

(** Selecting by flags keeps pairwise properties of the selected. *)
Lemma keep_cons {A} b flags (x : A) l :
  keep (b :: flags) (x :: l) = keep [b] [x] ++ keep flags l.
Proof. simpl. destruct b; reflexivity. Qed.

Lemma keep_Forall {A} (P : A -> Prop) flags l :
  Forall (fun bx => fst bx = true -> P (snd bx)) (combine flags l) ->
  Forall P (keep flags l).
Proof.
  revert l. induction flags as [| b flags IH]; intros [| x l] H; simpl;
    try constructor.
  simpl in H. inversion H as [| ? ? Hx Hl]; subst.
  destruct b; [ constructor; auto | auto ].
Qed.

Lemma keep_pairs {A} (R : A -> A -> Prop) flags l :
  ForallOrdPairs
    (fun bx by_ => fst bx = true -> fst by_ = true -> R (snd bx) (snd by_))
    (combine flags l) ->
  ForallOrdPairs R (keep flags l).
Proof.
  revert l. induction flags as [| b flags IH]; intros [| x l] H; simpl;
    try constructor.
  simpl in H. inversion H as [| ? ? Hx Hl]; subst.
  destruct b; [| auto ].
  constructor; [| auto ].
  apply keep_Forall. revert Hx. apply Forall_impl.
  intros [b' y] Hy Hb. apply Hy; auto.
Qed.

Lemma not_shares_byte lo1 hi1 lo2 hi2 :
  hi1 <= lo2 \/ hi2 <= lo1 -> ~ shares_byte (lo1, hi1) (lo2, hi2).
Proof.
  intros H [a [H1 H2]]. unfold in_range in *. simpl in *.
  apply andb_true_iff in H1, H2. lia.
Qed.

(** The boolean test decides the property. *)
Lemma pairwise_disjoint_sound rs :
  pairwise_disjoint rs = true -> disjoint_ranges rs.
Proof.
  induction rs as [| r rs IH]; simpl; intro H; [ constructor |].
  apply andb_true_iff in H. destruct H as [Hr Hrs].
  constructor; [| now apply IH ].
  rewrite forallb_forall in Hr. apply Forall_forall. intros r' Hin.
  specialize (Hr r' Hin). apply negb_true_iff in Hr.
  intros [a [H1 H2]]. unfold overlap in Hr. unfold in_range in *.
  apply andb_true_iff in H1, H2. apply andb_false_iff in Hr. lia.
Qed.

End PatchFacts.

Module DisjointFacts.
Import LAS Patch Locator Check.

Lemma put_padded_writes s n : Forall is_fwrite (put_padded s n).
Proof.
  revert s. induction n as [| n IH]; intro s; simpl; [ constructor |].
  destruct s; constructor; simpl; auto.
Qed.

Lemma put_padded_width s n : width (gather (put_padded s n)) = Z.of_nat n.
Proof.
  revert s. induction n as [| n IH]; intro s; [ reflexivity |].
  cbn [put_padded].
  destruct s as [| c s];
    rewrite PatchFacts.gather_cons_write, PatchFacts.width_app, IH, Nat2Z.inj_succ;
    unfold width; cbn [fold_right sizeof]; lia.
Qed.

Lemma padded_range p s n :
  map range_of (corrections (Fseek p :: put_padded s (S n)))
  = [(p, p + Z.of_nat (S n))].
Proof.
  pose proof (put_padded_writes s (S n)) as W.
  pose proof (put_padded_width s (S n)) as E.
  destruct (put_padded s (S n)) as [| w ws] eqn:P.
  - destruct s; discriminate.
  - rewrite PatchFacts.corrections_seek_writes by assumption.
    cbn [map]. unfold range_of, c_width. cbn [c_offset c_data].
    now rewrite E.
Qed.

Lemma range_seek_write o ds :
  map range_of (corrections [Fseek o; Fwrite ds]) = [(o, o + width ds)].
Proof. reflexivity. Qed.

(** *** The start of a record *)

Lemma body_sum_app a b : body_sum (a ++ b) = body_sum a + body_sum b.
Proof.
  induction a as [| v a IH]; [ reflexivity |].
  rewrite <- app_comm_cons. unfold body_sum in *. cbn [fold_right].
  rewrite IH. lia.
Qed.

Lemma body_sum_nonneg l :
  Forall (fun v => between 0 Mach.U16_MAX (record_length_after_header v)) l ->
  0 <= body_sum l /\ (l <> [] -> 54 <= body_sum l).
Proof.
  induction 1 as [| v l Hv Hl IH]; unfold body_sum in *; cbn [fold_right].
  - split; [ lia | congruence ].
  - unfold between in Hv. split; intros; lia.
Qed.

Lemma Forall_skipn {A} (P : A -> Prop) n l : Forall P l -> Forall P (skipn n l).
Proof.
  intro H. revert n. induction H; intros [| n]; simpl; auto.
Qed.

Lemma firstn_split {A} n m (l : list A) :
  (n <= m)%nat -> firstn m l = firstn n l ++ firstn (m - n) (skipn n l).
Proof.
  revert m l. induction n as [| n IH]; intros m l H.
  - now rewrite Nat.sub_0_r.
  - destruct m as [| m]; [ lia |].
    destruct l as [| x l]; [ simpl; now rewrite firstn_nil |].
    simpl. f_equal. apply IH. lia.
Qed.

Lemma record_start_ge h n : wf_header h -> header_size h <= record_start h n.
Proof.
  intro W. unfold record_start.
  pose proof (body_sum_nonneg _ (LocatorFacts.Forall_firstn _ n _ (wf_vlrs h W))).
  lia.
Qed.

Lemma record_start_le h n m :
  wf_header h -> (n <= m)%nat ->
  record_start h n = record_start h m \/ record_start h n + 54 <= record_start h m.
Proof.
  intros W H. unfold record_start.
  rewrite (firstn_split n m) by assumption. rewrite body_sum_app.
  pose proof (body_sum_nonneg (firstn (m - n) (skipn n (vlrs h)))
                (LocatorFacts.Forall_firstn _ _ _
                   (Forall_skipn _ n _ (wf_vlrs h W)))) as [B0 B1].
  destruct (firstn (m - n) (skipn n (vlrs h))) as [| v l].
  - left. unfold body_sum at 3. simpl. lia.
  - right. specialize (B1 ltac:(discriminate)). lia.
Qed.

Lemma record_start_apart h n m :
  wf_header h ->
  record_start h n = record_start h m
  \/ record_start h n + 54 <= record_start h m
  \/ record_start h m + 54 <= record_start h n.
Proof.
  intro W. destruct (Nat.le_ge_cases n m) as [H | H].
  - destruct (record_start_le h n m W H); auto.
  - destruct (record_start_le h m n W H) as [E | E]; auto.
Qed.

(** *** One slot for every correction *)

Lemma fills_nothing r : fills [] false r.
Proof. split; [ reflexivity | exact I ]. Qed.

Lemma fills_seek_write o ds : fills [Fseek o; Fwrite ds] true (o, o + width ds).
Proof. split; [ reflexivity | exact I ]. Qed.

Lemma vlr_edit_fills h idx v :
  wf_header h ->
  let start := record_start h (Z.to_nat idx) + sub_offset (field_of v) in
  exists b, fills (vlr_edit h (idx, v)) b (start, start + field_width (field_of v)).
Proof.
  intros W start. unfold vlr_edit, edit_vlr, set_vlr_pos. cbn [fst snd].
  destruct (idx =? -1); [ exists false; apply fills_nothing |].
  destruct (Z.ltb_spec idx (Mach.to_I32 (number_of_variable_length_records h)))
    as [Hlt | Hge]; [| exists false; apply fills_nothing ].
  assert (Hlen : (Z.to_nat idx <= length (vlrs h))%nat).
  { pose proof (wf_nvlrs h W) as Hn.
    pose proof (wf_nvlrs_range h W) as Hr.
    unfold between, Mach.U32_MAX in Hr. unfold Mach.to_I32 in Hlt.
    destruct (Z.lt_ge_cases (number_of_variable_length_records h) (2 ^ 31)).
    - rewrite Z.mod_small in Hlt by lia. lia.
    - replace ((number_of_variable_length_records h + 2 ^ 31) mod 2 ^ 32)
        with (number_of_variable_length_records h - 2 ^ 31) in Hlt.
      + lia.
      + apply Z.mod_unique with (q := 1); lia. }
  rewrite LocatorFacts.walk_record_start by assumption. fold start.
  pose proof (record_start_ge h (Z.to_nat idx) W) as Hge.
  pose proof (wf_header_size h W) as Hs. unfold between in Hs.
  assert (Hne : (start =? -1) = false).
  { apply Z.eqb_neq. unfold start. destruct v; simpl; lia. }
  rewrite Hne. exists true.
  split; [| exact I ].
  destruct v as [str | id | str]; cbn [field_of field_width].
  - change 16%nat with (S 15). now rewrite padded_range.
  - reflexivity.
  - change 32%nat with (S 31). now rewrite padded_range.
Qed.

Lemma count_fills o h s :
  exists b, fills (fst (check_number_of_point_records o h s)) b (107, 111).
Proof.
  unfold check_number_of_point_records.
  destruct ((point_data_format h <? 6)
            && negb (sum_number_of_point_records s =? number_of_point_records h)).
  - destruct (repair_counters o); [| exists false; apply fills_nothing ].
    destruct (sum_number_of_point_records s <=? Mach.U32_MAX);
      [ exists true; apply fills_seek_write |].
    destruct (version_minor h <? 4); [ exists false; apply fills_nothing |].
    destruct (negb (number_of_point_records h =? 0));
      [ exists true; apply fills_seek_write | exists false; apply fills_nothing ].
  - destruct ((6 <=? point_data_format h) && negb (number_of_point_records h =? 0));
      [| exists false; apply fills_nothing ].
    destruct (repair_counters o);
      [ exists true; apply fills_seek_write | exists false; apply fills_nothing ].
Qed.

Lemma ext_count_fills o h s :
  exists b, fills (fst (check_extended_number_of_point_records o h s)) b (247, 255)
            /\ (b = true -> 3 < version_minor h).
Proof.
  unfold check_extended_number_of_point_records.
  destruct (Z.ltb_spec 3 (version_minor h)) as [Hm | Hm];
    [| exists false; split; [ apply fills_nothing | discriminate ] ].
  destruct (negb (sum_number_of_point_records s
                  =? Mach.to_I64 (extended_number_of_point_records h)));
    [| exists false; split; [ apply fills_nothing | discriminate ] ].
  destruct (repair_counters o);
    [ exists true; split; [ apply fills_seek_write | auto ]
    | exists false; split; [ apply fills_nothing | discriminate ] ].
Qed.

Lemma by_return_fills o stack h s :
  exists b, fills (fst (check_number_of_points_by_return o stack h s)) b (111, 131).
Proof.
  rewrite ReturnFacts.by_return_ops.
  destruct (repair_counters o && existsb (legacy_bucket_wrong h s) (seq 1 5));
    [| exists false; apply fills_nothing ].
  exists true. split; [| exact I ].
  rewrite range_seek_write, PatchFacts.width_DU32,
    ReturnFacts.by_return_fold_length.
  cbn [br_array]. rewrite ReturnFacts.uninitialized_length. reflexivity.
Qed.

Lemma ext_by_return_fills o h s :
  exists b, fills (fst (check_extended_number_of_points_by_return o h s)) b (255, 375)
            /\ (b = true -> 3 < version_minor h).
Proof.
  rewrite ReturnFacts.ext_by_return_ops.
  destruct (Z.ltb_spec 3 (version_minor h)) as [Hm | Hm]; cbn [andb];
    [| exists false; split; [ apply fills_nothing | discriminate ] ].
  destruct (repair_counters o && existsb (ext_bucket_wrong h s) (seq 1 15));
    [| exists false; split; [ apply fills_nothing | discriminate ] ].
  exists true. split; [| auto ]. split; [| exact I ].
  rewrite range_seek_write, PatchFacts.width_DI64,
    ReturnFacts.ext_by_return_fold_length.
  cbn [br_array]. rewrite repeat_length. reflexivity.
Qed.

Lemma bounding_box_fills o h s :
  exists b, fills (fst (check_bounding_box o h s)) b (179, 227).
Proof.
  rewrite HeaderFacts.bounding_box_ops.
  destruct (repair_bb o && box_wrong_entry h s);
    [ exists true | exists false; apply fills_nothing ].
  split; [ reflexivity | exact I ].
Qed.

Lemma fills_app a b ba ra flags rs :
  fills a ba ra ->
  map range_of (corrections b) = keep flags rs -> seek_led b ->
  map range_of (corrections (a ++ b)) = keep (ba :: flags) (ra :: rs)
  /\ seek_led (a ++ b).
Proof.
  intros [Ha Hsa] Hb Hsb.
  split; [| now apply PatchFacts.seek_led_app ].
  rewrite PatchFacts.corrections_app by assumption.
  rewrite map_app, Ha, Hb. symmetry. apply PatchFacts.keep_cons.
Qed.

End DisjointFacts.

(** C9, as amended. No two corrections of one pass share a byte: the
    edits of the user id, the record id and the description of variable
    length records, the legacy count at 107, the legacy counts by return
    at 111, the extended count at 247, the extended counts by return at
    255 and the six doubles of the bounding box at 179. It takes records
    that begin behind the header fields which the repairs write: the
    records are located in the header as it is found before the header
    edits are written, the repairs follow the version of the header that
    is parsed after them. *)
Theorem corrections_disjoint
    (e : Locator.vlr_edits) (o : Check.options) (stack : nat -> Z)
    (found h : LAS.LASheader) (s : LAS.LASsummary) :
  LAS.wf_header found ->
  Check.records_behind_repairs found h ->
  Patch.disjoint_ranges
    (map Patch.range_of (Check.all_corrections e o stack found h s)).
Proof.
  intros W [H227 H375].
  set (pu := Locator.record_start found (Z.to_nat (Locator.set_vlr_user_id_index e))).
  set (pr := Locator.record_start found (Z.to_nat (Locator.set_vlr_record_id_index e))).
  set (pd := Locator.record_start found (Z.to_nat (Locator.set_vlr_description_index e))).
  destruct (DisjointFacts.vlr_edit_fills found (Locator.set_vlr_user_id_index e)
              (Locator.NewUserId (Locator.set_vlr_user_id e)) W) as [b1 F1].
  destruct (DisjointFacts.vlr_edit_fills found (Locator.set_vlr_record_id_index e)
              (Locator.NewRecordId (Locator.set_vlr_record_id e)) W) as [b2 F2].
  destruct (DisjointFacts.vlr_edit_fills found (Locator.set_vlr_description_index e)
              (Locator.NewDescription (Locator.set_vlr_description e)) W) as [b3 F3].
  cbn [Locator.field_of Locator.sub_offset Locator.field_width] in F1, F2, F3.
  fold pu in F1. fold pr in F2. fold pd in F3.
  destruct (DisjointFacts.count_fills o h s) as [b4 F4].
  destruct (DisjointFacts.ext_count_fills o h s) as [b5 [F5 M5]].
  destruct (DisjointFacts.by_return_fills o stack h s) as [b6 F6].
  destruct (DisjointFacts.ext_by_return_fills o h s) as [b7 [F7 M7]].
  destruct (DisjointFacts.bounding_box_fills o h s) as [b8 F8].
  assert (Hedits :
    map Patch.range_of (Patch.corrections (Locator.vlr_edit_ops found e))
    = Patch.keep [b1; b2; b3]
        [(pu + 2, pu + 2 + 16); (pr + 18, pr + 18 + 2); (pd + 22, pd + 22 + 32)]).
  { unfold Locator.vlr_edit_ops.
    destruct F3 as [R3 S3].
    destruct (DisjointFacts.fills_app _ _ _ _ _ _ F2 R3 S3) as [R23 S23].
    destruct (DisjointFacts.fills_app _ _ _ _ _ _ F1 R23 S23) as [R123 _].
    exact R123. }
  assert (Hchecks :
    map Patch.range_of (Patch.corrections (fst (Check.check_header o stack h s)))
    = Patch.keep [b4; b5; b6; b7; b8]
        [(107, 111); (247, 255); (111, 131); (255, 375); (179, 227)]).
  { rewrite HeaderFacts.check_header_ops.
    destruct F8 as [R8 S8].
    destruct (DisjointFacts.fills_app _ _ _ _ _ _ F7 R8 S8) as [R78 S78].
    destruct (DisjointFacts.fills_app _ _ _ _ _ _ F6 R78 S78) as [R678 S678].
    destruct (DisjointFacts.fills_app _ _ _ _ _ _ F5 R678 S678) as [R5678 S5678].
    destruct (DisjointFacts.fills_app _ _ _ _ _ _ F4 R5678 S5678) as [R45678 _].
    exact R45678. }
  assert (Hall :
    map Patch.range_of (Check.all_corrections e o stack found h s)
    = Patch.keep [b1; b2; b3; b4; b5; b6; b7; b8]
        [(pu + 2, pu + 2 + 16); (pr + 18, pr + 18 + 2); (pd + 22, pd + 22 + 32);
         (107, 111); (247, 255); (111, 131); (255, 375); (179, 227)]).
  { unfold Check.all_corrections. rewrite map_app, Hedits, Hchecks.
    destruct b1, b2, b3; reflexivity. }
  rewrite Hall. unfold Patch.disjoint_ranges. apply PatchFacts.keep_pairs.
  pose proof (DisjointFacts.record_start_ge found
                (Z.to_nat (Locator.set_vlr_user_id_index e)) W) as Gu.
  pose proof (DisjointFacts.record_start_ge found
                (Z.to_nat (Locator.set_vlr_record_id_index e)) W) as Gr.
  pose proof (DisjointFacts.record_start_ge found
                (Z.to_nat (Locator.set_vlr_description_index e)) W) as Gd.
  pose proof (DisjointFacts.record_start_apart found
                (Z.to_nat (Locator.set_vlr_user_id_index e))
                (Z.to_nat (Locator.set_vlr_record_id_index e)) W) as Aur.
  pose proof (DisjointFacts.record_start_apart found
                (Z.to_nat (Locator.set_vlr_user_id_index e))
                (Z.to_nat (Locator.set_vlr_description_index e)) W) as Aud.
  pose proof (DisjointFacts.record_start_apart found
                (Z.to_nat (Locator.set_vlr_record_id_index e))
                (Z.to_nat (Locator.set_vlr_description_index e)) W) as Ard.
  fold pu in Gu, Aur, Aud. fold pr in Gr, Aur, Ard. fold pd in Gd, Aud, Ard.
  cbn [combine].
  repeat (constructor; [ repeat constructor |]); try constructor;
    cbn [fst snd]; intros T1 T2;
    try (specialize (M5 T1)); try (specialize (M5 T2));
    try (specialize (M7 T1)); try (specialize (M7 T2));
    apply PatchFacts.not_shares_byte; lia.
Qed.

Lemma corrections_disjoint_witness :
  map Patch.range_of
    (Check.all_corrections Samples.three_edits Samples.repair_all
       Samples.zero_stack Samples.header_3_vlrs Samples.header_3_vlrs
       Samples.summary_95)
  = [(229, 245); (309, 311); (367, 399); (107, 111); (111, 131)]
  /\ Patch.disjoint_ranges
       (map Patch.range_of
          (Check.all_corrections Samples.three_edits Samples.repair_all
             Samples.zero_stack Samples.header_3_vlrs Samples.header_3_vlrs
             Samples.summary_95)).
Proof.
  split.
  - vm_compute. reflexivity.
  - apply corrections_disjoint.
    + exact SamplesFacts.header_3_vlrs_wf.
    + split; simpl; lia.
Defined.

(** C9, as the claim has it, fails. A LAS 1.2 file holds three records
    behind a header of 227 bytes; the options are [-set_version 1.4],
    [-set_header_size 375], [-set_number_of_variable_length_records 0],
    [-set_vlr_description 0 hi] and the repair. The description of record
    0 is located in the header as it is found, at 227 + 22, and written to
    the bytes 249 to 280. The reader of the pass parses a header of
    version 1.4 from the edited file, and the repair writes the extended
    count to the bytes 247 to 254 and the extended counts by return to the
    bytes 255 to 374. *)
Lemma vlr_edit_overlaps_repair :
  let f0 := Samples.file_of_header Samples.header_3_vlrs in
  let found := LAS.read_header f0 in
  let edited :=
    Bytes.run_ops
      (Edit.edit_ops (MoreSamples.clamp 255) (MoreSamples.clamp 65535)
         (MoreSamples.clamp 4294967295) found MoreSamples.version_edits
         MoreSamples.description_edit) f0 in
  let h := LAS.read_header edited in
  let ranges :=
    map Patch.range_of
      (Check.all_corrections MoreSamples.description_edit Samples.repair_all
         Samples.zero_stack found h Samples.summary_95) in
  (LAS.version_minor found, LAS.header_size found) = (2, 227)
  /\ (LAS.version_minor h, LAS.header_size h) = (4, 375)
  /\ ranges = [(249, 281); (107, 111); (247, 255); (111, 131); (255, 375)]
  /\ Patch.shares_byte (249, 281) (247, 255)
  /\ Patch.shares_byte (249, 281) (255, 375)
  /\ ~ Patch.disjoint_ranges ranges.
Proof.
  intros f0 found edited h ranges.
  assert (R : ranges
              = [(249, 281); (107, 111); (247, 255); (111, 131); (255, 375)])
    by (vm_compute; reflexivity).
  assert (S : Patch.shares_byte (249, 281) (247, 255))
    by (exists 250; split; reflexivity).
  split; [ vm_compute; reflexivity |].
  split; [ vm_compute; reflexivity |].
  split; [ exact R |].
  split; [ exact S |].
  split; [ exists 260; split; reflexivity |].
  rewrite R. intro D. inversion D as [| r l F _]; subst.
  inversion F as [| r1 l1 _ F1]; subst.
  inversion F1 as [| r2 l2 N _]; subst.
  exact (N S).
Qed.

(** ** The bytes of the patched file *)

Module FileFacts.
Import Patch Bytes.

Lemma store_other f o bs a :
  a < o \/ o + Z.of_nat (length bs) <= a -> store f o bs a = f a.
Proof.
  intro H. unfold store.
  destruct (Z.leb_spec o a); destruct (Z.ltb_spec a (o + Z.of_nat (length bs)));
    cbn [andb]; try reflexivity; lia.
Qed.

Lemma store_in f o bs a :
  o <= a < o + Z.of_nat (length bs) ->
  store f o bs a = nth (Z.to_nat (a - o)) bs 0.
Proof.
  intro H. unfold store.
  destruct (Z.leb_spec o a); destruct (Z.ltb_spec a (o + Z.of_nat (length bs)));
    cbn [andb]; try reflexivity; lia.
Qed.

Lemma le_bytes_length n v : length (le_bytes n v) = n.
Proof. revert v. induction n; intro v; simpl; auto. Qed.

Lemma datum_bytes_length d : Z.of_nat (length (datum_bytes d)) = sizeof d.
Proof. destruct d; simpl; rewrite ?le_bytes_length; reflexivity. Qed.

Lemma data_bytes_length ds : Z.of_nat (length (data_bytes ds)) = width ds.
Proof.
  induction ds as [| d ds IH]; [ reflexivity |].
  unfold data_bytes in *. cbn [flat_map].
  rewrite length_app, Nat2Z.inj_add, IH, datum_bytes_length.
  now rewrite PatchFacts.width_cons.
Qed.

(** A sequence of calls that starts with a seek does not depend on the
    position the calls before it left. *)
Lemma exec_seek_led ops p q f :
  seek_led ops -> snd (fold_left exec ops (p, f)) = snd (fold_left exec ops (q, f)).
Proof.
  destruct ops as [| [o | ds] ops]; simpl; intro H; [ reflexivity | reflexivity |].
  destruct H.
Qed.

Lemma run_ops_app a b f :
  seek_led b -> run_ops (a ++ b) f = run_ops b (run_ops a f).
Proof.
  intro H. unfold run_ops. rewrite fold_left_app.
  destruct (fold_left exec a (0, f)) as [p g]. cbn [snd].
  now apply exec_seek_led.
Qed.

Lemma width_nonneg ds : 0 <= width ds.
Proof.
  induction ds as [| d ds IH]; [ unfold width; simpl; lia |].
  rewrite PatchFacts.width_cons. destruct d; cbn [sizeof]; lia.
Qed.

(** The correction that is open when calls follow is still there at the
    end, at the same offset and at least as wide. *)
Lemma open_correction_stays ops k c :
  cur_open k = Some c ->
  exists c', In c' (flush (fold_left step ops k))
             /\ c_offset c' = c_offset c
             /\ c_width c <= c_width c'.
Proof.
  revert k c. induction ops as [| op ops IH]; intros k c Hk.
  - exists c. cbn [fold_left]. unfold flush. rewrite Hk.
    split; [ apply in_or_app; right; simpl; auto | split; lia ].
  - cbn [fold_left]. destruct op as [o | ds].
    + exists c. split; [| split; lia ].
      cbn [step]. rewrite PatchFacts.fold_step_done, PatchFacts.flush_done.
      apply in_or_app. left. unfold flush. rewrite Hk.
      apply in_or_app; right; simpl; auto.
    + cbn [step]. rewrite Hk.
      destruct (IH (mkCursor (cur_pos k + width ds)
                      (Some (mkCorrection (c_offset c) (c_data c ++ ds)))
                      (cur_done k))
                   (mkCorrection (c_offset c) (c_data c ++ ds)) eq_refl)
        as [c' [Hin [Ho Hw]]].
      exists c'. split; [ exact Hin |]. split; [ exact Ho |].
      unfold c_width in *. cbn [c_data] in Hw.
      rewrite PatchFacts.width_app in Hw.
      pose proof (width_nonneg ds). lia.
Qed.

(** A byte outside the ranges of all corrections keeps its value. *)
Lemma exec_frame ops k st a :
  cur_pos k = fst st ->
  (forall c, cur_open k = Some c -> c_offset c + c_width c = cur_pos k) ->
  (forall c, In c (flush (fold_left step ops k)) -> in_range a (range_of c) = false) ->
  snd (fold_left exec ops st) a = snd st a.
Proof.
  revert k st. induction ops as [| op ops IH]; intros k st Hpos Hopen Hout.
  - reflexivity.
  - cbn [fold_left] in *. destruct op as [o | ds].
    + rewrite (IH (step k (Fseek o)) (exec st (Fseek o))); auto.
      cbn. intros c Hc. discriminate.
    + rewrite (IH (step k (Fwrite ds)) (exec st (Fwrite ds))); auto.
      * cbn [exec snd]. apply store_other.
        rewrite data_bytes_length.
        set (c0 := match cur_open k with
                   | Some c => mkCorrection (c_offset c) (c_data c ++ ds)
                   | None => mkCorrection (cur_pos k) ds
                   end).
        destruct (open_correction_stays ops (step k (Fwrite ds)) c0 eq_refl)
          as [c' [Hin [Ho Hw]]].
        specialize (Hout c' Hin). unfold in_range, range_of in Hout.
        cbn [fst snd] in Hout.
        assert (Hc0 : c_offset c0 <= fst st
                      /\ fst st + width ds = c_offset c0 + c_width c0).
        { unfold c0. destruct (cur_open k) as [c |] eqn:E.
          - specialize (Hopen c eq_refl). unfold c_width in *. cbn [c_offset c_data].
            rewrite PatchFacts.width_app. pose proof (width_nonneg (c_data c)). lia.
          - unfold c_width. cbn [c_offset c_data]. lia. }
        apply andb_false_iff in Hout.
        rewrite Z.leb_gt, Z.ltb_ge in Hout. lia.
      * cbn [step exec cur_pos fst]. lia.
      * cbn [step cur_open cur_pos]. intros c Hc. inversion Hc; subst c; clear Hc.
        unfold c_width. cbn [c_offset c_data].
        destruct (cur_open k) as [c |] eqn:E; cbn [c_offset c_data].
        -- specialize (Hopen c eq_refl). unfold c_width in Hopen.
           rewrite PatchFacts.width_app. lia.
        -- lia.
Qed.

Lemma run_ops_frame ops f a :
  written ops a = false -> run_ops ops f a = f a.
Proof.
  intro H. unfold run_ops.
  apply (exec_frame ops (mkCursor 0 None []) (0, f) a); auto.
  - cbn. discriminate.
  - intros c Hc. unfold written, corrections in H.
    destruct (in_range a (range_of c)) eqn:E; [| reflexivity ].
    assert (X : existsb (fun c => in_range a (range_of c))
                  (flush (fold_left step ops (mkCursor 0 None []))) = true)
      by (apply existsb_exists; exists c; auto).
    congruence.
Qed.

(** What is written lies in the slot of the check. *)
Lemma fills_written ops b r a :
  fills ops b r -> written ops a = true -> b = true /\ in_range a r = true.
Proof.
  intros [Hr _] Hw. unfold written in Hw.
  rewrite existsb_exists in Hw. destruct Hw as [c [Hin Ha]].
  assert (Hin' : In (range_of c) (map range_of (corrections ops)))
    by now apply in_map.
  rewrite Hr in Hin'. destruct b; simpl in Hin'; [| destruct Hin' ].
  destruct Hin' as [E | []]. split; [ reflexivity |]. now rewrite E.
Qed.

Lemma fills_frame ops b r f a :
  fills ops b r -> in_range a r = false -> run_ops ops f a = f a.
Proof.
  intros F Ha. apply run_ops_frame.
  destruct (written ops a) eqn:E; [| reflexivity ].
  destruct (fills_written ops b r a F E). congruence.
Qed.

(** Little-endian round trip. *)
Lemma le_value_bytes bs :
  Forall (fun b => 0 <= b < 256) bs ->
  le_bytes (length bs) (le_value bs) = bs.
Proof.
  induction 1 as [| b bs Hb Hbs IH]; [ reflexivity |].
  cbn [length le_bytes le_value].
  replace ((b + 256 * le_value bs) mod 256) with b.
  - replace ((b + 256 * le_value bs) / 256) with (le_value bs); [ now rewrite IH |].
    rewrite (Z.mul_comm 256), Z.div_add, Z.div_small by lia. lia.
  - rewrite (Z.mul_comm 256), Z.mod_add by lia.
    symmetry. apply Z.mod_small. lia.
Qed.

Lemma le_value_range bs :
  Forall (fun b => 0 <= b < 256) bs ->
  0 <= le_value bs < 256 ^ Z.of_nat (length bs).
Proof.
  induction 1 as [| b bs Hb Hbs IH]; [ simpl; lia |].
  cbn [length le_value]. rewrite Nat2Z.inj_succ, Z.pow_succ_r by lia. lia.
Qed.

Lemma read_bytes_length f o n : length (read_bytes f o n) = n.
Proof. revert o. induction n; intro o; simpl; auto. Qed.

Lemma read_bytes_range f o n :
  byte_file f -> Forall (fun b => 0 <= b < 256) (read_bytes f o n).
Proof.
  intro B. revert o. induction n; intro o; simpl; constructor; auto.
Qed.

Lemma read_bytes_nth f o n k :
  (k < n)%nat -> nth k (read_bytes f o n) 0 = f (o + Z.of_nat k).
Proof.
  revert o k. induction n as [| n IH]; intros o k H; [ lia |].
  destruct k as [| k]; simpl read_bytes; cbn [nth].
  - f_equal. lia.
  - rewrite IH by lia. f_equal. lia.
Qed.

(** Writing back what was read leaves the bytes as they are. *)
Lemma write_back f o n k :
  byte_file f -> (k < n)%nat ->
  nth k (le_bytes n (read_uint f o n)) 0 = f (o + Z.of_nat k).
Proof.
  intros B H. unfold read_uint.
  rewrite <- (read_bytes_length f o n) at 1.
  rewrite le_value_bytes by now apply read_bytes_range.
  now apply read_bytes_nth.
Qed.

End FileFacts.

(** ** Blocks of counters in the repaired file *)

Module BlockFacts.
Import LAS Patch Bytes Check.

Lemma data_bytes_DU32 l : data_bytes (map DU32 l) = flat_map (le_bytes 4) l.
Proof.
  induction l as [| x l IH]; [ reflexivity |].
  unfold data_bytes in *. cbn [map flat_map datum_bytes]. now rewrite IH.
Qed.

Lemma data_bytes_DI64 l : data_bytes (map DI64 l) = flat_map (le_bytes 8) l.
Proof.
  induction l as [| x l IH]; [ reflexivity |].
  unfold data_bytes in *. cbn [map flat_map datum_bytes]. now rewrite IH.
Qed.

(** Byte [r] of chunk [k] of a sequence of chunks of [n] bytes each. *)
Lemma chunk_nth (g : Z -> list Z) n l k r :
  (forall x, length (g x) = n) ->
  (r < n)%nat -> (k < length l)%nat ->
  nth (k * n + r) (flat_map g l) 0 = nth r (g (nth k l 0)) 0.
Proof.
  intros Hg Hr. revert k. induction l as [| x l IH]; intros k Hk; [ simpl in Hk; lia |].
  cbn [flat_map]. destruct k as [| k].
  - cbn [Nat.mul Nat.add nth]. apply app_nth1. now rewrite Hg.
  - rewrite app_nth2; rewrite Hg; [| lia ].
    replace (S k * n + r - n)%nat with (k * n + r)%nat by lia.
    cbn [nth]. apply IH. simpl in Hk. lia.
Qed.

Lemma read_uints_length f o size n : length (read_uints f o size n) = n.
Proof. revert o. induction n; intro o; simpl; auto. Qed.

Lemma read_uints_nth f o size n k :
  (k < n)%nat ->
  nth k (read_uints f o size n) 0
  = read_uint f (o + Z.of_nat k * Z.of_nat size) size.
Proof.
  revert o k. induction n as [| n IH]; intros o k H; [ lia |].
  destruct k as [| k]; cbn [read_uints nth].
  - f_equal. lia.
  - rewrite IH by lia. f_equal. lia.
Qed.

Lemma read_uint_range f o n :
  byte_file f -> 0 <= read_uint f o n < 256 ^ Z.of_nat n.
Proof.
  intro B. unfold read_uint.
  pose proof (FileFacts.le_value_range _ (FileFacts.read_bytes_range f o n B)) as R.
  now rewrite FileFacts.read_bytes_length in R.
Qed.

(** The low [n] bytes depend on the value modulo 256^n only. *)
Lemma le_bytes_mod n v : le_bytes n (v mod 256 ^ Z.of_nat n) = le_bytes n v.
Proof.
  revert v. induction n as [| n IH]; intro v; [ reflexivity |].
  cbn [le_bytes]. rewrite Nat2Z.inj_succ, Z.pow_succ_r by lia.
  assert (P : 0 < 256 ^ Z.of_nat n) by (apply Z.pow_pos_nonneg; lia).
  rewrite Z.rem_mul_r by lia.
  f_equal.
  - rewrite (Z.mul_comm 256), Z.mod_add by lia. apply Z.mod_mod. lia.
  - rewrite <- (IH (v / 256)). f_equal.
    rewrite (Z.mul_comm 256), Z.div_add by lia.
    rewrite Z.div_small by (apply Z.mod_pos_bound; lia). lia.
Qed.

Lemma le_bytes_to_I64 v : le_bytes 8 (Mach.to_I64 v) = le_bytes 8 v.
Proof.
  rewrite <- (le_bytes_mod 8 (Mach.to_I64 v)), <- (le_bytes_mod 8 v).
  f_equal. unfold Mach.to_I64.
  change (256 ^ Z.of_nat 8) with (2 ^ 64).
  rewrite Zminus_mod_idemp_l. f_equal. lia.
Qed.

(** The file after the repair, one check after the other. *)
Lemma repaired_file_steps o stack h s f :
  repaired_file o stack h s f
  = run_ops (fst (check_bounding_box o h s))
      (run_ops (fst (check_extended_number_of_points_by_return o h s))
         (run_ops (fst (check_number_of_points_by_return o stack h s))
            (run_ops (fst (check_extended_number_of_point_records o h s))
               (run_ops (fst (check_number_of_point_records o h s)) f)))).
Proof.
  unfold repaired_file. rewrite HeaderFacts.check_header_ops.
  destruct (DisjointFacts.count_fills o h s) as [b1 [_ S1]].
  destruct (DisjointFacts.ext_count_fills o h s) as [b2 [[_ S2] _]].
  destruct (DisjointFacts.by_return_fills o stack h s) as [b3 [_ S3]].
  destruct (DisjointFacts.ext_by_return_fills o h s) as [b4 [[_ S4] _]].
  destruct (DisjointFacts.bounding_box_fills o h s) as [b5 [_ S5]].
  rewrite !FileFacts.run_ops_app; auto using PatchFacts.seek_led_app.
Qed.

(** A byte outside the five fields keeps its value. *)
Lemma repaired_file_frame o stack h s f a :
  a < 107 \/ 131 <= a < 179 \/ 227 <= a < 247 \/ 375 <= a ->
  repaired_file o stack h s f a = f a.
Proof.
  intro H. rewrite repaired_file_steps.
  destruct (DisjointFacts.count_fills o h s) as [b1 F1].
  destruct (DisjointFacts.ext_count_fills o h s) as [b2 [F2 _]].
  destruct (DisjointFacts.by_return_fills o stack h s) as [b3 F3].
  destruct (DisjointFacts.ext_by_return_fills o h s) as [b4 [F4 _]].
  destruct (DisjointFacts.bounding_box_fills o h s) as [b5 F5].
  rewrite (FileFacts.fills_frame _ _ _ _ a F5),
    (FileFacts.fills_frame _ _ _ _ a F4),
    (FileFacts.fills_frame _ _ _ _ a F3),
    (FileFacts.fills_frame _ _ _ _ a F2),
    (FileFacts.fills_frame _ _ _ _ a F1);
    try reflexivity;
    unfold in_range; cbn [fst snd]; apply andb_false_iff;
    rewrite Z.leb_gt, Z.ltb_ge; lia.
Qed.

End BlockFacts.

Module BucketFacts.
Import LAS Patch Bytes Check.

Lemma run_seek_write o ds g :
  run_ops [Fseek o; Fwrite ds] g = store g o (data_bytes ds).
Proof. reflexivity. Qed.

Lemma out_of_slot a lo hi : a < lo \/ hi <= a -> in_range a (lo, hi) = false.
Proof.
  intro H. unfold in_range. cbn [fst snd]. apply andb_false_iff.
  rewrite Z.leb_gt, Z.ltb_ge. lia.
Qed.

(** In a file of format below 6, the four bytes of a legacy count by
    return that agrees with the summary are the same after the repair. *)
Lemma legacy_bucket_kept o stack s f j a :
  byte_file f ->
  point_data_format (read_header f) < 6 ->
  (1 <= j <= 5)%nat ->
  nth (j - 1) (number_of_points_by_return (read_header f)) 0
  = nth j (sum_number_of_points_by_return s) 0 ->
  111 + 4 * (Z.of_nat j - 1) <= a < 111 + 4 * Z.of_nat j ->
  repaired_file o stack (read_header f) s f a = f a.
Proof.
  intros B Hfmt Hj Heq Ha.
  set (h := read_header f) in *.
  rewrite BlockFacts.repaired_file_steps.
  destruct (DisjointFacts.count_fills o h s) as [b1 F1].
  destruct (DisjointFacts.ext_count_fills o h s) as [b2 [F2 _]].
  destruct (DisjointFacts.ext_by_return_fills o h s) as [b4 [F4 _]].
  destruct (DisjointFacts.bounding_box_fills o h s) as [b5 F5].
  rewrite (FileFacts.fills_frame _ _ _ _ a F5) by (apply out_of_slot; lia).
  rewrite (FileFacts.fills_frame _ _ _ _ a F4) by (apply out_of_slot; lia).
  rewrite ReturnFacts.by_return_ops.
  destruct (repair_counters o && existsb (legacy_bucket_wrong h s) (seq 1 5)).
  - rewrite run_seek_write.
    set (arr := br_array (fold_left (by_return_step o h s) (seq 1 5)
                            (mkByReturn (uninitialized stack 5) false []))).
    assert (Hlen : length arr = 5%nat).
    { unfold arr. rewrite ReturnFacts.by_return_fold_length. cbn [br_array].
      apply ReturnFacts.uninitialized_length. }
    rewrite FileFacts.store_in
      by (rewrite FileFacts.data_bytes_length, PatchFacts.width_DU32, Hlen; lia).
    rewrite BlockFacts.data_bytes_DU32.
    set (r := Z.to_nat (a - 111 - 4 * (Z.of_nat j - 1))).
    replace (Z.to_nat (a - 111)) with ((j - 1) * 4 + r)%nat by (unfold r; lia).
    rewrite (BlockFacts.chunk_nth (le_bytes 4) 4)
      by (try (intro; apply FileFacts.le_bytes_length); unfold r; lia).
    assert (Hcell : nth (j - 1) arr 0
                    = read_uint f (111 + Z.of_nat (j - 1) * Z.of_nat 4) 4).
    { unfold arr.
      rewrite (ReturnFacts.by_return_fold_cell o h s (seq 1 5) _ (j - 1) 0).
      - replace (S (j - 1)) with j by lia.
        unfold legacy_bucket_value.
        replace (nth (j - 1) (number_of_points_by_return h) 0
                 =? nth j (sum_number_of_points_by_return s) 0) with true
          by (symmetry; apply Z.eqb_eq; exact Heq).
        assert (Hf : (6 <=? point_data_format h) = false) by (apply Z.leb_gt; lia).
        rewrite Hf. cbn [negb andb]. rewrite andb_false_r.
        rewrite <- Heq.
        unfold h, read_header. cbn [number_of_points_by_return].
        rewrite BlockFacts.read_uints_nth by lia.
        apply MachFacts.to_U32_id.
        pose proof (BlockFacts.read_uint_range f
                      (111 + Z.of_nat (j - 1) * Z.of_nat 4) 4 B) as R.
        change (256 ^ Z.of_nat 4) with 4294967296 in R.
        unfold Mach.U32_MAX. lia.
      - apply ReturnFacts.seq_1_positive.
      - apply seq_NoDup.
      - apply in_seq. lia.
      - cbn [br_array]. rewrite ReturnFacts.uninitialized_length. lia. }
    rewrite Hcell, FileFacts.write_back by (auto; unfold r; lia).
    f_equal. unfold r. lia.
  - change (run_ops [] ?g) with g.
    rewrite (FileFacts.fills_frame _ _ _ _ a F2) by (apply out_of_slot; lia).
    rewrite (FileFacts.fills_frame _ _ _ _ a F1) by (apply out_of_slot; lia).
    reflexivity.
Qed.

(** The eight bytes of an extended count by return that agrees with the
    summary are the same after the repair. *)
Lemma extended_bucket_kept o stack s f j a :
  byte_file f ->
  (1 <= j <= 15)%nat ->
  ext_bucket_wrong (read_header f) s j = false ->
  255 + 8 * (Z.of_nat j - 1) <= a < 255 + 8 * Z.of_nat j ->
  repaired_file o stack (read_header f) s f a = f a.
Proof.
  intros B Hj Heq Ha.
  set (h := read_header f) in *.
  rewrite BlockFacts.repaired_file_steps.
  destruct (DisjointFacts.count_fills o h s) as [b1 F1].
  destruct (DisjointFacts.ext_count_fills o h s) as [b2 [F2 _]].
  destruct (DisjointFacts.by_return_fills o stack h s) as [b3 F3].
  destruct (DisjointFacts.bounding_box_fills o h s) as [b5 F5].
  rewrite (FileFacts.fills_frame _ _ _ _ a F5) by (apply out_of_slot; lia).
  rewrite ReturnFacts.ext_by_return_ops.
  destruct (Z.ltb_spec 3 (version_minor h)) as [Hm | Hm]; cbn [andb].
  2: { change (run_ops [] ?g) with g.
       rewrite (FileFacts.fills_frame _ _ _ _ a F3) by (apply out_of_slot; lia).
       rewrite (FileFacts.fills_frame _ _ _ _ a F2) by (apply out_of_slot; lia).
       rewrite (FileFacts.fills_frame _ _ _ _ a F1) by (apply out_of_slot; lia).
       reflexivity. }
  destruct (repair_counters o && existsb (ext_bucket_wrong h s) (seq 1 15)).
  - rewrite run_seek_write.
    set (arr := br_array (fold_left (ext_by_return_step o h s) (seq 1 15)
                            (mkByReturn (repeat 0 15) false []))).
    assert (Hlen : length arr = 15%nat).
    { unfold arr. rewrite ReturnFacts.ext_by_return_fold_length. cbn [br_array].
      apply repeat_length. }
    rewrite FileFacts.store_in
      by (rewrite FileFacts.data_bytes_length, PatchFacts.width_DI64, Hlen; lia).
    rewrite BlockFacts.data_bytes_DI64.
    set (r := Z.to_nat (a - 255 - 8 * (Z.of_nat j - 1))).
    replace (Z.to_nat (a - (235 + 20))) with ((j - 1) * 8 + r)%nat by (unfold r; lia).
    rewrite (BlockFacts.chunk_nth (le_bytes 8) 8)
      by (try (intro; apply FileFacts.le_bytes_length); unfold r; lia).
    assert (Hcell : le_bytes 8 (nth (j - 1) arr 0)
                    = le_bytes 8 (read_uint f (255 + Z.of_nat (j - 1) * Z.of_nat 8) 8)).
    { unfold arr.
      rewrite (ReturnFacts.ext_by_return_fold_cell o h s (seq 1 15) _ (j - 1) 0).
      - replace (S (j - 1)) with j by lia.
        unfold ext_bucket_wrong in Heq. apply negb_false_iff, Z.eqb_eq in Heq.
        rewrite <- Heq, BlockFacts.le_bytes_to_I64.
        unfold h, read_header. cbn [extended_number_of_points_by_return].
        fold h.
        assert (H4 : (4 <=? Bytes.read_uint f 25 1) = true).
        { apply Z.leb_le. unfold h, read_header in Hm. cbn [version_minor] in Hm. lia. }
        rewrite H4, BlockFacts.read_uints_nth by lia. reflexivity.
      - apply ReturnFacts.seq_1_positive.
      - apply seq_NoDup.
      - apply in_seq. lia.
      - cbn [br_array]. rewrite repeat_length. lia. }
    rewrite Hcell, FileFacts.write_back by (auto; unfold r; lia).
    f_equal. unfold r. lia.
  - change (run_ops [] ?g) with g.
    rewrite (FileFacts.fills_frame _ _ _ _ a F3) by (apply out_of_slot; lia).
    rewrite (FileFacts.fills_frame _ _ _ _ a F2) by (apply out_of_slot; lia).
    rewrite (FileFacts.fills_frame _ _ _ _ a F1) by (apply out_of_slot; lia).
    reflexivity.
Qed.

End BucketFacts.

Module SampleFileFacts.
Import LAS Patch Bytes Check Samples.

Lemma le_bytes_range n v : Forall (fun b => 0 <= b < 256) (le_bytes n v).
Proof.
  revert v. induction n as [| n IH]; intro v; simpl; constructor; auto.
  apply Z.mod_pos_bound. lia.
Qed.

Lemma data_bytes_range ds : Forall (fun b => 0 <= b < 256) (data_bytes ds).
Proof.
  induction ds as [| d ds IH]; [ constructor |].
  unfold data_bytes in *. cbn [flat_map]. apply Forall_app. split; auto.
  destruct d; apply le_bytes_range.
Qed.

Lemma store_byte_file f o bs :
  byte_file f -> Forall (fun b => 0 <= b < 256) bs -> byte_file (store f o bs).
Proof.
  intros B H a. unfold store.
  destruct ((o <=? a) && (a <? o + Z.of_nat (length bs))); [| apply B ].
  destruct (Nat.lt_ge_cases (Z.to_nat (a - o)) (length bs)) as [L | L].
  - rewrite Forall_forall in H. apply H. now apply nth_In.
  - rewrite nth_overflow by assumption. lia.
Qed.

(** The calls write bytes. *)
Lemma exec_byte_file ops st :
  byte_file (snd st) -> byte_file (snd (fold_left exec ops st)).
Proof.
  revert st. induction ops as [| op ops IH]; intros st B; [ exact B |].
  cbn [fold_left]. apply IH. destruct op as [o | ds]; cbn [exec snd]; auto.
  apply store_byte_file; auto using data_bytes_range.
Qed.

Lemma run_ops_byte_file ops f : byte_file f -> byte_file (run_ops ops f).
Proof. intro B. unfold run_ops. now apply exec_byte_file. Qed.

Lemma file_of_header_bytes h : byte_file (file_of_header h).
Proof. apply run_ops_byte_file. intro a. unfold empty_file. lia. Qed.

Lemma read_header_12 : read_header (file_of_header header_12) = header_12.
Proof. vm_compute. reflexivity. Qed.

Lemma read_header_stale : read_header (file_of_header header_stale) = header_stale.
Proof. vm_compute. reflexivity. Qed.

End SampleFileFacts.

(** C8, as amended. The repair changes bytes of the five header fields it
    checks only: every byte before 107, between the counts by return and
    the bounding box, between the bounding box and the extended count,
    and from 375 on keeps its value. The counts by return are not written
    bucket by bucket: when repair of the counters is on and the loop of
    the family sets [wrong_entry] at some bucket, the block of the family
    is written whole, 20 bytes at 111 for the legacy counts and 120 bytes
    at 255 for the extended ones (in a header of version minor above 3),
    and else nothing of the family is written. In a file of format below
    6 a legacy bucket that agrees with the summary is written with the
    value it has, so that its four bytes stay as they are; the same holds
    for the eight bytes of an extended bucket. A legacy bucket sets
    [wrong_entry] in two cases: the format is below 6, the header count
    differs from the summary's, and the summary's count is at most
    4294967295 or else the version minor is at least 4 and the header
    count is not zero; or the format is at least 6 and the header count
    is not zero. An extended bucket sets it when the header count differs
    from the summary's. So a legacy bucket that differs from the summary
    and cannot be repaired, its count above 4294967295 in a header of
    version minor below 4, does not have the block written: in a file of
    format below 6 and version minor below 4 where every legacy bucket
    agrees with the summary or has a count above 4294967295, nothing is
    written to the legacy counts. *)
Theorem repair_writes_whole_blocks
    (o : Check.options) (stack : nat -> Z) (s : LAS.LASsummary) (f : Bytes.file) :
  let h := LAS.read_header f in
  let after := Check.repaired_file o stack h s f in
  Bytes.byte_file f ->
  (forall a, a < 107 \/ 131 <= a < 179 \/ 227 <= a < 247 \/ 375 <= a ->
             after a = f a)
  /\ map Patch.range_of
       (Patch.corrections (fst (Check.check_number_of_points_by_return o stack h s)))
     = (if Check.repair_counters o
           && existsb (Check.legacy_bucket_wrong h s) (seq 1 5)
        then [(111, 131)] else [])
  /\ map Patch.range_of
       (Patch.corrections
          (fst (Check.check_extended_number_of_points_by_return o h s)))
     = (if (3 <? LAS.version_minor h) && Check.repair_counters o
           && existsb (Check.ext_bucket_wrong h s) (seq 1 15)
        then [(255, 375)] else [])
  /\ (LAS.point_data_format h < 6 ->
      forall j a, (1 <= j <= 5)%nat ->
        nth (j - 1) (LAS.number_of_points_by_return h) 0
        = nth j (LAS.sum_number_of_points_by_return s) 0 ->
        111 + 4 * (Z.of_nat j - 1) <= a < 111 + 4 * Z.of_nat j ->
        after a = f a)
  /\ (forall j a, (1 <= j <= 15)%nat ->
        Check.ext_bucket_wrong h s j = false ->
        255 + 8 * (Z.of_nat j - 1) <= a < 255 + 8 * Z.of_nat j ->
        after a = f a)
  /\ (forall j,
        let hdr := nth (j - 1) (LAS.number_of_points_by_return h) 0 in
        let real := nth j (LAS.sum_number_of_points_by_return s) 0 in
        Check.legacy_bucket_wrong h s j = true
        <-> (LAS.point_data_format h < 6 /\ hdr <> real
             /\ (real <= Mach.U32_MAX
                 \/ (4 <= LAS.version_minor h /\ hdr <> 0)))
            \/ (6 <= LAS.point_data_format h /\ hdr <> 0))
  /\ (forall j,
        Check.ext_bucket_wrong h s j = true
        <-> Mach.to_I64
              (nth (j - 1) (LAS.extended_number_of_points_by_return h) 0)
            <> nth j (LAS.sum_number_of_points_by_return s) 0)
  /\ (LAS.point_data_format h < 6 -> LAS.version_minor h < 4 ->
      (forall j, In j (seq 1 5) ->
         nth (j - 1) (LAS.number_of_points_by_return h) 0
         = nth j (LAS.sum_number_of_points_by_return s) 0
         \/ Mach.U32_MAX < nth j (LAS.sum_number_of_points_by_return s) 0) ->
      fst (Check.check_number_of_points_by_return o stack h s) = []).
Proof.
  intros h after B.
  assert (W : forall j,
            Check.legacy_bucket_wrong h s j = true
            <-> (LAS.point_data_format h < 6
                 /\ nth (j - 1) (LAS.number_of_points_by_return h) 0
                    <> nth j (LAS.sum_number_of_points_by_return s) 0
                 /\ (nth j (LAS.sum_number_of_points_by_return s) 0 <= Mach.U32_MAX
                     \/ (4 <= LAS.version_minor h
                         /\ nth (j - 1) (LAS.number_of_points_by_return h) 0 <> 0)))
                \/ (6 <= LAS.point_data_format h
                    /\ nth (j - 1) (LAS.number_of_points_by_return h) 0 <> 0)).
  { intro j. unfold Check.legacy_bucket_wrong.
    destruct (Z.ltb_spec (LAS.point_data_format h) 6) as [F | F];
      destruct (Z.eqb_spec (nth (j - 1) (LAS.number_of_points_by_return h) 0)
                  (nth j (LAS.sum_number_of_points_by_return s) 0)) as [E | E];
      destruct (Z.leb_spec (nth j (LAS.sum_number_of_points_by_return s) 0)
                  Mach.U32_MAX) as [U | U];
      destruct (Z.ltb_spec (LAS.version_minor h) 4) as [V | V];
      destruct (Z.eqb_spec (nth (j - 1) (LAS.number_of_points_by_return h) 0) 0)
        as [Z0 | Z0];
      destruct (Z.leb_spec 6 (LAS.point_data_format h)) as [G | G];
      cbn [andb orb negb];
      (split; [ intro T; try discriminate T; try lia | intro T; try reflexivity; lia ]). }
  split; [ intros a Ha; now apply BlockFacts.repaired_file_frame |].
  split.
  { rewrite ReturnFacts.by_return_ops.
    destruct (Check.repair_counters o
              && existsb (Check.legacy_bucket_wrong h s) (seq 1 5));
      [| reflexivity ].
    rewrite DisjointFacts.range_seek_write, PatchFacts.width_DU32,
      ReturnFacts.by_return_fold_length.
    cbn [Check.br_array]. now rewrite ReturnFacts.uninitialized_length. }
  split.
  { rewrite ReturnFacts.ext_by_return_ops.
    destruct ((3 <? LAS.version_minor h) && Check.repair_counters o
              && existsb (Check.ext_bucket_wrong h s) (seq 1 15));
      [| reflexivity ].
    rewrite DisjointFacts.range_seek_write, PatchFacts.width_DI64,
      ReturnFacts.ext_by_return_fold_length.
    cbn [Check.br_array]. now rewrite repeat_length. }
  split.
  { intros Hfmt j a Hj Heq Ha.
    now apply (BucketFacts.legacy_bucket_kept o stack s f j a). }
  split.
  { intros j a Hj Heq Ha.
    now apply (BucketFacts.extended_bucket_kept o stack s f j a). }
  split; [ exact W |].
  split.
  { intro j. unfold Check.ext_bucket_wrong.
    rewrite negb_true_iff. apply Z.eqb_neq. }
  intros Hfmt Hminor Hall.
  rewrite ReturnFacts.by_return_ops.
  rewrite (HeaderFacts.existsb_false (Check.legacy_bucket_wrong h s));
    [ now rewrite andb_false_r |].
  intros j Hj. apply not_true_is_false. intro T. apply W in T.
  destruct (Hall j Hj); lia.
Qed.

Lemma repair_writes_whole_blocks_witness :
  Check.repaired_file Samples.repair_all Samples.zero_stack
    (LAS.read_header (Samples.file_of_header Samples.header_12))
    Samples.summary_97 (Samples.file_of_header Samples.header_12) 115
  = Samples.file_of_header Samples.header_12 115.
Proof.
  destruct (repair_writes_whole_blocks Samples.repair_all Samples.zero_stack
              Samples.summary_97 (Samples.file_of_header Samples.header_12)
              (SampleFileFacts.file_of_header_bytes Samples.header_12))
    as [_ [_ [_ [H _]]]].
  refine (H _ 2%nat 115 _ _ _).
  - vm_compute. reflexivity.
  - lia.
  - vm_compute. reflexivity.
  - lia.
Defined.

(** C8, as the claim has it, fails: the header count of the second
    returns (40) agrees with the summary, and yet the repair of the first
    returns writes the four bytes of the second ones, 115 to 118, too. *)
Lemma correct_bucket_is_written :
  nth 1 (LAS.number_of_points_by_return Samples.header_12) 0
  = nth 2 (LAS.sum_number_of_points_by_return Samples.summary_97) 0
  /\ Patch.corrections
       (fst (Check.check_number_of_points_by_return Samples.repair_all
               Samples.zero_stack Samples.header_12 Samples.summary_97))
     = [Patch.mkCorrection 111
          [Patch.DU32 57; Patch.DU32 40; Patch.DU32 0; Patch.DU32 0; Patch.DU32 0]]
  /\ forallb
       (Patch.written
          (fst (Check.check_number_of_points_by_return Samples.repair_all
                  Samples.zero_stack Samples.header_12 Samples.summary_97)))
       [115; 116; 117; 118] = true.
Proof. repeat split; vm_compute; reflexivity. Qed.

(** C3 fails on a file of format 6 with a stale legacy count by return:
    the first repair zeroes the first legacy bucket and puts the count of
    the second returns (38) into the second bucket, which was zero as it
    has to be; checked against the repaired header, the repair writes the
    block again, and a third time after that, with what the first repair
    wrote. *)
Theorem repair_not_idempotent_format_6 :
  let f0 := Samples.file_of_header Samples.header_stale in
  let repair f :=
    Check.check_header Samples.repair_all Samples.zero_stack
      (LAS.read_header f) Samples.summary_95 in
  let f1 := Bytes.run_ops (fst (repair f0)) f0 in
  let f2 := Bytes.run_ops (fst (repair f1)) f1 in
  Patch.corrections (fst (repair f0))
  = [Patch.mkCorrection 111
       [Patch.DU32 0; Patch.DU32 38; Patch.DU32 0; Patch.DU32 0; Patch.DU32 0]]
  /\ Patch.corrections (fst (repair f1))
     = [Patch.mkCorrection 111
          [Patch.DU32 57; Patch.DU32 0; Patch.DU32 0; Patch.DU32 0; Patch.DU32 0]]
  /\ Patch.corrections (fst (repair f2))
     = [Patch.mkCorrection 111
          [Patch.DU32 0; Patch.DU32 38; Patch.DU32 0; Patch.DU32 0; Patch.DU32 0]].
Proof. repeat split; vm_compute; reflexivity. Qed.

(** ** The bounding box *)

Module BoxFacts.
Import LAS Patch Check.

Lemma box_wrong_entry_spec h s :
  box_wrong_entry h s
  = existsb (fun p => F64_neq (fst p) (snd p))
      (combine (real_box h s) (header_box h)).
Proof.
  unfold box_wrong_entry, real_box, header_box. cbn [combine existsb fst snd].
  destruct (F64_neq (get_x h (max_X s)) (max_x h)),
    (F64_neq (get_x h (min_X s)) (min_x h)),
    (F64_neq (get_y h (max_Y s)) (max_y h)),
    (F64_neq (get_y h (min_Y s)) (min_y h)),
    (F64_neq (get_z h (max_Z s)) (max_z h)),
    (F64_neq (get_z h (min_Z s)) (min_z h)); reflexivity.
Qed.

Lemma box_corrections o h s :
  corrections (fst (check_bounding_box o h s))
  = if repair_bb o && box_wrong_entry h s
    then [mkCorrection 179 (map DF64 (real_box h s))]
    else [].
Proof.
  rewrite HeaderFacts.bounding_box_ops.
  destruct (repair_bb o && box_wrong_entry h s); reflexivity.
Qed.

(** Equality of doubles by [==] against equality of the doubles. *)
Lemma SFeqb_eq x y :
  SFeqb x y = true ->
  x = y \/ (exists s1 s2, x = S754_zero s1 /\ y = S754_zero s2).
Proof.
  unfold SFeqb, SFcompare.
  destruct x as [s1 | s1 | | s1 m1 e1], y as [s2 | s2 | | s2 m2 e2];
    try destruct s1; try destruct s2; try discriminate;
    try (intros _; right; eexists; eexists; split; reflexivity);
    try (intros _; left; reflexivity).
  - destruct (Z.compare_spec e1 e2) as [E | E | E]; try discriminate.
    destruct (Pos.compare_cont Eq m1 m2) eqn:C; try discriminate.
    intros _. left. apply Pos.compare_eq in C. subst. reflexivity.
  - destruct (Z.compare_spec e1 e2) as [E | E | E]; try discriminate.
    destruct (Pos.compare_cont Eq m1 m2) eqn:C; try discriminate.
    intros _. left. apply Pos.compare_eq in C. subst. reflexivity.
Qed.

Lemma SFeqb_refl x : x <> S754_nan -> SFeqb x x = true.
Proof.
  unfold SFeqb, SFcompare.
  destruct x as [s | s | | s m e]; try congruence; intros _;
    destruct s; try reflexivity;
    rewrite Z.compare_refl;
    change (Pos.compare_cont Eq m m) with (Pos.compare m m);
    now rewrite Pos.compare_refl.
Qed.

(** Away from NaN and from pairs of zeros, [!=] tells whether two doubles
    are different doubles. *)
Lemma F64_neq_differ a b :
  is_nan a = false -> is_nan b = false -> is_zero a && is_zero b = false ->
  (F64_neq a b = true <-> a <> b).
Proof.
  unfold F64_neq, is_nan, is_zero. intros Na Nb Z.
  rewrite eqb_spec, negb_true_iff. split.
  - intros H E. subst b. rewrite SFeqb_refl in H; [ discriminate |].
    intro N. rewrite N in Na. discriminate.
  - intro Hne. destruct (SFeqb (Prim2SF a) (Prim2SF b)) eqn:E; [| reflexivity ].
    exfalso. destruct (SFeqb_eq _ _ E) as [H | [s1 [s2 [H1 H2]]]].
    + apply Hne. now apply Prim2SF_inj.
    + rewrite H1, H2 in Z. discriminate.
Qed.

End BoxFacts.

(** C2, as amended. The check recomputes the six extrema as
    offset + integer extremum * scale factor. With repair of the box on,
    each is compared with the double of the header by [!=], which takes
    no tolerance, holds a negative and a positive zero equal and a NaN
    different from every double; away from these two cases it tells
    whether the two are different doubles. If one of the six comparisons
    holds, the six recomputed doubles are written as one correction of 48
    bytes at offset 179, and else nothing is written. With repair of the
    box off nothing is written, and with the warnings on a line is
    reported for exactly those maxima that lie above the maximum of the
    header plus a quarter of the scale factor and those minima that lie
    below the minimum of the header minus a quarter of the scale factor. *)
Theorem bounding_box_check
    (o : Check.options) (h : LAS.LASheader) (s : LAS.LASsummary) :
  let out := Check.check_bounding_box o h s in
  let warn := negb (Check.no_warnings o) && Check.file_out o in
  Check.real_box h s
  = [(LAS.x_offset h + LAS.F64_of_int (LAS.max_X s) * LAS.x_scale_factor h)%float;
     (LAS.x_offset h + LAS.F64_of_int (LAS.min_X s) * LAS.x_scale_factor h)%float;
     (LAS.y_offset h + LAS.F64_of_int (LAS.max_Y s) * LAS.y_scale_factor h)%float;
     (LAS.y_offset h + LAS.F64_of_int (LAS.min_Y s) * LAS.y_scale_factor h)%float;
     (LAS.z_offset h + LAS.F64_of_int (LAS.max_Z s) * LAS.z_scale_factor h)%float;
     (LAS.z_offset h + LAS.F64_of_int (LAS.min_Z s) * LAS.z_scale_factor h)%float]
  /\ (forall a b,
        Check.is_nan a = false -> Check.is_nan b = false ->
        Check.is_zero a && Check.is_zero b = false ->
        (Check.F64_neq a b = true <-> a <> b))
  /\ (Check.repair_bb o = true ->
      Patch.corrections (fst out)
      = (if existsb (fun p => Check.F64_neq (fst p) (snd p))
              (combine (Check.real_box h s) (Check.header_box h))
         then [Patch.mkCorrection 179 (map Patch.DF64 (Check.real_box h s))]
         else [])
      /\ Forall (fun c => Patch.c_width c = 48) (Patch.corrections (fst out)))
  /\ (Check.repair_bb o = false ->
      fst out = []
      /\ snd out
         = Check.say
             ((LAS.max_x h + 0.25 * LAS.x_scale_factor h
               <? LAS.get_x h (LAS.max_X s))%float && warn)
             (Check.RealMaxLarger Check.AxisX
                (LAS.get_x h (LAS.max_X s) - LAS.max_x h)%float)
           ++ Check.say
                ((LAS.get_x h (LAS.min_X s)
                  <? LAS.min_x h - 0.25 * LAS.x_scale_factor h)%float && warn)
                (Check.RealMinSmaller Check.AxisX
                   (LAS.min_x h - LAS.get_x h (LAS.min_X s))%float)
           ++ Check.say
                ((LAS.max_y h + 0.25 * LAS.y_scale_factor h
                  <? LAS.get_y h (LAS.max_Y s))%float && warn)
                (Check.RealMaxLarger Check.AxisY
                   (LAS.get_y h (LAS.max_Y s) - LAS.max_y h)%float)
           ++ Check.say
                ((LAS.get_y h (LAS.min_Y s)
                  <? LAS.min_y h - 0.25 * LAS.y_scale_factor h)%float && warn)
                (Check.RealMinSmaller Check.AxisY
                   (LAS.min_y h - LAS.get_y h (LAS.min_Y s))%float)
           ++ Check.say
                ((LAS.max_z h + 0.25 * LAS.z_scale_factor h
                  <? LAS.get_z h (LAS.max_Z s))%float && warn)
                (Check.RealMaxLarger Check.AxisZ
                   (LAS.get_z h (LAS.max_Z s) - LAS.max_z h)%float)
           ++ Check.say
                ((LAS.get_z h (LAS.min_Z s)
                  <? LAS.min_z h - 0.25 * LAS.z_scale_factor h)%float && warn)
                (Check.RealMinSmaller Check.AxisZ
                   (LAS.min_z h - LAS.get_z h (LAS.min_Z s))%float)).
Proof.
  intros out warn.
  split; [ reflexivity |].
  split; [ exact BoxFacts.F64_neq_differ |].
  split.
  - intro R. unfold out. rewrite BoxFacts.box_corrections, R.
    rewrite <- BoxFacts.box_wrong_entry_spec. cbn [andb].
    split; [ reflexivity |].
    destruct (Check.box_wrong_entry h s); repeat constructor.
  - intro R. unfold out, Check.check_bounding_box. rewrite R.
    split; reflexivity.
Qed.

Lemma bounding_box_check_witness :
  Patch.corrections
    (fst (Check.check_bounding_box Samples.repair_all Samples.header_12
            Samples.summary_97)) = []
  /\ (Check.F64_neq 10 20 = true <-> 10%float <> 20%float).
Proof.
  destruct (bounding_box_check Samples.repair_all Samples.header_12
              Samples.summary_97) as [_ [Hneq [Hrep _]]].
  split.
  - destruct (Hrep eq_refl) as [H _]. exact H.
  - apply Hneq; reflexivity.
Defined.

(** C2, as the claim has it, fails: the header holds the maximum -0.0 of
    x, the recomputed maximum is +0.0; the two differ in their sign bit,
    and yet the repair of the box writes nothing. *)
Lemma negative_zero_not_repaired :
  Bytes.bits_of_F64 (LAS.max_x Samples.header_origin) = 2 ^ 63
  /\ Bytes.bits_of_F64
       (LAS.get_x Samples.header_origin (LAS.max_X Samples.summary_origin)) = 0
  /\ Check.spec_box_wrong_entry Samples.header_origin Samples.summary_origin = true
  /\ Check.box_wrong_entry Samples.header_origin Samples.summary_origin = false
  /\ fst (Check.check_header Samples.repair_all Samples.zero_stack
            Samples.header_origin Samples.summary_origin) = [].
Proof. repeat split; vm_compute; reflexivity. Qed.

(** ** The enlarged box of the check-only mode

    [header maximum + 0.25 * scale factor] is not below the header maximum,
    and [header minimum - 0.25 * scale factor] not above the header
    minimum, when the scale factor is not negative: proved from the
    rounding of [SpecFloat]. *)

Module RoundFacts.

(** The exponent of the format for a number of [e] binary digits. *)
Lemma fexp_64 e : fexp prec emax e = Z.max (e - 53) (-1074).
Proof. reflexivity. Qed.

(** *** Binary digits *)

Lemma digits2_pos_bounds m :
  2 ^ (Z.pos (digits2_pos m) - 1) <= Z.pos m < 2 ^ Z.pos (digits2_pos m).
Proof.
  induction m as [m IH | m IH |]; cbn [digits2_pos].
  - rewrite Pos2Z.inj_succ.
    replace (Z.succ (Z.pos (digits2_pos m)) - 1) with (Z.succ (Z.pos (digits2_pos m) - 1)) by lia.
    rewrite !Z.pow_succ_r by lia. lia.
  - rewrite Pos2Z.inj_succ.
    replace (Z.succ (Z.pos (digits2_pos m)) - 1) with (Z.succ (Z.pos (digits2_pos m) - 1)) by lia.
    rewrite !Z.pow_succ_r by lia. lia.
  - simpl. lia.
Qed.

Lemma Zdigits2_bounds m :
  0 < m -> 2 ^ (Zdigits2 m - 1) <= m < 2 ^ Zdigits2 m.
Proof.
  destruct m as [| p | p]; try lia. intros _. apply digits2_pos_bounds.
Qed.

Lemma Zdigits2_pos m : 0 < m -> 0 < Zdigits2 m.
Proof. destruct m; simpl; lia. Qed.

(** A number below 2^k has at most k digits; a number from 2^k on has
    more than k. *)
Lemma Zdigits2_le m k : 0 < m -> m < 2 ^ k -> Zdigits2 m <= k.
Proof.
  intros Hm Hk. pose proof (Zdigits2_bounds m Hm) as [L _].
  destruct (Z.le_gt_cases (Zdigits2 m) k) as [H | H]; [ exact H |].
  exfalso.
  assert (0 <= k).
  { destruct (Z.le_gt_cases 0 k); [ assumption |].
    rewrite Z.pow_neg_r in Hk by lia. lia. }
  assert (2 ^ k <= 2 ^ (Zdigits2 m - 1)) by (apply Z.pow_le_mono_r; lia).
  lia.
Qed.

Lemma Zdigits2_gt m k : 0 <= k -> 2 ^ k <= m -> k < Zdigits2 m.
Proof.
  intros Hk Hm.
  assert (0 < m) by (pose proof (Z.pow_pos_nonneg 2 k); lia).
  pose proof (Zdigits2_bounds m H) as [_ U].
  destruct (Z.le_gt_cases (Zdigits2 m) k) as [C | C]; [| exact C ].
  exfalso.
  assert (2 ^ Zdigits2 m <= 2 ^ k)
    by (apply Z.pow_le_mono_r; pose proof (Zdigits2_pos m H); lia).
  lia.
Qed.

(** *** Shifting to the right *)

Lemma pow2_pos k : 0 <= k -> 0 < 2 ^ k.
Proof. intro; apply Z.pow_pos_nonneg; lia. Qed.

Ltac pow_side :=
  first [ lia
        | apply Z.pow_nonzero; lia
        | apply pow2_pos; lia
        | match goal with |- ?a <> 0 => assert (0 < a) by (apply pow2_pos; lia); lia end ].

Lemma shr_1_m mrs : 0 <= shr_m mrs -> shr_m (shr_1 mrs) = shr_m mrs / 2.
Proof.
  destruct mrs as [m r s]. cbn [shr_m]. intro H.
  destruct m as [| [p | p |] | p]; cbn [shr_1 shr_m]; try lia.
  - reflexivity.
  - rewrite Pos2Z.inj_xI. symmetry.
    rewrite Z.add_comm, Z.mul_comm, Z.div_add by lia. reflexivity.
  - rewrite Pos2Z.inj_xO. symmetry. rewrite Z.mul_comm, Z.div_mul; lia.
  - reflexivity.
Qed.

Lemma iter_shr_1_m p mrs :
  0 <= shr_m mrs ->
  shr_m (iter_pos shr_1 p mrs) = shr_m mrs / 2 ^ Z.pos p.
Proof.
  revert mrs. induction p as [p IH | p IH |]; intros mrs H; cbn [iter_pos].
  - assert (H1 : 0 <= shr_m (shr_1 mrs))
      by (rewrite shr_1_m by assumption; apply Z.div_pos; lia).
    assert (H2 : 0 <= shr_m (iter_pos shr_1 p (shr_1 mrs)))
      by (rewrite IH by assumption; apply Z.div_pos; [ lia | apply Z.pow_pos_nonneg; lia ]).
    rewrite IH, IH, shr_1_m by assumption.
    rewrite !Z.div_div by pow_side.
    replace (Z.pos p~1) with (1 + Z.pos p + Z.pos p) by lia.
    rewrite !Z.pow_add_r by lia. change (2 ^ 1) with 2.
    now rewrite Z.mul_assoc.
  - assert (H2 : 0 <= shr_m (iter_pos shr_1 p mrs))
      by (rewrite IH by assumption; apply Z.div_pos; [ lia | apply Z.pow_pos_nonneg; lia ]).
    rewrite IH, IH by assumption.
    rewrite Z.div_div by pow_side.
    replace (Z.pos p~0) with (Z.pos p + Z.pos p) by lia.
    now rewrite Z.pow_add_r by lia.
  - rewrite shr_1_m by assumption. reflexivity.
Qed.

Lemma shr_spec mrs e n :
  0 <= shr_m mrs ->
  shr_m (fst (shr mrs e n)) = (if 0 <? n then shr_m mrs / 2 ^ n else shr_m mrs)
  /\ snd (shr mrs e n) = (if 0 <? n then e + n else e).
Proof.
  intro H. destruct n as [| p | p]; cbn [shr fst snd Z.ltb Z.compare].
  - split; reflexivity.
  - split; [ now apply iter_shr_1_m | reflexivity ].
  - split; reflexivity.
Qed.

Lemma round_nearest_even_bounds m l :
  m <= round_nearest_even m l <= m + 1.
Proof.
  destruct l as [| [ | | ]]; cbn [round_nearest_even]; try lia.
  destruct (Z.even m); lia.
Qed.

End RoundFacts.


Module RoundAuxFacts.
Import Round RoundFacts.

Lemma div_pow2_0 m : m / 2 ^ 0 = m.
Proof. change (2 ^ 0) with 1. apply Z.div_1_r. Qed.

Lemma round_aux_spec s m e :
  0 < m ->
  e <= fexp prec emax (Zdigits2 m + e) ->
  exists m1,
    m / 2 ^ (fexp prec emax (Zdigits2 m + e) - e) <= m1
      <= m / 2 ^ (fexp prec emax (Zdigits2 m + e) - e) + 1
    /\ m1 <= 2 ^ 53
    /\ binary_round_aux prec emax s m e loc_Exact
       = pack s m1 (fexp prec emax (Zdigits2 m + e)).
Proof.
  intros Hm He.
  set (f0 := fexp prec emax (Zdigits2 m + e)) in *.
  set (n := f0 - e).
  assert (Hn : 0 <= n) by (unfold n; lia).
  unfold binary_round_aux, shr_fexp. fold f0. fold n.
  cbn [shr_record_of_loc].
  pose proof (shr_spec (shr_record_of_loc m loc_Exact) e n) as S1.
  cbn [shr_record_of_loc shr_m] in S1. specialize (S1 ltac:(lia)).
  destruct (shr {| shr_m := m; shr_r := false; shr_s := false |} e n)
    as [mrs1 e1] eqn:E1.
  cbn [fst snd] in S1. destruct S1 as [Sq Se].
  assert (Hq : shr_m mrs1 = m / 2 ^ n).
  { rewrite Sq. destruct (Z.ltb_spec 0 n); [ reflexivity |].
    replace n with 0 by lia. now rewrite div_pow2_0. }
  assert (He1 : e1 = f0).
  { rewrite Se. destruct (Z.ltb_spec 0 n); unfold n in *; lia. }
  clear Sq Se. subst e1.
  set (q := m / 2 ^ n) in *.
  assert (Hq0 : 0 <= q) by (apply Z.div_pos; [ lia | apply pow2_pos; lia ]).
  assert (Hq53 : q < 2 ^ 53).
  { apply Z.div_lt_upper_bound; [ apply pow2_pos; lia |].
    pose proof (Zdigits2_bounds m Hm) as [_ U].
    pose proof (Zdigits2_pos m Hm) as Dp.
    rewrite <- Z.pow_add_r by lia.
    assert (Zdigits2 m <= n + 53).
    { unfold n, f0. rewrite fexp_64. lia. }
    assert (2 ^ Zdigits2 m <= 2 ^ (n + 53)) by (apply Z.pow_le_mono_r; lia).
    lia. }
  pose proof (round_nearest_even_bounds (shr_m mrs1) (loc_of_shr_record mrs1)) as B.
  remember (round_nearest_even (shr_m mrs1) (loc_of_shr_record mrs1)) as m1 eqn:Em1.
  rewrite Hq in B.
  exists m1. split; [ exact B |]. split; [ lia |].
  assert (Hf0 : -1074 <= f0) by (unfold f0; rewrite fexp_64; lia).
  unfold pack.
  destruct (Z.eqb_spec m1 0) as [Z0 | NZ].
  - (* the mantissa is rounded to zero *)
    rewrite Z0. cbn [Zdigits2].
    pose proof (shr_spec {| shr_m := 0; shr_r := false; shr_s := false |} f0
                  (fexp prec emax (0 + f0) - f0)) as S2.
    cbn [shr_m] in S2. specialize (S2 ltac:(lia)).
    destruct (shr {| shr_m := 0; shr_r := false; shr_s := false |} f0
                (fexp prec emax (0 + f0) - f0)) as [mrs2 e2].
    cbn [fst snd] in S2. destruct S2 as [S2 _].
    assert (shr_m mrs2 = 0).
    { rewrite S2.
      destruct (Z.ltb_spec 0 (fexp prec emax (0 + f0) - f0)) as [P | P];
        [| reflexivity ].
      rewrite fexp_64 in P. lia. }
    now rewrite H.
  - assert (Hm1 : 0 < m1) by lia.
    pose proof (Zdigits2_pos m1 Hm1) as D1.
    destruct (Z.ltb_spec m1 (2 ^ 53)) as [Lt | Ge].
    + (* no renormalization *)
      pose proof (Zdigits2_le m1 53 Hm1 Lt) as D53.
      assert (Hn2 : fexp prec emax (Zdigits2 m1 + f0) - f0 <= 0)
        by (rewrite fexp_64; lia).
      pose proof (shr_spec (shr_record_of_loc m1 loc_Exact) f0
                    (fexp prec emax (Zdigits2 m1 + f0) - f0)) as S2.
      cbn [shr_record_of_loc shr_m] in *. specialize (S2 ltac:(lia)).
      destruct (shr {| shr_m := m1; shr_r := false; shr_s := false |} f0
                  (fexp prec emax (Zdigits2 m1 + f0) - f0)) as [mrs2 e2].
      cbn [fst snd] in S2. destruct S2 as [S2m S2e].
      assert (Lz : (0 <? fexp prec emax (Zdigits2 m1 + f0) - f0) = false)
        by (apply Z.ltb_ge; lia).
      rewrite Lz in S2m, S2e. rewrite S2m, S2e.
      unfold fin_or_inf. destruct m1; try lia. reflexivity.
    + (* the mantissa has reached 2^53 *)
      assert (E53 : m1 = 2 ^ 53) by lia.
      rewrite E53.
      assert (Hn2 : fexp prec emax (Zdigits2 (2 ^ 53) + f0) - f0 = 1).
      { rewrite fexp_64. change (Zdigits2 (2 ^ 53)) with 54. lia. }
      rewrite Hn2. cbn [shr_record_of_loc].
      change (shr {| shr_m := 2 ^ 53; shr_r := false; shr_s := false |} f0 1)
        with ({| shr_m := 2 ^ 52; shr_r := false; shr_s := false |}, f0 + 1).
      cbn [shr_m]. reflexivity.
Qed.

End RoundAuxFacts.


Module RoundBoundFacts.
Import Round RoundFacts RoundAuxFacts.

Lemma digits_iter_xO m d :
  Z.pos (digits2_pos (Pos.iter xO m d)) = Z.pos (digits2_pos m) + Z.pos d.
Proof.
  induction d as [| d IH] using Pos.peano_ind.
  - cbn. lia.
  - rewrite Pos.iter_succ. cbn [digits2_pos]. rewrite Pos2Z.inj_succ, IH. lia.
Qed.

Lemma binary_round_spec s m e :
  exists m1,
    0 <= m1 <= 2 ^ 53
    /\ (e <= fexp prec emax (Z.pos (digits2_pos m) + e) ->
        Z.pos m / 2 ^ (fexp prec emax (Z.pos (digits2_pos m) + e) - e) <= m1
          <= Z.pos m / 2 ^ (fexp prec emax (Z.pos (digits2_pos m) + e) - e) + 1)
    /\ binary_round prec emax s m e
       = pack s m1 (fexp prec emax (Z.pos (digits2_pos m) + e)).
Proof.
  set (f0 := fexp prec emax (Z.pos (digits2_pos m) + e)).
  destruct (Z.le_gt_cases e f0) as [C | C].
  - assert (S : binary_round prec emax s m e
                = binary_round_aux prec emax s (Z.pos m) e loc_Exact).
    { unfold binary_round, shl_align. fold f0.
      destruct (f0 - e) eqn:D; try reflexivity. lia. }
    destruct (round_aux_spec s (Z.pos m) e ltac:(lia) C) as [m1 [B [U R]]].
    cbn [Zdigits2] in B, R. fold f0 in B, R.
    assert (0 <= Z.pos m / 2 ^ (f0 - e))
      by (apply Z.div_pos; [ lia | apply pow2_pos; lia ]).
    exists m1. split; [ lia |]. split; [ intros _; exact B |].
    rewrite S. exact R.
  - unfold binary_round, shl_align. fold f0.
    destruct (f0 - e) as [| d | d] eqn:D; try lia.
    assert (F : fexp prec emax (Zdigits2 (Z.pos (Pos.iter xO m d)) + f0) = f0).
    { cbn [Zdigits2]. rewrite digits_iter_xO.
      replace (Z.pos (digits2_pos m) + Z.pos d + f0)
        with (Z.pos (digits2_pos m) + e) by lia.
      reflexivity. }
    destruct (round_aux_spec s (Z.pos (Pos.iter xO m d)) f0 ltac:(lia))
      as [m1 [B [U R]]]; [ rewrite F; lia |].
    rewrite F in B, R. rewrite Z.sub_diag in B.
    change (2 ^ 0) with 1 in B. rewrite Z.div_1_r in B.
    exists m1. split; [ lia |]. split; [ intro; lia | exact R ].
Qed.

(** What [bounded] says about a mantissa and its exponent. *)
Lemma bounded_facts m e :
  bounded prec emax m e = true ->
  Z.pos (digits2_pos m) <= 53
  /\ -1074 <= e <= 971
  /\ (Z.pos (digits2_pos m) = 53 \/ e = -1074)
  /\ fexp prec emax (Z.pos (digits2_pos m) + e) = e.
Proof.
  unfold bounded, canonical_mantissa. intro H.
  apply andb_true_iff in H. destruct H as [C E].
  apply Z.eqb_eq in C. apply Z.leb_le in E.
  change (emax - prec) with 971 in E.
  pose proof C as C'. rewrite fexp_64 in C'. lia.
Qed.

(** Rounding a magnitude that is at least a double gives at least that
    double. *)
Lemma round_above s m e mx ex :
  bounded prec emax mx ex = true ->
  e <= ex ->
  Z.pos mx * 2 ^ (ex - e) <= Z.pos m ->
  binary_round prec emax s m e = S754_infinity s
  \/ exists m' e',
       binary_round prec emax s m e = S754_finite s m' e'
       /\ (ex < e' \/ (ex = e' /\ (mx <= m')%positive)).
Proof.
  intros Hb He Hm.
  destruct (bounded_facts mx ex Hb) as [Dx [Ex [Nx Fx]]].
  pose proof (digits2_pos_bounds mx) as [Lx Ux].
  pose proof (digits2_pos_bounds m) as [Lm Um].
  set (d := Z.pos (digits2_pos m)) in *.
  set (dx := Z.pos (digits2_pos mx)) in *.
  assert (Hd : dx + (ex - e) <= d).
  { assert (2 ^ (dx - 1 + (ex - e)) <= Z.pos m).
    { rewrite Z.pow_add_r by lia.
      pose proof (pow2_pos (ex - e) ltac:(lia)). nia. }
    pose proof (Zdigits2_gt (Z.pos m) (dx - 1 + (ex - e)) ltac:(lia) H).
    cbn [Zdigits2] in H0. fold d in H0. lia. }
  destruct (binary_round_spec s m e) as [m1 [U [B R]]].
  fold d in B, R.
  set (f0 := fexp prec emax (d + e)) in *.
  assert (Hf : ex <= f0) by (unfold f0; rewrite fexp_64; rewrite fexp_64 in Fx; lia).
  specialize (B ltac:(lia)).
  assert (P : 0 < 2 ^ (f0 - e)) by (apply pow2_pos; lia).
  assert (Hq : 1 <= Z.pos m / 2 ^ (f0 - e)
               /\ (f0 = ex -> Z.pos mx <= Z.pos m / 2 ^ (f0 - e))).
  { split.
    - apply Z.div_le_lower_bound; [ lia |].
      destruct (Z.eq_dec f0 ex) as [E | E].
      + rewrite E. pose proof (pow2_pos (ex - e) ltac:(lia)). nia.
      + assert (f0 = d + e - 53) by (unfold f0 in *; rewrite fexp_64 in *; lia).
        replace (f0 - e) with (d - 53) by lia.
        assert (2 ^ (d - 53) <= 2 ^ (d - 1)) by (apply Z.pow_le_mono_r; lia).
        lia.
    - intro E. apply Z.div_le_lower_bound; [ lia |]. rewrite E. lia. }
  destruct Hq as [Hq1 Hqx].
  rewrite R. unfold pack.
  destruct (Z.eqb_spec m1 0); [ lia |].
  destruct (Z.ltb_spec m1 (2 ^ 53)).
  - unfold fin_or_inf. destruct m1 as [| p | p]; try lia.
    destruct (f0 <=? 971); [| now left ].
    right. exists p, f0. split; [ reflexivity |].
    destruct (Z.eq_dec f0 ex) as [E | E]; [ right | left; lia ].
    split; [ lia |]. specialize (Hqx E). lia.
  - unfold fin_or_inf. change (2 ^ 52) with (Z.pos 4503599627370496).
    cbv iota beta.
    destruct (f0 + 1 <=? 971); [| now left ].
    right. exists 4503599627370496%positive, (f0 + 1).
    split; [ reflexivity | left; lia ].
Qed.

(** Rounding a magnitude that is below a double gives at most that
    double. *)
Lemma round_below s m e mx ex :
  bounded prec emax mx ex = true ->
  e <= ex ->
  Z.pos m < Z.pos mx * 2 ^ (ex - e) ->
  binary_round prec emax s m e = S754_zero s
  \/ exists m' e',
       binary_round prec emax s m e = S754_finite s m' e'
       /\ (e' < ex \/ (e' = ex /\ (m' <= mx)%positive)).
Proof.
  intros Hb He Hm.
  destruct (bounded_facts mx ex Hb) as [Dx [Ex [Nx Fx]]].
  pose proof (digits2_pos_bounds mx) as [Lx Ux].
  pose proof (digits2_pos_bounds m) as [Lm Um].
  set (d := Z.pos (digits2_pos m)) in *.
  set (dx := Z.pos (digits2_pos mx)) in *.
  assert (Hd : d <= dx + (ex - e)).
  { assert (Z.pos m < 2 ^ (dx + (ex - e))).
    { rewrite Z.pow_add_r by lia.
      pose proof (pow2_pos (ex - e) ltac:(lia)). nia. }
    pose proof (Zdigits2_le (Z.pos m) (dx + (ex - e)) ltac:(lia) H).
    cbn [Zdigits2] in H0. fold d in H0. lia. }
  destruct (binary_round_spec s m e) as [m1 [U [B R]]].
  fold d in B, R.
  set (f0 := fexp prec emax (d + e)) in *.
  assert (Hf : f0 <= ex) by (unfold f0; rewrite fexp_64; rewrite fexp_64 in Fx; lia).
  assert (Hf0 : -1074 <= f0) by (unfold f0; rewrite fexp_64; lia).
  assert (Hmx : Z.pos mx < 2 ^ 53).
  { assert (2 ^ dx <= 2 ^ 53) by (apply Z.pow_le_mono_r; lia). lia. }
  rewrite R. unfold pack.
  destruct (Z.eqb_spec m1 0); [ now left |].
  destruct (Z.ltb_spec m1 (2 ^ 53)).
  - unfold fin_or_inf. destruct m1 as [| p | p].
    + lia.
    + replace (f0 <=? 971) with true by (symmetry; apply Z.leb_le; lia).
      right. exists p, f0. split; [ reflexivity |].
      destruct (Z.eq_dec f0 ex) as [E | E]; [ right | left; lia ].
      split; [ exact E |].
      specialize (B ltac:(lia)).
      assert (Z.pos m / 2 ^ (f0 - e) < Z.pos mx).
      { apply Z.div_lt_upper_bound; [ apply pow2_pos; lia |].
        rewrite E. lia. }
      lia.
    + lia.
  - assert (m1 = 2 ^ 53) by lia.
    assert (f0 < ex).
    { destruct (Z.eq_dec f0 ex) as [E | E]; [| lia ].
      exfalso. specialize (B ltac:(lia)).
      assert (Z.pos m / 2 ^ (f0 - e) < Z.pos mx).
      { apply Z.div_lt_upper_bound; [ apply pow2_pos; lia |].
        rewrite E. lia. }
      lia. }
    unfold fin_or_inf. change (2 ^ 52) with (Z.pos 4503599627370496).
    cbv iota beta.
    replace (f0 + 1 <=? 971) with true by (symmetry; apply Z.leb_le; lia).
    right. exists 4503599627370496%positive, (f0 + 1).
    split; [ reflexivity |].
    destruct (Z.eq_dec (f0 + 1) ex) as [E | E]; [ right | left; lia ].
    split; [ exact E |].
    assert (dx = 53) by lia.
    change (Z.pos 4503599627370496 <= Z.pos mx).
    replace (dx - 1) with 52 in Lx by lia. exact Lx.
Qed.

End RoundBoundFacts.


Module OrderFacts.
Import Order.

Ltac key_cases :=
  match goal with
  | |- _ <-> _ =>
      split;
      [ let H := fresh "H" in
        intro H;
        first
          [ discriminate H
          | clear H; do 2 eexists;
            split;
            [ reflexivity
            | split;
              [ reflexivity
              | cbn; first [ lia | right; f_equal; try f_equal; lia ] ] ] ]
      | try reflexivity;
        let a := fresh "a" in let b := fresh "b" in
        let A := fresh "A" in let B := fresh "B" in let L := fresh "L" in
        intros [a [b [A [B L]]]];
        try discriminate;
        inversion A; inversion B; subst; cbn in L; exfalso;
        repeat match goal with
               | H : _ \/ _ |- _ => destruct H
               | H : _ /\ _ |- _ => destruct H
               | H : (_, _) = (_, _) |- _ => inversion H; clear H
               end; lia ]
  end.

Ltac by_class x y :=
  destruct x as [[|] | [|] | | [|] ?m ?e], y as [[|] | [|] | | [|] ?m' ?e'];
  cbn [SFcompare key];
  try key_cases.

Ltac finite_cases :=
  match goal with
  | |- context [Pos.compare_cont Eq ?m ?m'] =>
      change (Pos.compare_cont Eq m m') with (Pos.compare m m');
      destruct (Pos.compare_spec m m')
  end;
  match goal with
  | |- context [Z.compare ?e ?e'] => destruct (Z.compare_spec e e')
  end;
  cbn [CompOpp]; key_cases.

Lemma SFltb_key x y :
  SFltb x y = true <->
  exists a b, key x = Some a /\ key y = Some b /\ lex_lt a b.
Proof.
  unfold SFltb, lex_lt.
  by_class x y; finite_cases.
Qed.

Lemma SFleb_key x y :
  SFleb x y = true <->
  exists a b, key x = Some a /\ key y = Some b /\ lex_le a b.
Proof.
  unfold SFleb, lex_le, lex_lt.
  by_class x y; finite_cases.
Qed.

Lemma ltb_false_above x h r :
  SFleb x h = true -> le_or_nan h r -> SFltb r x = false.
Proof.
  intros L N. destruct (SFltb r x) eqn:C; [| reflexivity ]. exfalso.
  apply SFltb_key in C. destruct C as [kr [kx [Kr [Kx C]]]].
  apply SFleb_key in L. destruct L as [kx' [kh [Kx' [Kh L]]]].
  unfold le_or_nan in N. rewrite Kh, Kr in N.
  rewrite Kx in Kx'. inversion Kx'; subst kx'.
  destruct kr as [[? ?] ?], kx as [[? ?] ?], kh as [[? ?] ?].
  unfold lex_le, lex_lt in *. cbn [fst snd] in *.
  destruct L as [L | L], N as [N | N];
    try (inversion L; subst); try (inversion N; subst); lia.
Qed.

Lemma ltb_false_below x h r :
  SFleb h x = true -> le_or_nan r h -> SFltb x r = false.
Proof.
  intros L N. destruct (SFltb x r) eqn:C; [| reflexivity ]. exfalso.
  apply SFltb_key in C. destruct C as [kx [kr [Kx [Kr C]]]].
  apply SFleb_key in L. destruct L as [kh [kx' [Kh [Kx' L]]]].
  unfold le_or_nan in N. rewrite Kh, Kr in N.
  rewrite Kx in Kx'. inversion Kx'; subst kx'.
  destruct kr as [[? ?] ?], kx as [[? ?] ?], kh as [[? ?] ?].
  unfold lex_le, lex_lt in *. cbn [fst snd] in *.
  destruct L as [L | L], N as [N | N];
    try (inversion L; subst); try (inversion N; subst); lia.
Qed.

End OrderFacts.


Module SumFacts.
Import Round Order RoundFacts RoundAuxFacts RoundBoundFacts OrderFacts.

Lemma iter_xO_value m d : Z.pos (Pos.iter xO m d) = Z.pos m * 2 ^ Z.pos d.
Proof.
  induction d as [| d IH] using Pos.peano_ind.
  - cbn. lia.
  - rewrite Pos.iter_succ, Pos2Z.inj_succ, Z.pow_succ_r by lia.
    rewrite Pos2Z.inj_xO, IH. lia.
Qed.

Lemma scaled_pos m k : 0 <= k -> 0 < Z.pos m * 2 ^ k.
Proof.
  intro H. apply Z.mul_pos_pos; [ lia | apply pow2_pos, H ].
Qed.

Lemma shl_align_fst m e ez :
  ez <= e -> Z.pos (fst (shl_align m e ez)) = Z.pos m * 2 ^ (e - ez).
Proof.
  intro H. unfold shl_align.
  destruct (ez - e) as [| d | d] eqn:D; cbn [fst].
  - replace (e - ez) with 0 by lia. cbn. lia.
  - lia.
  - rewrite iter_xO_value. f_equal. f_equal. lia.
Qed.

Lemma pack_class s m1 f :
  0 <= m1 ->
  pack s m1 f = S754_zero s
  \/ pack s m1 f = S754_infinity s
  \/ exists m e, pack s m1 f = S754_finite s m e.
Proof.
  intro H. unfold pack.
  destruct (Z.eqb_spec m1 0); [ now left |].
  right.
  destruct (m1 <? 2 ^ 53).
  - unfold fin_or_inf. destruct m1 as [| p | p]; try lia.
    destruct (f <=? 971); [ right; eauto | now left ].
  - unfold fin_or_inf. change (2 ^ 52) with (Z.pos 4503599627370496).
    cbv iota beta. destruct (f + 1 <=? 971); [ right; eauto | now left ].
Qed.

Lemma binary_round_class s m e :
  binary_round prec emax s m e = S754_zero s
  \/ binary_round prec emax s m e = S754_infinity s
  \/ exists m' e', binary_round prec emax s m e = S754_finite s m' e'.
Proof.
  destruct (binary_round_spec s m e) as [m1 [B [_ R]]].
  rewrite R. apply pack_class. lia.
Qed.

Ltac by_key :=
  unfold le_or_nan; cbn [key]; unfold lex_le, lex_lt; cbn [fst snd];
  first [ lia | right; reflexivity | exact I ].

(** The sum of a double and a double that is not negative is not below
    the first. *)
Lemma add_not_below h t :
  SpecFloat.valid_binary prec emax h = true ->
  not_negative t ->
  le_or_nan h (SFadd prec emax h t).
Proof.
  intros V N.
  destruct h as [sh | sh | | sh mh eh], t as [st | st | | st mt et];
    try destruct sh; try destruct st; cbn [not_negative] in N;
    try contradiction; cbn [SFadd]; try by_key.
  - (* a negative double and a positive one *)
    cbn [SpecFloat.valid_binary] in V.
    set (ez := Z.min eh et).
    rewrite !shl_align_fst by lia. cbn [cond_Zopp].
    assert (Pt : 0 < Z.pos mt * 2 ^ (et - ez)) by (apply scaled_pos; lia).
    destruct (- (Z.pos mh * 2 ^ (eh - ez)) + Z.pos mt * 2 ^ (et - ez))
      as [| p | p] eqn:S; cbn [binary_normalize].
    + by_key.
    + destruct (binary_round_class false p ez) as [R | [R | [m' [e' R]]]];
        rewrite R; by_key.
    + destruct (round_below true p ez mh eh V ltac:(lia) ltac:(lia))
        as [R | [m' [e' [R L]]]]; rewrite R; [ by_key |].
      unfold le_or_nan; cbn [key]; unfold lex_le, lex_lt; cbn [fst snd].
      destruct L as [L | [L1 L2]]; [ left; lia |].
      destruct (Pos.eq_dec m' mh) as [E | E];
        [ right; subst; reflexivity | left; lia ].
  - (* two positive doubles *)
    cbn [SpecFloat.valid_binary] in V.
    set (ez := Z.min eh et).
    rewrite !shl_align_fst by lia. cbn [cond_Zopp].
    assert (Pt : 0 < Z.pos mt * 2 ^ (et - ez)) by (apply scaled_pos; lia).
    assert (Ph : 0 < Z.pos mh * 2 ^ (eh - ez)) by (apply scaled_pos; lia).
    destruct (Z.pos mh * 2 ^ (eh - ez) + Z.pos mt * 2 ^ (et - ez))
      as [| p | p] eqn:S; try lia; cbn [binary_normalize].
    destruct (round_above false p ez mh eh V ltac:(lia) ltac:(lia))
      as [R | [m' [e' [R L]]]]; rewrite R; [ by_key |].
    unfold le_or_nan; cbn [key]; unfold lex_le, lex_lt; cbn [fst snd].
    destruct L as [L | [L1 L2]]; [ left; lia |].
    destruct (Pos.eq_dec m' mh) as [E | E];
      [ right; subst; reflexivity | left; lia ].
Qed.

(** The difference of a double and a double that is not negative is not
    above the first. *)
Lemma sub_not_above h t :
  SpecFloat.valid_binary prec emax h = true ->
  not_negative t ->
  le_or_nan (SFsub prec emax h t) h.
Proof.
  intros V N.
  destruct h as [sh | sh | | sh mh eh], t as [st | st | | st mt et];
    try destruct sh; try destruct st; cbn [not_negative] in N;
    try contradiction; cbn [SFsub negb]; try by_key.
  - (* a negative double minus a positive one *)
    cbn [SpecFloat.valid_binary] in V.
    set (ez := Z.min eh et).
    rewrite !shl_align_fst by lia. cbn [cond_Zopp].
    assert (Pt : 0 < Z.pos mt * 2 ^ (et - ez)) by (apply scaled_pos; lia).
    assert (Ph : 0 < Z.pos mh * 2 ^ (eh - ez)) by (apply scaled_pos; lia).
    destruct (- (Z.pos mh * 2 ^ (eh - ez)) - Z.pos mt * 2 ^ (et - ez))
      as [| p | p] eqn:S; try lia; cbn [binary_normalize].
    destruct (round_above true p ez mh eh V ltac:(lia) ltac:(lia))
      as [R | [m' [e' [R L]]]]; rewrite R; [ by_key |].
    unfold le_or_nan; cbn [key]; unfold lex_le, lex_lt; cbn [fst snd].
    destruct L as [L | [L1 L2]]; [ left; lia |].
    destruct (Pos.eq_dec m' mh) as [E | E];
      [ right; subst; reflexivity | left; lia ].
  - (* a positive double minus a positive one *)
    cbn [SpecFloat.valid_binary] in V.
    set (ez := Z.min eh et).
    rewrite !shl_align_fst by lia. cbn [cond_Zopp].
    assert (Pt : 0 < Z.pos mt * 2 ^ (et - ez)) by (apply scaled_pos; lia).
    destruct (Z.pos mh * 2 ^ (eh - ez) - Z.pos mt * 2 ^ (et - ez))
      as [| p | p] eqn:S; cbn [binary_normalize].
    + by_key.
    + destruct (round_below false p ez mh eh V ltac:(lia) ltac:(lia))
        as [R | [m' [e' [R L]]]]; rewrite R; [ by_key |].
      unfold le_or_nan; cbn [key]; unfold lex_le, lex_lt; cbn [fst snd].
      destruct L as [L | [L1 L2]]; [ left; lia |].
      destruct (Pos.eq_dec m' mh) as [E | E];
        [ right; subst; reflexivity | left; lia ].
    + destruct (binary_round_class true p ez) as [R | [R | [m' [e' R]]]];
        rewrite R; by_key.
Qed.

End SumFacts.


Module F64Facts.
Import Round Order OrderFacts SumFacts.

Lemma round_aux_class m e l :
  not_negative (binary_round_aux prec emax false m e l).
Proof.
  unfold binary_round_aux.
  destruct (shr_fexp prec emax m e l) as [mrs1 e1].
  destruct (shr_fexp prec emax _ e1 loc_Exact) as [mrs2 e2].
  destruct (shr_m mrs2); [ exact I | | exact I ].
  destruct (e2 <=? emax - prec); exact I.
Qed.

Lemma quarter_not_negative (s : float) :
  (s <? 0)%float = false -> not_negative (Prim2SF (0.25 * s)%float).
Proof.
  intro H. rewrite ltb_spec in H. rewrite mul_spec.
  change (Prim2SF 0.25) with (S754_finite false 4503599627370496 (-54)).
  change (Prim2SF 0) with (S754_zero false) in H.
  destruct (Prim2SF s) as [ss | ss | | ss ms es]; try destruct ss;
    try discriminate H; try exact I.
  unfold SF64mul, SFmul. cbn [xorb]. apply round_aux_class.
Qed.

Lemma SFcompare_swap x y :
  SFcompare y x = option_map CompOpp (SFcompare x y).
Proof.
  destruct x as [[|] | [|] | | [|] m e], y as [[|] | [|] | | [|] m' e'];
    cbn [SFcompare option_map CompOpp]; try reflexivity;
    rewrite (Z.compare_antisym e e');
    change (Pos.compare_cont Eq m m') with (Pos.compare m m');
    change (Pos.compare_cont Eq m' m) with (Pos.compare m' m);
    rewrite (Pos.compare_antisym m m');
    destruct (e ?= e'); destruct (m ?= m')%positive; reflexivity.
Qed.

Lemma ltb_neq (a b : float) :
  (a <? b)%float = true -> (a =? b)%float = false /\ (b =? a)%float = false.
Proof.
  rewrite ltb_spec, !eqb_spec. unfold SFltb, SFeqb.
  rewrite (SFcompare_swap (Prim2SF a) (Prim2SF b)).
  destruct (SFcompare (Prim2SF a) (Prim2SF b)) as [[| |] |];
    cbn [option_map CompOpp]; try discriminate; auto.
Qed.

(** [h + 0.25 * s] is not below a value that [h] is not below. *)
Lemma enlarged_max_covers (h s v : float) :
  (s <? 0)%float = false ->
  (v <=? h)%float = true ->
  (h + 0.25 * s <? v)%float = false.
Proof.
  intros S L. rewrite ltb_spec, add_spec.
  rewrite leb_spec in L.
  apply (ltb_false_above _ (Prim2SF h)); [ exact L |].
  apply add_not_below; [ apply Prim2SF_valid | apply quarter_not_negative, S ].
Qed.

Lemma enlarged_min_covers (h s v : float) :
  (s <? 0)%float = false ->
  (h <=? v)%float = true ->
  (v <? h - 0.25 * s)%float = false.
Proof.
  intros S L. rewrite ltb_spec, sub_spec.
  rewrite leb_spec in L.
  apply (ltb_false_below _ (Prim2SF h)); [ exact L |].
  apply sub_not_above; [ apply Prim2SF_valid | apply quarter_not_negative, S ].
Qed.

End F64Facts.

Module ExtentFacts.
Import LAS Patch Check.

Lemma say_forallb (f : message -> bool) c m :
  (c = true -> f m = true) -> forallb f (say c m) = true.
Proof.
  intro H. unfold say. destruct c; [| reflexivity ].
  cbn [forallb]. rewrite H; reflexivity.
Qed.

Lemma warnings_one_sided o h s :
  repair_bb o = false ->
  forallb (beyond_enlarged_box h s) (snd (check_bounding_box o h s)) = true.
Proof.
  intro R. unfold check_bounding_box. rewrite R. cbn [snd].
  repeat rewrite forallb_app.
  repeat rewrite say_forallb;
    try reflexivity; intro H; apply andb_true_iff in H; destruct H as [H _];
    exact H.
Qed.

Lemma neq_of_ltb a b : (a <? b)%float = true -> F64_neq a b = true.
Proof.
  intro H. unfold F64_neq.
  destruct (F64Facts.ltb_neq a b H) as [E _]. rewrite E. reflexivity.
Qed.

Lemma neq_of_gtb a b : (b <? a)%float = true -> F64_neq a b = true.
Proof.
  intro H. unfold F64_neq.
  destruct (F64Facts.ltb_neq b a H) as [_ E]. rewrite E. reflexivity.
Qed.

Ltac other_entries :=
  repeat match goal with
         | |- context [F64_neq ?a ?b] => destruct (F64_neq a b)
         end;
  reflexivity.

Lemma beyond_wrong_entry h s :
  header_box_beyond h s = true -> box_wrong_entry h s = true.
Proof.
  unfold header_box_beyond. repeat rewrite orb_true_iff.
  intros [[[[[H | H] | H] | H] | H] | H];
    unfold box_wrong_entry;
    first [ rewrite (neq_of_ltb _ _ H) | rewrite (neq_of_gtb _ _ H) ];
    other_entries.
Qed.

Lemma contained_quiet o h s :
  scales_not_negative h = true ->
  header_box_contains h s = true ->
  repair_bb o = false ->
  check_bounding_box o h s = ([], []).
Proof.
  unfold scales_not_negative, header_box_contains.
  repeat rewrite andb_true_iff. repeat rewrite negb_true_iff.
  intros [[Sx Sy] Sz] [[[[[Ax Bx] Ay] By] Az] Bz] R.
  unfold check_bounding_box, F64_gt.
  unfold enlarged_max_x, enlarged_min_x, enlarged_max_y, enlarged_min_y,
    enlarged_max_z, enlarged_min_z.
  rewrite R.
  rewrite (F64Facts.enlarged_max_covers _ _ _ Sx Ax),
    (F64Facts.enlarged_min_covers _ _ _ Sx Bx),
    (F64Facts.enlarged_max_covers _ _ _ Sy Ay),
    (F64Facts.enlarged_min_covers _ _ _ Sy By),
    (F64Facts.enlarged_max_covers _ _ _ Sz Az),
    (F64Facts.enlarged_min_covers _ _ _ Sz Bz).
  reflexivity.
Qed.

End ExtentFacts.

(** C10, as amended. With repair of the box off, nothing is written and
    every warning is one-sided: a line is reported only for a recomputed
    maximum above header maximum + 0.25 * scale factor or a recomputed
    minimum below header minimum - 0.25 * scale factor. When no scale
    factor is negative, a header box that contains the recomputed extent
    gives no warning at all in this mode; if it also lies beyond one of
    the six recomputed extrema, the repair mode, which compares with [!=],
    finds a wrong entry and writes all six recomputed doubles as one
    correction of 48 bytes at offset 179 for the same file. *)
Theorem oversized_box_check_and_repair
    (o : Check.options) (h : LAS.LASheader) (s : LAS.LASsummary) :
  (Check.repair_bb o = false ->
     fst (Check.check_bounding_box o h s) = []
     /\ forallb (Check.beyond_enlarged_box h s)
          (snd (Check.check_bounding_box o h s)) = true)
  /\ (Check.scales_not_negative h = true ->
      Check.header_box_contains h s = true ->
      (Check.repair_bb o = false ->
         Check.check_bounding_box o h s = ([], []))
      /\ (Check.repair_bb o = true ->
          Check.header_box_beyond h s = true ->
          Check.box_wrong_entry h s = true
          /\ Check.check_bounding_box o h s
             = ([Patch.Fseek 179;
                 Patch.Fwrite [Patch.DF64 (LAS.get_x h (LAS.max_X s))];
                 Patch.Fwrite [Patch.DF64 (LAS.get_x h (LAS.min_X s))];
                 Patch.Fwrite [Patch.DF64 (LAS.get_y h (LAS.max_Y s))];
                 Patch.Fwrite [Patch.DF64 (LAS.get_y h (LAS.min_Y s))];
                 Patch.Fwrite [Patch.DF64 (LAS.get_z h (LAS.max_Z s))];
                 Patch.Fwrite [Patch.DF64 (LAS.get_z h (LAS.min_Z s))]],
                Check.say (Check.file_out o) Check.BoundingBoxRepaired)
          /\ Patch.corrections (fst (Check.check_bounding_box o h s))
             = [Patch.mkCorrection 179
                  (map Patch.DF64 (Check.real_box h s))])).
Proof.
  split.
  - intro R. split.
    + unfold Check.check_bounding_box. rewrite R. reflexivity.
    + apply ExtentFacts.warnings_one_sided, R.
  - intros S C. split.
    + intro R. apply ExtentFacts.contained_quiet; assumption.
    + intros R B.
      pose proof (ExtentFacts.beyond_wrong_entry h s B) as W.
      split; [ exact W |]. split.
      * unfold Check.check_bounding_box. rewrite R, W. reflexivity.
      * rewrite BoxFacts.box_corrections, R, W. reflexivity.
Qed.

Lemma oversized_box_check_and_repair_witness :
  Check.check_bounding_box Samples.check_only Samples.header_12
    Samples.summary_inside = ([], [])
  /\ Patch.corrections
       (fst (Check.check_bounding_box Samples.repair_all Samples.header_12
               Samples.summary_inside))
     = [Patch.mkCorrection 179
          (map Patch.DF64
             (Check.real_box Samples.header_12 Samples.summary_inside))].
Proof.
  split.
  - destruct (oversized_box_check_and_repair Samples.check_only
                Samples.header_12 Samples.summary_inside) as [_ H].
    destruct H as [H _]; [ vm_compute; reflexivity | vm_compute; reflexivity |].
    apply H. reflexivity.
  - destruct (oversized_box_check_and_repair Samples.repair_all
                Samples.header_12 Samples.summary_inside) as [_ H].
    destruct H as [_ H]; [ vm_compute; reflexivity | vm_compute; reflexivity |].
    destruct H as [_ [_ H]];
      [ reflexivity | vm_compute; reflexivity | exact H ].
Defined.

(** C10, as the claim has it, fails for a negative scale factor: the only
    point of the file lies at the origin and the header box
    [-1, 1] x [-1, 1] x [-1, 1] is strictly larger than the extent on all
    six sides; with an x scale factor of -8 the enlarged maximum of x is
    1 + 0.25 * (-8) = -1 and the enlarged minimum is -1 - 0.25 * (-8) = 1,
    and the check-only mode reports both the maximum and the minimum of
    x. *)
Lemma negative_scale_warns_inside_box :
  Check.header_box_strictly_larger Samples.header_negative_scale
    Samples.summary_origin = true
  /\ Check.enlarged_max_x Samples.header_negative_scale = (-1)%float
  /\ Check.enlarged_min_x Samples.header_negative_scale = 1%float
  /\ Check.check_bounding_box Samples.check_only
       Samples.header_negative_scale Samples.summary_origin
     = ([], [Check.RealMaxLarger Check.AxisX (-1)%float;
             Check.RealMinSmaller Check.AxisX (-1)%float]).
Proof. repeat split; vm_compute; reflexivity. Qed.

(** ** The quantization validator *)

Module QuantizeFacts.
Import Quantize RoundFacts RoundBoundFacts.



(** *** Rounding that has nothing to round *)




(** *** The conversion of the quantized multiplier *)




(** *** The order of the doubles is the order of their values *)




(** *** A difference that is a double *)



(** *** The test of the validator *)




(** *** The nearest integer *)


End QuantizeFacts.




(** ** The bytes of a double, and back *)

Module BitsFacts.
Import Bytes.

Lemma split_bits q r :
  0 <= r < 2 ^ 52 ->
  (q * 2 ^ 52 + r) / 2 ^ 52 = q /\ (q * 2 ^ 52 + r) mod 2 ^ 52 = r.
Proof.
  intro H. split.
  - rewrite Z.add_comm, Z.div_add by lia. rewrite Z.div_small by lia. lia.
  - rewrite Z.add_comm, Z.mod_add by lia. apply Z.mod_small. lia.
Qed.

Lemma sign_bit_cases s : sign_bit s = (if s then 2048 else 0) * 2 ^ 52.
Proof. destruct s; reflexivity. Qed.

Lemma sign_of_bits s v :
  0 <= v < 2 ^ 63 -> (2 ^ 63 <=? sign_bit s + v) = s.
Proof.
  intro H. destruct s; cbn [sign_bit].
  - apply Z.leb_le. lia.
  - apply Z.leb_gt. lia.
Qed.

(** The 64 bits of a double decode to the double. *)
Lemma SF_of_bits_of_F64 x : SF_of_bits (bits_of_F64 x) = Prim2SF x.
Proof.
  unfold bits_of_F64. pose proof (Prim2SF_valid x) as V.
  destruct (Prim2SF x) as [s | s | | s m e].
  - destruct s; reflexivity.
  - destruct s; reflexivity.
  - reflexivity.
  - cbn [SpecFloat.valid_binary] in V.
    destruct (RoundBoundFacts.bounded_facts m e V) as [D [E [N _]]].
    pose proof (RoundFacts.digits2_pos_bounds m) as [L U].
    set (d := Z.pos (digits2_pos m)) in *.
    assert (P52 : 2 ^ 52 = 4503599627370496) by reflexivity.
    destruct (Z.ltb_spec (Z.pos m) (2 ^ 52)) as [Hs | Hn].
    + (* subnormal *)
      assert (He : e = -1074).
      { destruct N as [N | N]; [| exact N ].
        exfalso. rewrite N in L. change (2 ^ (53 - 1)) with (2 ^ 52) in L. lia. }
      unfold SF_of_bits.
      rewrite sign_of_bits by lia.
      rewrite sign_bit_cases.
      destruct (split_bits (if s then 2048 else 0) (Z.pos m) ltac:(lia)) as [Q R].
      rewrite Q, R.
      replace ((if s then 2048 else 0) mod 2048) with 0 by (destruct s; reflexivity).
      cbn [Z.eqb]. subst e. reflexivity.
    + (* normal *)
      assert (Hd : d = 53).
      { assert (52 < d) by (apply (RoundFacts.Zdigits2_gt (Z.pos m) 52); lia). lia. }
      rewrite Hd in U.
      assert (P53 : 2 ^ 53 = 2 * 2 ^ 52) by reflexivity.
      unfold SF_of_bits. rewrite <- Z.add_assoc.
      rewrite sign_of_bits
        by (assert (2 ^ 63 = 2048 * 2 ^ 52) by reflexivity; nia).
      rewrite sign_bit_cases.
      replace ((if s then 2048 else 0) * 2 ^ 52
               + ((e + 1075) * 2 ^ 52 + (Z.pos m - 2 ^ 52)))
        with (((if s then 2048 else 0) + (e + 1075)) * 2 ^ 52
              + (Z.pos m - 2 ^ 52)) by lia.
      destruct (split_bits ((if s then 2048 else 0) + (e + 1075))
                  (Z.pos m - 2 ^ 52) ltac:(lia)) as [Q R].
      rewrite Q, R.
      assert (M : ((if s then 2048 else 0) + (e + 1075)) mod 2048 = e + 1075).
      { destruct s.
        - rewrite Z.add_comm. replace 2048 with (1 * 2048) by lia.
          rewrite Z.mod_add by lia. apply Z.mod_small. lia.
        - apply Z.mod_small. lia. }
      rewrite M.
      destruct (Z.eqb_spec (e + 1075) 2047); [ lia |].
      destruct (Z.eqb_spec (e + 1075) 0); [ lia |].
      replace (Z.pos m - 2 ^ 52 + 2 ^ 52) with (Z.pos m) by lia.
      f_equal. lia.
Qed.

Lemma F64_of_bits_of_F64 x : F64_of_bits (bits_of_F64 x) = x.
Proof.
  unfold F64_of_bits. rewrite SF_of_bits_of_F64. apply SF2Prim_Prim2SF.
Qed.

Lemma bits_of_F64_range x : 0 <= bits_of_F64 x < 2 ^ 64.
Proof.
  unfold bits_of_F64. pose proof (Prim2SF_valid x) as V.
  destruct (Prim2SF x) as [s | s | | s m e].
  - destruct s; cbn; lia.
  - destruct s; cbn; lia.
  - cbn; lia.
  - cbn [SpecFloat.valid_binary] in V.
    destruct (RoundBoundFacts.bounded_facts m e V) as [D [E [N _]]].
    pose proof (RoundFacts.digits2_pos_bounds m) as [L U].
    assert (2 ^ Z.pos (digits2_pos m) <= 2 ^ 53)
      by (apply Z.pow_le_mono_r; lia).
    assert (P53 : 2 ^ 53 = 2 * 2 ^ 52) by reflexivity.
    assert (P64 : 2 ^ 64 = 4096 * 2 ^ 52) by reflexivity.
    assert (P52 : 0 < 2 ^ 52) by reflexivity.
    rewrite sign_bit_cases.
    destruct (Z.pos m <? 2 ^ 52) eqn:C.
    + apply Z.ltb_lt in C. destruct s; nia.
    + apply Z.ltb_ge in C. destruct s; nia.
Qed.

Lemma le_value_le_bytes n v : le_value (le_bytes n v) = v mod 256 ^ Z.of_nat n.
Proof.
  revert v. induction n as [| n IH]; intro v.
  - cbn. symmetry. apply Z.mod_1_r.
  - cbn [le_bytes le_value]. rewrite IH.
    rewrite Nat2Z.inj_succ, Z.pow_succ_r by lia.
    rewrite Z.rem_mul_r by (try lia; apply Z.pow_pos_nonneg; lia).
    reflexivity.
Qed.

(** A double that is read from the eight bytes it was written to is the
    double. *)
Lemma F64_bytes_round_trip x :
  F64_of_bits (le_value (le_bytes 8 (bits_of_F64 x))) = x.
Proof.
  rewrite le_value_le_bytes.
  change (256 ^ Z.of_nat 8) with (2 ^ 64).
  rewrite Z.mod_small by apply bits_of_F64_range.
  apply F64_of_bits_of_F64.
Qed.

End BitsFacts.

(** ** The blocks of the header edit *)

Module SlotFacts.
Import Patch Bytes Edit.

Lemma gather_writes ws : gather (map Fwrite ws) = concat ws.
Proof.
  induction ws as [| w ws IH]; [ reflexivity |].
  cbn [map]. rewrite PatchFacts.gather_cons_write, IH. reflexivity.
Qed.

Lemma writes_are_fwrite ws : Forall is_fwrite (map Fwrite ws).
Proof. induction ws; constructor; [ exact I | assumption ]. Qed.

Lemma slot_fills s :
  slot_writes s <> [] -> fills (slot_ops s) (requested s) (slot_range s).
Proof.
  intro N. unfold slot_ops, slot_range.
  destruct (requested s); [| apply DisjointFacts.fills_nothing ].
  split; [| exact I ].
  destruct (slot_writes s) as [| w ws]; [ congruence |].
  cbn [map]. rewrite PatchFacts.corrections_seek_writes
    by (constructor; [ exact I | apply writes_are_fwrite ]).
  rewrite PatchFacts.gather_cons_write, gather_writes. reflexivity.
Qed.

Lemma slots_ranges sl :
  Forall (fun s => slot_writes s <> []) sl ->
  map range_of (corrections (flat_map slot_ops sl))
  = keep (map requested sl) (map slot_range sl)
  /\ seek_led (flat_map slot_ops sl).
Proof.
  induction 1 as [| s sl N _ [IH S]]; [ split; [ reflexivity | exact I ] |].
  cbn [flat_map map].
  apply (DisjointFacts.fills_app _ _ _ _ _ _ (slot_fills s N) IH S).
Qed.

Lemma written_ranges ops a :
  written ops a = existsb (in_range a) (map range_of (corrections ops)).
Proof.
  unfold written. induction (corrections ops) as [| c l IH]; [ reflexivity |].
  cbn [existsb map]. rewrite IH. reflexivity.
Qed.

Lemma keep_outside a flags rs :
  Forall (fun br => fst br = true -> in_range a (snd br) = false)
    (combine flags rs) ->
  existsb (in_range a) (keep flags rs) = false.
Proof.
  revert rs. induction flags as [| b flags IH]; intros [| r rs] H;
    try reflexivity.
  cbn [combine] in H. inversion H as [| x l Hx Hl]; subst.
  cbn [keep]. destruct b.
  - cbn [existsb]. cbn [fst snd] in Hx. rewrite (Hx eq_refl). cbn [orb].
    now apply IH.
  - now apply IH.
Qed.

Lemma combine_maps {A B C} (f : A -> B) (g : A -> C) l :
  combine (map f l) (map g l) = map (fun x => (f x, g x)) l.
Proof. induction l; cbn; congruence. Qed.

(** A byte outside the range of every requested block is left as it
    is. *)
Lemma slots_frame sl f a :
  Forall (fun s => slot_writes s <> []) sl ->
  (forall s, In s sl -> requested s = true -> in_range a (slot_range s) = false) ->
  run_ops (flat_map slot_ops sl) f a = f a.
Proof.
  intros N H. apply FileFacts.run_ops_frame.
  rewrite written_ranges. destruct (slots_ranges sl N) as [R _]. rewrite R.
  apply keep_outside. rewrite combine_maps.
  apply Forall_map. apply Forall_forall. intros s I. cbn [fst snd].
  now apply H.
Qed.

Lemma store_app f o b1 b2 a :
  store (store f o b1) (o + Z.of_nat (length b1)) b2 a = store f o (b1 ++ b2) a.
Proof.
  unfold store. rewrite length_app, Nat2Z.inj_add.
  destruct (Z.leb_spec (o + Z.of_nat (length b1)) a) as [H1 | H1];
    destruct (Z.ltb_spec a (o + Z.of_nat (length b1) + Z.of_nat (length b2)))
      as [H2 | H2]; cbn [andb].
  - replace ((o <=? a) && (a <? o + (Z.of_nat (length b1) + Z.of_nat (length b2))))
      with true by (symmetry; apply andb_true_iff; split;
                    [ apply Z.leb_le | apply Z.ltb_lt ]; lia).
    rewrite app_nth2 by lia. f_equal. lia.
  - destruct (Z.leb_spec o a); destruct (Z.ltb_spec a (o + Z.of_nat (length b1)));
      destruct (Z.ltb_spec a (o + (Z.of_nat (length b1) + Z.of_nat (length b2))));
      cbn [andb]; try lia; reflexivity.
  - destruct (Z.leb_spec o a); destruct (Z.ltb_spec a (o + Z.of_nat (length b1)));
      destruct (Z.ltb_spec a (o + (Z.of_nat (length b1) + Z.of_nat (length b2))));
      cbn [andb]; try lia; try reflexivity.
    rewrite app_nth1 by lia. reflexivity.
  - destruct (Z.leb_spec o a); destruct (Z.ltb_spec a (o + Z.of_nat (length b1)));
      destruct (Z.ltb_spec a (o + (Z.of_nat (length b1) + Z.of_nat (length b2))));
      cbn [andb]; try lia; try reflexivity.
Qed.

Lemma store_nothing f o a : store f o [] a = f a.
Proof.
  unfold store. cbn [length Z.of_nat].
  destruct (Z.leb_spec o a); destruct (Z.ltb_spec a (o + 0)); cbn [andb];
    try lia; reflexivity.
Qed.

Lemma store_ext f g o bs a : f a = g a -> store f o bs a = store g o bs a.
Proof. intro H. unfold store. now destruct ((o <=? a) && _). Qed.

(** A run of [fwrite]s stores what they hand over, one after the other. *)
Lemma exec_writes ws p f :
  fst (fold_left exec (map Fwrite ws) (p, f)) = p + width (concat ws)
  /\ forall a,
       snd (fold_left exec (map Fwrite ws) (p, f)) a
       = store f p (data_bytes (concat ws)) a.
Proof.
  revert p f. induction ws as [| w ws IH]; intros p f.
  - cbn. split; [ lia | intro a; symmetry; apply store_nothing ].
  - cbn [map fold_left exec fst snd].
    destruct (IH (p + width w) (store f p (data_bytes w))) as [P S].
    split.
    + rewrite P. cbn [concat]. rewrite PatchFacts.width_app. lia.
    + intro a. rewrite S. cbn [concat]. unfold data_bytes at 3.
      rewrite flat_map_app. fold (data_bytes w). fold (data_bytes (concat ws)).
      rewrite <- store_app. rewrite FileFacts.data_bytes_length. reflexivity.
Qed.

Lemma slot_store s f a :
  requested s = true ->
  run_ops (slot_ops s) f a
  = store f (slot_offset s) (data_bytes (concat (slot_writes s))) a.
Proof.
  intro R. unfold slot_ops, run_ops. rewrite R. cbn [fold_left exec fst snd].
  apply exec_writes.
Qed.

Lemma in_range_spec a r : in_range a r = true <-> fst r <= a < snd r.
Proof.
  unfold in_range. rewrite andb_true_iff, Z.leb_le, Z.ltb_lt. tauto.
Qed.

(** Inside the range of a requested block the file holds the bytes of the
    block, when no two blocks share a byte. *)
Lemma slots_lookup sl :
  Forall (fun s => slot_writes s <> []) sl ->
  disjoint_ranges (map slot_range sl) ->
  forall f a s,
    In s sl -> requested s = true -> in_range a (slot_range s) = true ->
    run_ops (flat_map slot_ops sl) f a
    = nth (Z.to_nat (a - slot_offset s)) (data_bytes (concat (slot_writes s))) 0.
Proof.
  induction 1 as [| s0 sl N0 N IH]; intros D f a s I R A; [ destruct I |].
  cbn [flat_map]. cbn [map] in D. inversion D as [| r l D0 D']; subst.
  destruct (slots_ranges sl N) as [_ S].
  rewrite FileFacts.run_ops_app by assumption.
  destruct I as [E | I].
  - subst s0. rewrite slots_frame; [| assumption |].
    + rewrite slot_store by assumption.
      apply in_range_spec in A. unfold slot_range in A. cbn [fst snd] in A.
      rewrite <- FileFacts.data_bytes_length in A.
      apply FileFacts.store_in. exact A.
    + intros s' I' _. destruct (in_range a (slot_range s')) eqn:C; [| reflexivity ].
      exfalso. rewrite Forall_forall in D0.
      apply (D0 (slot_range s')); [ now apply in_map |].
      exists a. split; assumption.
  - apply IH; assumption.
Qed.

Lemma ascending_apart lo rs :
  ascending lo rs = true ->
  Forall (fun r => lo <= fst r /\ fst r <= snd r) rs /\ disjoint_ranges rs.
Proof.
  revert lo. induction rs as [| r rs IH]; intros lo H.
  - split; constructor.
  - cbn [ascending] in H. apply andb_true_iff in H. destruct H as [H H3].
    apply andb_true_iff in H. destruct H as [H1 H2].
    apply Z.leb_le in H1. apply Z.leb_le in H2.
    destruct (IH _ H3) as [F D]. split.
    + constructor; [ lia |]. eapply Forall_impl; [| exact F ].
      cbn beta. intros x [X1 X2]. lia.
    + constructor; [| exact D ].
      eapply Forall_impl; [| exact F ]. cbn beta. intros x [X1 X2].
      destruct r as [a b], x as [c d]. cbn [fst snd] in *.
      apply PatchFacts.not_shares_byte. lia.
Qed.

Section Clamped.
Variables U8_CLAMP U16_CLAMP U32_CLAMP : Z -> Z.

Lemma slots_nonempty e :
  Forall (fun s => slot_writes s <> [])
    (slots U8_CLAMP U16_CLAMP U32_CLAMP e).
Proof. unfold slots. repeat constructor; discriminate. Qed.

Lemma slots_fixed_ranges e :
  map slot_range (slots U8_CLAMP U16_CLAMP U32_CLAMP e) = fixed_ranges.
Proof. reflexivity. Qed.

Lemma fixed_ranges_apart : disjoint_ranges fixed_ranges.
Proof. apply (ascending_apart 4). reflexivity. Qed.

Lemma fixed_ranges_inside r : In r fixed_ranges -> 4 <= fst r /\ snd r <= 235.
Proof.
  unfold fixed_ranges. cbn [In].
  intros H. repeat (destruct H as [H | H]; [ subst r; cbn; lia |]).
  destruct H.
Qed.

End Clamped.

End SlotFacts.

Module EditFacts.
Import LAS Patch Bytes Edit SlotFacts.

Lemma read_bytes_inside f o n bs pre post :
  (forall k, (k < n)%nat -> f (o + Z.of_nat k) = nth (length pre + k) (pre ++ bs ++ post) 0) ->
  length bs = n ->
  read_bytes f o n = bs.
Proof.
  intros H L. apply (nth_ext _ _ 0 0).
  - rewrite FileFacts.read_bytes_length. congruence.
  - intros k Hk. rewrite FileFacts.read_bytes_length in Hk.
    rewrite FileFacts.read_bytes_nth by assumption. rewrite H by assumption.
    rewrite app_nth2 by lia. rewrite app_nth1 by lia. f_equal. lia.
Qed.

Section Clamped.
Variables U8_CLAMP U16_CLAMP U32_CLAMP : Z -> Z.

Lemma slots_apart e : disjoint_ranges (map slot_range (Edit.slots U8_CLAMP U16_CLAMP U32_CLAMP e)).
Proof. rewrite slots_fixed_ranges. apply fixed_ranges_apart. Qed.

(** The bytes of one requested block, read back from the edited file. *)
Lemma field_bytes e f s pre post bs o :
  In s (Edit.slots U8_CLAMP U16_CLAMP U32_CLAMP e) -> requested s = true ->
  data_bytes (concat (slot_writes s)) = pre ++ bs ++ post ->
  o = slot_offset s + Z.of_nat (length pre) ->
  read_bytes (run_ops (Edit.fixed_edit_ops U8_CLAMP U16_CLAMP U32_CLAMP e) f) o (length bs) = bs.
Proof.
  intros I R D O. apply (read_bytes_inside _ _ _ _ pre post); [| reflexivity ].
  intros k Hk. unfold Edit.fixed_edit_ops.
  rewrite (slots_lookup (Edit.slots U8_CLAMP U16_CLAMP U32_CLAMP e) (slots_nonempty _ _ _ e) (slots_apart e) f _ s I R).
  - rewrite D. f_equal. lia.
  - apply in_range_spec. unfold slot_range. cbn [fst snd].
    rewrite <- FileFacts.data_bytes_length, D, !length_app. lia.
Qed.

Lemma field_uint e f s pre post v n o :
  In s (Edit.slots U8_CLAMP U16_CLAMP U32_CLAMP e) -> requested s = true ->
  data_bytes (concat (slot_writes s)) = pre ++ le_bytes n v ++ post ->
  o = slot_offset s + Z.of_nat (length pre) ->
  read_uint (run_ops (Edit.fixed_edit_ops U8_CLAMP U16_CLAMP U32_CLAMP e) f) o n = v mod 256 ^ Z.of_nat n.
Proof.
  intros I R D O. unfold read_uint.
  rewrite <- (FileFacts.le_bytes_length n v) at 1.
  rewrite (field_bytes e f s pre post (le_bytes n v) o I R D O).
  apply BitsFacts.le_value_le_bytes.
Qed.

Lemma field_F64 e f s pre post x o :
  In s (Edit.slots U8_CLAMP U16_CLAMP U32_CLAMP e) -> requested s = true ->
  data_bytes (concat (slot_writes s)) = pre ++ le_bytes 8 (bits_of_F64 x) ++ post ->
  o = slot_offset s + Z.of_nat (length pre) ->
  read_F64 (run_ops (Edit.fixed_edit_ops U8_CLAMP U16_CLAMP U32_CLAMP e) f) o = x.
Proof.
  intros I R D O. unfold read_F64, read_uint.
  change 8%nat with (length (le_bytes 8 (bits_of_F64 x))) at 1.
  rewrite (field_bytes e f s pre post _ o I R D O).
  apply BitsFacts.F64_bytes_round_trip.
Qed.

(** A field whose block is not requested reads as before. *)
Lemma field_kept e f o n :
  (forall s, In s (Edit.slots U8_CLAMP U16_CLAMP U32_CLAMP e) -> requested s = true ->
             forall k, (k < n)%nat -> in_range (o + Z.of_nat k) (slot_range s) = false) ->
  read_uint (run_ops (Edit.fixed_edit_ops U8_CLAMP U16_CLAMP U32_CLAMP e) f) o n = read_uint f o n.
Proof.
  intro H. unfold read_uint. f_equal.
  apply (nth_ext _ _ 0 0); [ now rewrite !FileFacts.read_bytes_length |].
  intros k Hk. rewrite FileFacts.read_bytes_length in Hk.
  rewrite !FileFacts.read_bytes_nth by assumption.
  apply slots_frame; [ apply slots_nonempty |].
  intros s I R. now apply H.
Qed.

End Clamped.

Ltac nth_slot k := apply (nth_error_In _ k); reflexivity.

Ltac is_requested H :=
  cbn [requested fst allocated]; try reflexivity;
  apply negb_true_iff, Z.eqb_neq; exact H.

(** The block is not requested ([H] says so), or its range is away from
    the byte. *)
Ltac other_slot H R :=
  unfold Edit.requested, Edit.slot_range, Edit.slot_offset, Edit.slot_writes,
    Edit.array in *;
  cbn [fst snd] in R;
  first
    [ rewrite H in R; discriminate R
    | apply BucketFacts.out_of_slot;
      cbn [fst snd concat app Patch.width fold_right Patch.sizeof map seq];
      lia ].

End EditFacts.

(** X1. The edits of the header fields at fixed offsets change no byte
    before offset 4 (the file signature) and none from offset 235 on; a
    byte changes only inside the block of an option that was given, and
    the bytes that the blocks write are those of the 24 fields from offset
    4 to 235, in ascending order. *)
Theorem header_edits_frame
    (U8_CLAMP U16_CLAMP U32_CLAMP : Z -> Z) (e : Edit.header_edits)
    (f : Bytes.file) :
  let edited := Bytes.run_ops (Edit.fixed_edit_ops U8_CLAMP U16_CLAMP U32_CLAMP e) f in
  (forall a, a < 4 \/ 235 <= a -> edited a = f a)
  /\ (forall a,
        (forall s, In s (Edit.slots U8_CLAMP U16_CLAMP U32_CLAMP e) ->
                   Edit.requested s = true ->
                   Patch.in_range a (Edit.slot_range s) = false) ->
        edited a = f a)
  /\ map Patch.range_of
       (Patch.corrections (Edit.fixed_edit_ops U8_CLAMP U16_CLAMP U32_CLAMP e))
     = Patch.keep (map Edit.requested (Edit.slots U8_CLAMP U16_CLAMP U32_CLAMP e))
         Edit.fixed_ranges
  /\ Edit.fixed_edit_ops U8_CLAMP U16_CLAMP U32_CLAMP Edit.no_header_edits = [].
Proof.
  intro edited. split; [| split; [| split ] ].
  - intros a Ha. apply SlotFacts.slots_frame; [ apply SlotFacts.slots_nonempty |].
    intros s I _.
    pose proof (SlotFacts.fixed_ranges_inside (Edit.slot_range s)) as B.
    rewrite <- (SlotFacts.slots_fixed_ranges U8_CLAMP U16_CLAMP U32_CLAMP e) in B.
    specialize (B (in_map _ _ _ I)).
    destruct (Patch.in_range a (Edit.slot_range s)) eqn:C; [| reflexivity ].
    apply SlotFacts.in_range_spec in C. lia.
  - intros a Ha. apply SlotFacts.slots_frame;
      [ apply SlotFacts.slots_nonempty | exact Ha ].
  - destruct (SlotFacts.slots_ranges _
                (SlotFacts.slots_nonempty U8_CLAMP U16_CLAMP U32_CLAMP e))
      as [R _].
    unfold Edit.fixed_edit_ops. rewrite R.
    rewrite SlotFacts.slots_fixed_ranges. reflexivity.
  - reflexivity.
Qed.

Module EditPairFacts.
Import LAS Patch Edit.

Lemma keep_app {A} f1 f2 (l1 l2 : list A) :
  length f1 = length l1 ->
  keep (f1 ++ f2) (l1 ++ l2) = keep f1 l1 ++ keep f2 l2.
Proof.
  revert l1. induction f1 as [| b f1 IH]; intros [| x l1] H;
    try discriminate; [ reflexivity |].
  cbn [app keep]. cbn [length] in H. injection H as H.
  rewrite IH by assumption. now destruct b.
Qed.

Lemma combine_app {A B} (a1 a2 : list A) (b1 b2 : list B) :
  length a1 = length b1 ->
  combine (a1 ++ a2) (b1 ++ b2) = combine a1 b1 ++ combine a2 b2.
Proof.
  revert b1. induction a1 as [| x a1 IH]; intros [| y b1] H;
    try discriminate; [ reflexivity |].
  cbn [app combine]. cbn [length] in H. injection H as H.
  now rewrite IH.
Qed.

Lemma pairs_app {A} (R : A -> A -> Prop) l1 l2 :
  ForallOrdPairs R l1 -> ForallOrdPairs R l2 ->
  (forall x y, In x l1 -> In y l2 -> R x y) ->
  ForallOrdPairs R (l1 ++ l2).
Proof.
  intros H1 H2 C. induction H1 as [| x l F _ IH]; [ exact H2 |].
  cbn [app]. constructor.
  - apply Forall_app. split; [ exact F |].
    apply Forall_forall. intros y Hy. apply C; [ now left | exact Hy ].
  - apply IH. intros a b Ha Hb. apply C; [ now right | exact Hb ].
Qed.

Lemma pairs_flagged {A} (R : A -> A -> Prop) flags l :
  ForallOrdPairs R l ->
  ForallOrdPairs
    (fun bx by_ => fst bx = true -> fst by_ = true -> R (snd bx) (snd by_))
    (combine flags l).
Proof.
  intro H. revert flags. induction H as [| x l F _ IH]; intros [| b flags];
    try constructor.
  - apply Forall_forall. intros [b' y] I _ _. cbn [snd].
    rewrite Forall_forall in F. apply F. eapply in_combine_r. exact I.
  - apply IH.
Qed.

End EditPairFacts.

(** X2. No two of the edits of one file share a byte: the 24 fields at
    fixed offsets and the user id, record id and description of variable
    length records. It takes a header of at least 227 bytes, and of at
    least 235 bytes when the start of the waveform data is set: that field
    lies at offset 227, where the records of a shorter header begin. *)
Theorem header_edits_disjoint
    (U8_CLAMP U16_CLAMP U32_CLAMP : Z -> Z) (h : LAS.LASheader)
    (e : Edit.header_edits) (v : Locator.vlr_edits) :
  LAS.wf_header h ->
  Edit.covers_edits h e ->
  Patch.disjoint_ranges
    (map Patch.range_of
       (Patch.corrections (Edit.edit_ops U8_CLAMP U16_CLAMP U32_CLAMP h e v))).
Proof.
  intros W [H227 H235].
  set (pu := Locator.record_start h (Z.to_nat (Locator.set_vlr_user_id_index v))).
  set (pr := Locator.record_start h (Z.to_nat (Locator.set_vlr_record_id_index v))).
  set (pd := Locator.record_start h (Z.to_nat (Locator.set_vlr_description_index v))).
  destruct (DisjointFacts.vlr_edit_fills h (Locator.set_vlr_user_id_index v)
              (Locator.NewUserId (Locator.set_vlr_user_id v)) W) as [b1 F1].
  destruct (DisjointFacts.vlr_edit_fills h (Locator.set_vlr_record_id_index v)
              (Locator.NewRecordId (Locator.set_vlr_record_id v)) W) as [b2 F2].
  destruct (DisjointFacts.vlr_edit_fills h (Locator.set_vlr_description_index v)
              (Locator.NewDescription (Locator.set_vlr_description v)) W) as [b3 F3].
  cbn [Locator.field_of Locator.sub_offset Locator.field_width] in F1, F2, F3.
  fold pu in F1. fold pr in F2. fold pd in F3.
  assert (Hvlr :
    map Patch.range_of (Patch.corrections (Locator.vlr_edit_ops h v))
    = Patch.keep [b1; b2; b3]
        [(pu + 2, pu + 2 + 16); (pr + 18, pr + 18 + 2); (pd + 22, pd + 22 + 32)]
    /\ Patch.seek_led (Locator.vlr_edit_ops h v)).
  { unfold Locator.vlr_edit_ops.
    destruct F3 as [R3 S3].
    destruct (DisjointFacts.fills_app _ _ _ _ _ _ F2 R3 S3) as [R23 S23].
    exact (DisjointFacts.fills_app _ _ _ _ _ _ F1 R23 S23). }
  destruct Hvlr as [Rv Sv].
  destruct (SlotFacts.slots_ranges _
              (SlotFacts.slots_nonempty U8_CLAMP U16_CLAMP U32_CLAMP e))
    as [Rf _].
  rewrite SlotFacts.slots_fixed_ranges in Rf.
  unfold Edit.edit_ops.
  rewrite PatchFacts.corrections_app by assumption.
  rewrite map_app. unfold Edit.fixed_edit_ops. rewrite Rf, Rv.
  rewrite <- EditPairFacts.keep_app by reflexivity.
  unfold Patch.disjoint_ranges. apply PatchFacts.keep_pairs.
  rewrite EditPairFacts.combine_app by reflexivity.
  pose proof (DisjointFacts.record_start_ge h
                (Z.to_nat (Locator.set_vlr_user_id_index v)) W) as Gu.
  pose proof (DisjointFacts.record_start_ge h
                (Z.to_nat (Locator.set_vlr_record_id_index v)) W) as Gr.
  pose proof (DisjointFacts.record_start_ge h
                (Z.to_nat (Locator.set_vlr_description_index v)) W) as Gd.
  pose proof (DisjointFacts.record_start_apart h
                (Z.to_nat (Locator.set_vlr_user_id_index v))
                (Z.to_nat (Locator.set_vlr_record_id_index v)) W) as Aur.
  pose proof (DisjointFacts.record_start_apart h
                (Z.to_nat (Locator.set_vlr_user_id_index v))
                (Z.to_nat (Locator.set_vlr_description_index v)) W) as Aud.
  pose proof (DisjointFacts.record_start_apart h
                (Z.to_nat (Locator.set_vlr_record_id_index v))
                (Z.to_nat (Locator.set_vlr_description_index v)) W) as Ard.
  fold pu in Gu, Aur, Aud. fold pr in Gr, Aur, Ard. fold pd in Gd, Aud, Ard.
  apply EditPairFacts.pairs_app.
  - apply (EditPairFacts.pairs_flagged
             (fun r1 r2 => ~ Patch.shares_byte r1 r2)).
    apply SlotFacts.fixed_ranges_apart.
  - cbn [combine].
    repeat (constructor; [ repeat constructor |]); try constructor;
      cbn [fst snd]; intros _ _; apply PatchFacts.not_shares_byte; lia.
  - intros x y Hx Hy Tx Ty.
    assert (Bx : 4 <= fst (snd x) /\ snd (snd x) <= Z.max 227 (LAS.header_size h)).
    { revert Tx. unfold Edit.slots, Edit.fixed_ranges in Hx.
      cbn [map combine In] in Hx.
      repeat (destruct Hx as [Hx | Hx]; [ subst x; cbn [fst snd]; intros; lia |]).
      destruct Hx as [Hx | []]. subst x. cbn [fst snd Edit.requested].
      intro T. apply negb_true_iff, Z.eqb_neq in T. specialize (H235 T). lia. }
    assert (By_ : LAS.header_size h + 2 <= fst (snd y)).
    { cbn [combine In] in Hy.
      repeat (destruct Hy as [Hy | Hy]; [ subst y; cbn [fst snd]; lia |]).
      destruct Hy. }
    destruct x as [bx [x1 x2]], y as [by_ [y1 y2]]. cbn [fst snd] in *.
    apply PatchFacts.not_shares_byte. lia.
Qed.

Lemma header_edits_disjoint_witness :
  map Patch.range_of
    (Patch.corrections
       (Edit.edit_ops (MoreSamples.clamp 255) (MoreSamples.clamp 65535)
          (MoreSamples.clamp 4294967295) Samples.header_3_vlrs
          MoreSamples.sample_edits Samples.three_edits))
  = [(104, 105); (107, 111); (179, 227); (229, 245); (309, 311); (367, 399)]
  /\ Patch.disjoint_ranges
       (map Patch.range_of
          (Patch.corrections
             (Edit.edit_ops (MoreSamples.clamp 255) (MoreSamples.clamp 65535)
                (MoreSamples.clamp 4294967295) Samples.header_3_vlrs
                MoreSamples.sample_edits Samples.three_edits))).
Proof.
  split.
  - vm_compute. reflexivity.
  - apply header_edits_disjoint.
    + exact SamplesFacts.header_3_vlrs_wf.
    + split; [ simpl; lia | intro H; exfalso; apply H; reflexivity ].
Defined.

(** X3. The header that a reader parses from the edited file holds what
    the options gave: the minor version, the header size, the number of
    variable length records and the legacy counts as the low bytes of the
    value given, the point data format as the low byte of its clamp; a
    count that was not given (-1) reads as before the edit. *)
Theorem header_edits_read_back
    (U8_CLAMP U16_CLAMP U32_CLAMP : Z -> Z) (e : Edit.header_edits)
    (f : Bytes.file) :
  let h' :=
    LAS.read_header
      (Bytes.run_ops (Edit.fixed_edit_ops U8_CLAMP U16_CLAMP U32_CLAMP e) f) in
  (Edit.set_version_minor e <> -1 ->
   LAS.version_minor h' = Edit.set_version_minor e mod 2 ^ 8)
  /\ (Edit.set_header_size e <> 0 ->
      LAS.header_size h' = Edit.set_header_size e mod 2 ^ 16)
  /\ (Edit.set_number_of_variable_length_records e <> -1 ->
      LAS.number_of_variable_length_records h'
      = Edit.set_number_of_variable_length_records e mod 2 ^ 32)
  /\ (Edit.set_point_data_format e <> -1 ->
      LAS.point_data_format h'
      = U8_CLAMP (Edit.set_point_data_format e) mod 2 ^ 8)
  /\ (Edit.set_number_of_point_records e <> -1 ->
      LAS.number_of_point_records h'
      = Edit.set_number_of_point_records e mod 2 ^ 32)
  /\ (Edit.set_number_of_point_records e = -1 ->
      LAS.number_of_point_records h'
      = LAS.number_of_point_records (LAS.read_header f))
  /\ (forall k, (k < 5)%nat ->
        Edit.set_number_of_points_by_return e k <> -1 ->
        nth k (LAS.number_of_points_by_return h') 0
        = Edit.set_number_of_points_by_return e k mod 2 ^ 32)
  /\ (forall k, (k < 5)%nat ->
        Edit.set_number_of_points_by_return e k = -1 ->
        nth k (LAS.number_of_points_by_return h') 0
        = nth k (LAS.number_of_points_by_return (LAS.read_header f)) 0).
Proof.
  intro h'. unfold h'. clear h'.
  repeat split.
  - intro H. cbn [LAS.version_minor LAS.read_header].
    eapply (EditFacts.field_uint _ _ _ e f _ [] []);
      [ EditFacts.nth_slot 4%nat | EditFacts.is_requested H
      | reflexivity | reflexivity ].
  - intro H. cbn [LAS.header_size LAS.read_header].
    eapply (EditFacts.field_uint _ _ _ e f _ [] []);
      [ EditFacts.nth_slot 9%nat | EditFacts.is_requested H
      | reflexivity | reflexivity ].
  - intro H. cbn [LAS.number_of_variable_length_records LAS.read_header].
    eapply (EditFacts.field_uint _ _ _ e f _ [] []);
      [ EditFacts.nth_slot 11%nat | EditFacts.is_requested H
      | reflexivity | reflexivity ].
  - intro H. cbn [LAS.point_data_format LAS.read_header].
    eapply (EditFacts.field_uint _ _ _ e f _ [] []);
      [ EditFacts.nth_slot 12%nat | EditFacts.is_requested H
      | reflexivity | reflexivity ].
  - intro H. cbn [LAS.number_of_point_records LAS.read_header].
    eapply (EditFacts.field_uint _ _ _ e f _ [] []);
      [ EditFacts.nth_slot 14%nat | EditFacts.is_requested H
      | reflexivity | reflexivity ].
  - intro H. cbn [LAS.number_of_point_records LAS.read_header].
    apply EditFacts.field_kept. intros s I R k Hk.
    revert R. unfold Edit.slots in I. cbn [In] in I.
    repeat (destruct I as [I | I];
            [ subst s; intro R; EditFacts.other_slot H R |]).
    destruct I.
  - intros k Hk H. cbn [LAS.number_of_points_by_return LAS.read_header].
    rewrite BlockFacts.read_uints_nth by assumption.
    destruct k as [| [| [| [| [| k]]]]]; try lia;
      cbn [Z.of_nat Z.mul Z.add Pos.of_succ_nat Pos.succ Pos.mul Pos.add].
    + eapply (EditFacts.field_uint _ _ _ e f _ [] []);
        [ EditFacts.nth_slot 15%nat | EditFacts.is_requested H
        | reflexivity | reflexivity ].
    + eapply (EditFacts.field_uint _ _ _ e f _ [] []);
        [ EditFacts.nth_slot 16%nat | EditFacts.is_requested H
        | reflexivity | reflexivity ].
    + eapply (EditFacts.field_uint _ _ _ e f _ [] []);
        [ EditFacts.nth_slot 17%nat | EditFacts.is_requested H
        | reflexivity | reflexivity ].
    + eapply (EditFacts.field_uint _ _ _ e f _ [] []);
        [ EditFacts.nth_slot 18%nat | EditFacts.is_requested H
        | reflexivity | reflexivity ].
    + eapply (EditFacts.field_uint _ _ _ e f _ [] []);
        [ EditFacts.nth_slot 19%nat | EditFacts.is_requested H
        | reflexivity | reflexivity ].
  - intros k Hk H. cbn [LAS.number_of_points_by_return LAS.read_header].
    rewrite !BlockFacts.read_uints_nth by assumption.
    apply EditFacts.field_kept. intros s I R j Hj.
    revert R. unfold Edit.slots in I. cbn [In] in I.
    destruct k as [| [| [| [| [| k]]]]]; try lia;
      repeat (destruct I as [I | I];
              [ subst s; intro R; EditFacts.other_slot H R |]);
      destruct I.
Qed.

Lemma header_edits_read_back_witness :
  let h' :=
    LAS.read_header
      (Bytes.run_ops
         (Edit.fixed_edit_ops (MoreSamples.clamp 255) (MoreSamples.clamp 65535)
            (MoreSamples.clamp 4294967295) MoreSamples.sample_edits)
         (Samples.file_of_header Samples.header_12)) in
  LAS.point_data_format h' = 3 /\ LAS.number_of_point_records h' = 95.
Proof.
  destruct (header_edits_read_back (MoreSamples.clamp 255)
              (MoreSamples.clamp 65535) (MoreSamples.clamp 4294967295)
              MoreSamples.sample_edits
              (Samples.file_of_header Samples.header_12))
    as [_ [_ [_ [F [C _]]]]].
  split.
  - apply F. discriminate.
  - apply C. discriminate.
Defined.

Module EditDoubleFacts.
Import LAS Patch Bytes Edit.

Ltac read_double H k pre post :=
  eapply (EditFacts.field_F64 _ _ _ _ _ _ pre post);
  [ EditFacts.nth_slot k
  | cbn [requested fst]; rewrite H; reflexivity
  | cbn [slot_writes snd]; rewrite H; reflexivity
  | reflexivity ].

Section Clamped.
Variables U8_CLAMP U16_CLAMP U32_CLAMP : Z -> Z.

Lemma bounding_box_read_back e f bb :
  set_bounding_box e = Some bb ->
  let h' := read_header (run_ops (fixed_edit_ops U8_CLAMP U16_CLAMP U32_CLAMP e) f) in
  max_x h' = bb 0%nat /\ min_x h' = bb 1%nat
  /\ max_y h' = bb 2%nat /\ min_y h' = bb 3%nat
  /\ max_z h' = bb 4%nat /\ min_z h' = bb 5%nat.
Proof.
  intros H h'. unfold h'. clear h'.
  cbn [max_x min_x max_y min_y max_z min_z read_header].
  repeat split.
  - read_double H 22%nat (@nil Z)
      (data_bytes (map DF64 [bb 1; bb 2; bb 3; bb 4; bb 5]%nat)).
  - read_double H 22%nat (data_bytes (map DF64 [bb 0%nat]))
      (data_bytes (map DF64 [bb 2; bb 3; bb 4; bb 5]%nat)).
  - read_double H 22%nat (data_bytes (map DF64 [bb 0; bb 1]%nat))
      (data_bytes (map DF64 [bb 3; bb 4; bb 5]%nat)).
  - read_double H 22%nat (data_bytes (map DF64 [bb 0; bb 1; bb 2]%nat))
      (data_bytes (map DF64 [bb 4; bb 5]%nat)).
  - read_double H 22%nat (data_bytes (map DF64 [bb 0; bb 1; bb 2; bb 3]%nat))
      (data_bytes (map DF64 [bb 5%nat])).
  - read_double H 22%nat (data_bytes (map DF64 [bb 0; bb 1; bb 2; bb 3; bb 4]%nat))
      (@nil Z).
Qed.

Lemma scale_read_back e f sc :
  set_scale e = Some sc ->
  let h' := read_header (run_ops (fixed_edit_ops U8_CLAMP U16_CLAMP U32_CLAMP e) f) in
  x_scale_factor h' = sc 0%nat /\ y_scale_factor h' = sc 1%nat
  /\ z_scale_factor h' = sc 2%nat.
Proof.
  intros H h'. unfold h'. clear h'.
  cbn [x_scale_factor y_scale_factor z_scale_factor read_header].
  repeat split.
  - read_double H 20%nat (@nil Z) (data_bytes (map DF64 [sc 1; sc 2]%nat)).
  - read_double H 20%nat (data_bytes (map DF64 [sc 0%nat]))
      (data_bytes (map DF64 [sc 2%nat])).
  - read_double H 20%nat (data_bytes (map DF64 [sc 0; sc 1]%nat)) (@nil Z).
Qed.

Lemma offset_read_back e f off :
  set_offset e = Some off ->
  let h' := read_header (run_ops (fixed_edit_ops U8_CLAMP U16_CLAMP U32_CLAMP e) f) in
  x_offset h' = off 0%nat /\ y_offset h' = off 1%nat /\ z_offset h' = off 2%nat.
Proof.
  intros H h'. unfold h'. clear h'.
  cbn [x_offset y_offset z_offset read_header].
  repeat split.
  - read_double H 21%nat (@nil Z) (data_bytes (map DF64 [off 1; off 2]%nat)).
  - read_double H 21%nat (data_bytes (map DF64 [off 0%nat]))
      (data_bytes (map DF64 [off 2%nat])).
  - read_double H 21%nat (data_bytes (map DF64 [off 0; off 1]%nat)) (@nil Z).
Qed.

End Clamped.

End EditDoubleFacts.

(** X4. The doubles that [-set_scale], [-set_offset] and
    [-set_bounding_box] give are the doubles a reader parses from the
    edited file, bit for bit; the six numbers of
    [-set_bounding_box min_x min_y min_z max_x max_y max_z] arrive in the
    header fields of these names, although the file stores them in the
    order max x, min x, max y, min y, max z, min z. *)
Theorem header_doubles_read_back
    (U8_CLAMP U16_CLAMP U32_CLAMP : Z -> Z) (e : Edit.header_edits)
    (f : Bytes.file) :
  let h' :=
    LAS.read_header
      (Bytes.run_ops (Edit.fixed_edit_ops U8_CLAMP U16_CLAMP U32_CLAMP e) f) in
  (forall a1 a2 a3 a4 a5 a6,
     Edit.set_bounding_box e
     = Some (Edit.parse_set_bounding_box a1 a2 a3 a4 a5 a6) ->
     LAS.min_x h' = a1 /\ LAS.min_y h' = a2 /\ LAS.min_z h' = a3
     /\ LAS.max_x h' = a4 /\ LAS.max_y h' = a5 /\ LAS.max_z h' = a6)
  /\ (forall bb,
        Edit.set_bounding_box e = Some bb ->
        Check.header_box h' = Edit.array 6 bb)
  /\ (forall sc,
        Edit.set_scale e = Some sc ->
        [LAS.x_scale_factor h'; LAS.y_scale_factor h'; LAS.z_scale_factor h']
        = Edit.array 3 sc)
  /\ (forall off,
        Edit.set_offset e = Some off ->
        [LAS.x_offset h'; LAS.y_offset h'; LAS.z_offset h'] = Edit.array 3 off).
Proof.
  intro h'. unfold h'. clear h'. repeat split.
  all: try (destruct (EditDoubleFacts.bounding_box_read_back
                        U8_CLAMP U16_CLAMP U32_CLAMP e f _ H)
              as [M0 [M1 [M2 [M3 [M4 M5]]]]]; cbn beta zeta in *;
            first [ exact M0 | exact M1 | exact M2 | exact M3 | exact M4
                  | exact M5 ]).
  - intros bb H.
    destruct (EditDoubleFacts.bounding_box_read_back
                U8_CLAMP U16_CLAMP U32_CLAMP e f bb H)
      as [M0 [M1 [M2 [M3 [M4 M5]]]]]; cbn beta zeta in *.
    unfold Check.header_box. rewrite M0, M1, M2, M3, M4, M5. reflexivity.
  - intros sc H.
    destruct (EditDoubleFacts.scale_read_back
                U8_CLAMP U16_CLAMP U32_CLAMP e f sc H) as [M0 [M1 M2]];
      cbn beta zeta in *.
    rewrite M0, M1, M2. reflexivity.
  - intros off H.
    destruct (EditDoubleFacts.offset_read_back
                U8_CLAMP U16_CLAMP U32_CLAMP e f off H) as [M0 [M1 M2]];
      cbn beta zeta in *.
    rewrite M0, M1, M2. reflexivity.
Qed.

Lemma header_doubles_read_back_witness :
  let h' :=
    LAS.read_header
      (Bytes.run_ops
         (Edit.fixed_edit_ops (MoreSamples.clamp 255) (MoreSamples.clamp 65535)
            (MoreSamples.clamp 4294967295) MoreSamples.sample_edits)
         (Samples.file_of_header Samples.header_12)) in
  LAS.min_x h' = 0%float /\ LAS.min_y h' = 0%float /\ LAS.min_z h' = 0%float
  /\ LAS.max_x h' = 10%float /\ LAS.max_y h' = 20%float
  /\ LAS.max_z h' = 5%float.
Proof.
  destruct (header_doubles_read_back (MoreSamples.clamp 255)
              (MoreSamples.clamp 65535) (MoreSamples.clamp 4294967295)
              MoreSamples.sample_edits
              (Samples.file_of_header Samples.header_12))
    as [B _].
  exact (B 0%float 0%float 0%float 10%float 20%float 5%float eq_refl).
Defined.

(** X5. [-scale_header fx fy fz] multiplies the scale factor, the offset
    and both ends of the bounding box of each axis by the factor of the
    axis: the header that is parsed after the edit holds the products,
    computed in doubles from the header that was parsed before it. The
    arrays of [-set_scale], [-set_offset] and [-set_bounding_box] are
    replaced by the products; the code reports an error when one of them
    was given. *)
Theorem scale_header_read_back
    (U8_CLAMP U16_CLAMP U32_CLAMP : Z -> Z) (e : Edit.header_edits)
    (scale_header : nat -> float) (f : Bytes.file) :
  let h := LAS.read_header f in
  let h' :=
    LAS.read_header
      (Bytes.run_ops
         (Edit.fixed_edit_ops U8_CLAMP U16_CLAMP U32_CLAMP
            (Edit.scale_header_edits h scale_header e)) f) in
  ([LAS.x_scale_factor h'; LAS.y_scale_factor h'; LAS.z_scale_factor h']
   = [LAS.x_scale_factor h * scale_header 0%nat;
      LAS.y_scale_factor h * scale_header 1%nat;
      LAS.z_scale_factor h * scale_header 2%nat])%float
  /\ ([LAS.x_offset h'; LAS.y_offset h'; LAS.z_offset h']
      = [LAS.x_offset h * scale_header 0%nat;
         LAS.y_offset h * scale_header 1%nat;
         LAS.z_offset h * scale_header 2%nat])%float
  /\ (Check.header_box h'
      = [LAS.max_x h * scale_header 0%nat; LAS.min_x h * scale_header 0%nat;
         LAS.max_y h * scale_header 1%nat; LAS.min_y h * scale_header 1%nat;
         LAS.max_z h * scale_header 2%nat; LAS.min_z h * scale_header 2%nat])%float.
Proof.
  intros h h'. unfold h'. clear h'.
  set (e' := Edit.scale_header_edits h scale_header e).
  split; [| split ].
  - destruct (EditDoubleFacts.scale_read_back
                U8_CLAMP U16_CLAMP U32_CLAMP e' f _ eq_refl) as [M0 [M1 M2]];
      cbn beta zeta in *.
    rewrite M0, M1, M2. reflexivity.
  - destruct (EditDoubleFacts.offset_read_back
                U8_CLAMP U16_CLAMP U32_CLAMP e' f _ eq_refl) as [M0 [M1 M2]];
      cbn beta zeta in *.
    rewrite M0, M1, M2. reflexivity.
  - destruct (EditDoubleFacts.bounding_box_read_back
                U8_CLAMP U16_CLAMP U32_CLAMP e' f _ eq_refl)
      as [M0 [M1 [M2 [M3 [M4 M5]]]]]; cbn beta zeta in *.
    unfold Check.header_box. rewrite M0, M1, M2, M3, M4, M5. reflexivity.
Qed.

(** ** What a run writes, and which points it reads *)

Module WriteFacts.
Import LAS Patch Check Run.

Lemma no_write_existsb t :
  forallb no_write t = true -> existsb is_write t = false.
Proof.
  induction t as [| e t IH]; [ reflexivity |].
  cbn [forallb existsb]. unfold no_write at 1. intro H.
  apply andb_true_iff in H. destruct H as [H1 H2].
  apply negb_true_iff in H1. rewrite H1. now apply IH.
Qed.

Lemma reports_write_nothing ms : existsb is_write (map Reported ms) = false.
Proof. induction ms; [ reflexivity | assumption ]. Qed.

Lemma check_phase_writes c o h s :
  existsb is_write (check_phase c o h s) = true ->
  check_points c = true /\ repair_bb o || repair_counters o = true.
Proof.
  intro H. unfold check_phase in H.
  destruct (check_points c); [| discriminate ].
  split; [ reflexivity |].
  destruct (repair_bb o) eqn:B; [ reflexivity |].
  destruct (repair_counters o) eqn:C; [ reflexivity |].
  exfalso. unfold events_of in H.
  rewrite (RunFacts.check_header_no_repair o (stack c) h s B C) in H.
  cbn [map app] in H. rewrite reports_write_nothing in H. discriminate.
Qed.

Lemma check_phase_off c o h s :
  existsb is_write (check_phase c (without_repair o) h s) = false.
Proof.
  destruct (existsb is_write (check_phase c (without_repair o) h s)) eqn:E;
    [| reflexivity ].
  apply check_phase_writes in E. destruct E as [_ E]. discriminate E.
Qed.

Lemma reopen_writes c i o h s :
  existsb is_write (reopen c i o h s) = true ->
  reopen_ok i = true /\ check_points c = true
  /\ repair_bb o || repair_counters o = true.
Proof.
  unfold reopen. cbn [existsb is_write orb].
  destruct (reopen_ok i).
  - intro H. apply check_phase_writes in H. tauto.
  - unfold laserror. cbn [existsb is_write orb].
    destruct (halt_on_error c); [ discriminate |].
    rewrite check_phase_off. discriminate.
Qed.

Lemma reopen_off c i o h s :
  existsb is_write (reopen c i (without_repair o) h s) = false.
Proof.
  destruct (existsb is_write (reopen c i (without_repair o) h s)) eqn:E;
    [| reflexivity ].
  apply reopen_writes in E. destruct E as [_ [_ E]]. discriminate E.
Qed.

Lemma refused_repair_writes_nothing c i o h s why :
  existsb is_write
    (laserror (halt_on_error c) why (reopen c i (without_repair o) h s)) = false.
Proof.
  unfold laserror. cbn [existsb is_write orb].
  destruct (halt_on_error c); [ reflexivity | apply reopen_off ].
Qed.

Lemma repair_gate_writes c i h s :
  existsb is_write (repair_gate c i h s) = true ->
  reopen_ok i = true
  /\ is_piped i || is_merged i || is_buffered i = false
  /\ check_points c && (repair_bb (opts c) || repair_counters (opts c))
     && is_las_or_laz i = true.
Proof.
  unfold repair_gate.
  destruct (repair_bb (opts c) || repair_counters (opts c)) eqn:R.
  - destruct (is_piped i);
      [ rewrite refused_repair_writes_nothing; discriminate |].
    destruct (is_merged i);
      [ rewrite refused_repair_writes_nothing; discriminate |].
    destruct (is_buffered i);
      [ rewrite refused_repair_writes_nothing; discriminate |].
    destruct (is_las_or_laz i); cbn [negb];
      [| rewrite refused_repair_writes_nothing; discriminate ].
    intro H. apply reopen_writes in H. destruct H as [H1 [H2 H3]].
    rewrite H1, H2. auto.
  - intro H. apply check_phase_writes in H. destruct H as [_ H].
    rewrite R in H. discriminate.
Qed.

Section Reads.
Variable point : Type.
Variable lassummary_add : LASsummary -> point -> LASsummary.

Lemma reads_write_nothing t :
  Forall (fun e => e = ReadPoint) t -> existsb is_write t = false.
Proof.
  intro H. apply no_write_existsb. now apply GateFacts.reads_no_write.
Qed.

Lemma read_and_check_writes c i h pts :
  existsb is_write (read_and_check point lassummary_add c i h pts) = true ->
  reopen_ok i = true
  /\ is_piped i || is_merged i || is_buffered i = false
  /\ check_points c && (repair_bb (opts c) || repair_counters (opts c))
     && is_las_or_laz i = true.
Proof.
  unfold read_and_check. rewrite existsb_app.
  rewrite (reads_write_nothing _ (RunFacts.read_pass_reads point lassummary_add c pts)).
  cbn [orb existsb is_write]. apply repair_gate_writes.
Qed.

Lemma edit_phase_writes ops c i rest :
  existsb is_write (FullRun.edit_phase ops c i rest) = true ->
  existsb is_write rest = true
  \/ (reopen_ok i = true
      /\ is_piped i || is_merged i || is_buffered i = false
      /\ edit_header c && name_is_las_or_laz i = true).
Proof.
  unfold FullRun.edit_phase, laserror.
  destruct (edit_header c); [| auto ].
  destruct (is_piped i), (is_merged i), (is_buffered i),
    (name_is_las_or_laz i), (reopen_ok i), (halt_on_error c);
    cbn [existsb is_write orb app map andb]; intro H;
    try discriminate H; auto;
    rewrite ?existsb_app in H; cbn [existsb is_write orb] in H; auto.
Qed.

(** The points that enter the summary. *)
Lemma read_loop_summary pts p stop acc :
  snd (read_loop point lassummary_add pts p stop acc)
  = fold_left lassummary_add (firstn (Z.to_nat (stop - p)) pts) acc.
Proof.
  revert p acc. induction pts as [| x pts IH]; intros p acc.
  - now rewrite firstn_nil.
  - cbn [read_loop]. destruct (Z.ltb_spec stop (p + 1)) as [H | H].
    + replace (Z.to_nat (stop - p)) with 0%nat by lia. reflexivity.
    + cbn [snd]. rewrite IH.
      replace (Z.to_nat (stop - p)) with (S (Z.to_nat (stop - (p + 1)))) by lia.
      reflexivity.
Qed.

Lemma read_loop_count pts p stop acc :
  length (fst (read_loop point lassummary_add pts p stop acc))
  = Nat.min (length pts) (S (Z.to_nat (stop - p))).
Proof.
  revert p acc. induction pts as [| x pts IH]; intros p acc.
  - reflexivity.
  - cbn [read_loop]. destruct (Z.ltb_spec stop (p + 1)) as [H | H].
    + replace (Z.to_nat (stop - p)) with 0%nat by lia.
      cbn [fst length Nat.min]. now rewrite Nat.min_0_r.
    + cbn [fst length]. rewrite IH.
      replace (Z.to_nat (stop - p)) with (S (Z.to_nat (stop - (p + 1)))) by lia.
      reflexivity.
Qed.

End Reads.

End WriteFacts.

(** X6. A run writes to the input file only when it was opened for
    update, the input is neither piped nor merged nor buffered, and either
    a header edit is requested for a file with a LAS or LAZ name, or a
    repair is requested, with the check of the points on, for a LAS or
    LAZ file. In every other run no [fwrite] or [fputc] is called,
    whatever the calls of the edit are. *)
Theorem write_needs_request
    (point : Type) (lassummary_add : LAS.LASsummary -> point -> LAS.LASsummary)
    (ops : list Patch.fileop)
    (c : Run.settings) (i : Run.input) (h : LAS.LASheader) (pts : list point) :
  existsb Run.is_write (FullRun.run point lassummary_add ops c i h pts) = true ->
  Run.reopen_ok i = true
  /\ Run.is_piped i || Run.is_merged i || Run.is_buffered i = false
  /\ (Run.edit_header c && Run.name_is_las_or_laz i)
     || (Run.check_points c
         && (Check.repair_bb (Run.opts c) || Check.repair_counters (Run.opts c))
         && Run.is_las_or_laz i) = true.
Proof.
  intro H. unfold FullRun.run in H.
  apply WriteFacts.edit_phase_writes in H. destruct H as [H | [H1 [H2 H3]]].
  - apply WriteFacts.read_and_check_writes in H. destruct H as [H1 [H2 H3]].
    rewrite H3, orb_true_r. auto.
  - rewrite H3. auto.
Qed.

Lemma write_needs_request_witness :
  Run.reopen_ok MoreSamples.regular_input = true
  /\ Run.is_piped MoreSamples.regular_input
     || Run.is_merged MoreSamples.regular_input
     || Run.is_buffered MoreSamples.regular_input = false
  /\ (Run.edit_header (Samples.repair_run false)
      && Run.name_is_las_or_laz MoreSamples.regular_input)
     || (Run.check_points (Samples.repair_run false)
         && (Check.repair_bb (Run.opts (Samples.repair_run false))
             || Check.repair_counters (Run.opts (Samples.repair_run false)))
         && Run.is_las_or_laz MoreSamples.regular_input) = true.
Proof.
  apply (write_needs_request unit Samples.count_point []
           (Samples.repair_run false)
           MoreSamples.regular_input Samples.header_12 [tt; tt]).
  vm_compute. reflexivity.
Defined.

(** X7. With [-start_at_point] and [-stop_at_point] (or [-subseq]) the
    summary holds exactly the points of the stream with index from start
    up to, but not including, stop; the loop reads one point more than it
    adds when the stream goes on, so with stop at or below start one point
    is read and none is added. *)
Theorem subsequence_is_half_open
    (point : Type) (lassummary_add : LAS.LASsummary -> point -> LAS.LASsummary)
    (c : Run.settings) (pts : list point) :
  Run.check_points c = true ->
  let start := Z.to_nat (Run.subsequence_start c) in
  let count := Z.to_nat (Run.subsequence_stop c - Run.subsequence_start c) in
  snd (Run.read_pass point lassummary_add c pts)
  = fold_left lassummary_add (firstn count (skipn start pts)) Run.empty_summary
  /\ length (fst (Run.read_pass point lassummary_add c pts))
     = Nat.min (length pts - start) (S count).
Proof.
  intros H start count. unfold Run.read_pass. rewrite H. split.
  - apply WriteFacts.read_loop_summary.
  - rewrite WriteFacts.read_loop_count, length_skipn. reflexivity.
Qed.

Lemma subsequence_is_half_open_witness :
  LAS.sum_number_of_point_records
    (snd (Run.read_pass unit Samples.count_point MoreSamples.subsequence_run
            [tt; tt; tt; tt; tt])) = 2
  /\ length (fst (Run.read_pass unit Samples.count_point
                    MoreSamples.subsequence_run [tt; tt; tt; tt; tt])) = 3%nat.
Proof.
  destruct (subsequence_is_half_open unit Samples.count_point
              MoreSamples.subsequence_run [tt; tt; tt; tt; tt] eq_refl)
    as [S L].
  split.
  - rewrite S. reflexivity.
  - rewrite L. reflexivity.
Defined.

(** ** The checks: what is reported against what is written *)

Module ReportFacts.
Import LAS Patch Check.

Lemma check_header_report o stack h s :
  snd (check_header o stack h s)
  = snd (check_number_of_point_records o h s)
    ++ snd (check_extended_number_of_point_records o h s)
    ++ snd (check_number_of_points_by_return o stack h s)
    ++ snd (check_extended_number_of_points_by_return o h s)
    ++ snd (check_bounding_box o h s).
Proof.
  unfold check_header, check_counters, both. cbn [fst snd].
  now rewrite <- !app_assoc.
Qed.

(** The array and the flag of the loop over the returns do not depend on
    the options, nor on the report so far. *)
Lemma by_return_state_indep o o' h s l st st' :
  br_array st = br_array st' ->
  br_wrong_entry st = br_wrong_entry st' ->
  br_array (fold_left (by_return_step o h s) l st)
  = br_array (fold_left (by_return_step o' h s) l st')
  /\ br_wrong_entry (fold_left (by_return_step o h s) l st)
     = br_wrong_entry (fold_left (by_return_step o' h s) l st').
Proof.
  revert st st'. induction l as [| i l IH]; intros st st' A W; [ now split |].
  cbn [fold_left]. apply IH.
  - rewrite !ReturnFacts.by_return_step_array, A. reflexivity.
  - rewrite !ReturnFacts.by_return_step_wrong, W. reflexivity.
Qed.

Lemma ext_by_return_state_indep o o' h s l st st' :
  br_array st = br_array st' ->
  br_wrong_entry st = br_wrong_entry st' ->
  br_array (fold_left (ext_by_return_step o h s) l st)
  = br_array (fold_left (ext_by_return_step o' h s) l st')
  /\ br_wrong_entry (fold_left (ext_by_return_step o h s) l st)
     = br_wrong_entry (fold_left (ext_by_return_step o' h s) l st').
Proof.
  revert st st'. induction l as [| i l IH]; intros st st' A W; [ now split |].
  cbn [fold_left]. apply IH.
  - rewrite !ReturnFacts.ext_by_return_step_array, A. reflexivity.
  - rewrite !ReturnFacts.ext_by_return_step_wrong, W. reflexivity.
Qed.

Lemma count_ops_indep o o' h s :
  repair_counters o = repair_counters o' ->
  fst (check_number_of_point_records o h s)
  = fst (check_number_of_point_records o' h s).
Proof.
  intro C. unfold check_number_of_point_records. rewrite C.
  destruct ((point_data_format h <? 6)
            && negb (sum_number_of_point_records s =? number_of_point_records h)).
  - destruct (repair_counters o'); [| reflexivity ].
    destruct (sum_number_of_point_records s <=? Mach.U32_MAX); [ reflexivity |].
    destruct (version_minor h <? 4); [ reflexivity |].
    now destruct (negb (number_of_point_records h =? 0)).
  - now destruct ((6 <=? point_data_format h)
                  && negb (number_of_point_records h =? 0)).
Qed.

Lemma ext_count_ops_indep o o' h s :
  repair_counters o = repair_counters o' ->
  fst (check_extended_number_of_point_records o h s)
  = fst (check_extended_number_of_point_records o' h s).
Proof.
  intro C. unfold check_extended_number_of_point_records. rewrite C.
  destruct (3 <? version_minor h); [| reflexivity ].
  now destruct (negb (sum_number_of_point_records s
                      =? Mach.to_I64 (extended_number_of_point_records h))).
Qed.

Lemma by_return_ops_indep o o' stack h s :
  repair_counters o = repair_counters o' ->
  fst (check_number_of_points_by_return o stack h s)
  = fst (check_number_of_points_by_return o' stack h s).
Proof.
  intro C. rewrite !ReturnFacts.by_return_ops, C.
  destruct (by_return_state_indep o o' h s (seq 1 5)
              (mkByReturn (uninitialized stack 5) false [])
              (mkByReturn (uninitialized stack 5) false [])
              eq_refl eq_refl) as [A _].
  rewrite A. reflexivity.
Qed.

Lemma ext_by_return_ops_indep o o' h s :
  repair_counters o = repair_counters o' ->
  fst (check_extended_number_of_points_by_return o h s)
  = fst (check_extended_number_of_points_by_return o' h s).
Proof.
  intro C. rewrite !ReturnFacts.ext_by_return_ops, C.
  destruct (ext_by_return_state_indep o o' h s (seq 1 15)
              (mkByReturn (repeat 0 15) false [])
              (mkByReturn (repeat 0 15) false [])
              eq_refl eq_refl) as [A _].
  rewrite A. reflexivity.
Qed.

Lemma box_ops_indep o o' h s :
  repair_bb o = repair_bb o' ->
  fst (check_bounding_box o h s) = fst (check_bounding_box o' h s).
Proof. intro B. rewrite !HeaderFacts.bounding_box_ops, B. reflexivity. Qed.

(** Without a report stream no line is reported. *)
Lemma say_quiet o c m : file_out o = false -> say (c && file_out o) m = [].
Proof. intro F. rewrite F, andb_false_r. reflexivity. Qed.

Lemma warn_quiet o m :
  file_out o = false -> say (negb (no_warnings o) && file_out o) m = [].
Proof. apply say_quiet. Qed.

Lemma by_return_step_quiet o h s st i :
  file_out o = false ->
  br_report (by_return_step o h s st i) = br_report st.
Proof.
  intro F. unfold by_return_step.
  repeat match goal with
         | |- context [if ?c then _ else _] =>
             lazymatch c with
             | context [was_set] => fail
             | _ => destruct c
             end
         end;
    cbn [br_report]; rewrite ?warn_quiet, ?app_nil_r by assumption;
    reflexivity.
Qed.

Lemma ext_by_return_step_quiet o h s st i :
  file_out o = false ->
  br_report (ext_by_return_step o h s st i) = br_report st.
Proof.
  intro F. unfold ext_by_return_step.
  destruct (negb (Mach.to_I64 (nth (i - 1) (extended_number_of_points_by_return h) 0)
                  =? nth i (sum_number_of_points_by_return s) 0));
    cbn [br_report]; rewrite ?warn_quiet, ?app_nil_r by assumption;
    reflexivity.
Qed.

Lemma fold_quiet step (l : list nat) st :
  (forall st i, br_report (step st i) = br_report st) ->
  br_report (fold_left step l st) = br_report st.
Proof.
  intro H. revert st. induction l as [| i l IH]; intro st; [ reflexivity |].
  cbn [fold_left]. rewrite IH. apply H.
Qed.

Lemma count_quiet o h s :
  file_out o = false -> snd (check_number_of_point_records o h s) = [].
Proof.
  intro F. unfold check_number_of_point_records.
  rewrite F, !andb_false_r.
  repeat match goal with
         | |- context [if ?c then _ else _] => destruct c
         end;
    reflexivity.
Qed.

Lemma ext_count_quiet o h s :
  file_out o = false -> snd (check_extended_number_of_point_records o h s) = [].
Proof.
  intro F. unfold check_extended_number_of_point_records.
  rewrite F, !andb_false_r.
  repeat match goal with
         | |- context [if ?c then _ else _] => destruct c
         end;
    reflexivity.
Qed.

Lemma by_return_quiet o stack h s :
  file_out o = false -> snd (check_number_of_points_by_return o stack h s) = [].
Proof.
  intro F. unfold check_number_of_points_by_return.
  pose proof (fold_quiet (by_return_step o h s) (seq 1 5)
                (mkByReturn (uninitialized stack 5) false [])
                (fun st i => by_return_step_quiet o h s st i F)) as Q.
  cbn [br_report] in Q.
  destruct (repair_counters o); [| exact Q ].
  destruct (br_wrong_entry _); cbn [snd]; rewrite Q; [ reflexivity |].
  rewrite F. reflexivity.
Qed.

Lemma ext_by_return_quiet o h s :
  file_out o = false ->
  snd (check_extended_number_of_points_by_return o h s) = [].
Proof.
  intro F. unfold check_extended_number_of_points_by_return.
  destruct (3 <? version_minor h); [| reflexivity ].
  pose proof (fold_quiet (ext_by_return_step o h s) (seq 1 15)
                (mkByReturn (repeat 0 15) false [])
                (fun st i => ext_by_return_step_quiet o h s st i F)) as Q.
  cbn [br_report] in Q.
  destruct (repair_counters o); [| exact Q ].
  destruct (br_wrong_entry _); cbn [snd]; rewrite Q; [ reflexivity |].
  rewrite F. reflexivity.
Qed.

Lemma box_quiet o h s :
  file_out o = false -> snd (check_bounding_box o h s) = [].
Proof.
  intro F. unfold check_bounding_box. rewrite F, andb_false_r.
  destruct (repair_bb o).
  - now destruct (box_wrong_entry h s).
  - cbn [snd]. rewrite !andb_false_r. reflexivity.
Qed.

End ReportFacts.

(** X8. What the checks write to the file depends on [-repair_bb] and
    [-repair_counters] only, not on [-no_warnings], on [-quiet] or on the
    report stream: two runs with the same repair switches make the same
    calls on the file. *)
Theorem repairs_ignore_reporting
    (o o' : Check.options) (stack : nat -> Z) (h : LAS.LASheader)
    (s : LAS.LASsummary) :
  Check.repair_bb o = Check.repair_bb o' ->
  Check.repair_counters o = Check.repair_counters o' ->
  fst (Check.check_header o stack h s) = fst (Check.check_header o' stack h s).
Proof.
  intros B C. rewrite !HeaderFacts.check_header_ops.
  rewrite (ReportFacts.count_ops_indep o o' h s C),
    (ReportFacts.ext_count_ops_indep o o' h s C),
    (ReportFacts.by_return_ops_indep o o' stack h s C),
    (ReportFacts.ext_by_return_ops_indep o o' h s C),
    (ReportFacts.box_ops_indep o o' h s B).
  reflexivity.
Qed.

Lemma repairs_ignore_reporting_witness :
  fst (Check.check_header Samples.repair_all Samples.zero_stack
         Samples.header_12 Samples.summary_97)
  = fst (Check.check_header (Check.mkOptions true true true false)
           Samples.zero_stack Samples.header_12 Samples.summary_97).
Proof.
  apply repairs_ignore_reporting; reflexivity.
Defined.

(** X9. Without a report stream ([-quiet]) the checks report nothing: no
    warning and no confirmation, in check-only mode and in repair mode. *)
Theorem quiet_reports_nothing
    (o : Check.options) (stack : nat -> Z) (h : LAS.LASheader)
    (s : LAS.LASsummary) :
  Check.file_out o = false ->
  snd (Check.check_header o stack h s) = [].
Proof.
  intro F. rewrite ReportFacts.check_header_report.
  rewrite (ReportFacts.count_quiet o h s F),
    (ReportFacts.ext_count_quiet o h s F),
    (ReportFacts.by_return_quiet o stack h s F),
    (ReportFacts.ext_by_return_quiet o h s F),
    (ReportFacts.box_quiet o h s F).
  reflexivity.
Qed.

Lemma quiet_reports_nothing_witness :
  snd (Check.check_header (Check.mkOptions true true false false)
         Samples.zero_stack Samples.header_12 Samples.summary_97) = [].
Proof.
  apply quiet_reports_nothing. reflexivity.
Defined.

(** ** The header after the repair *)

Module AfterFacts.
Import LAS Patch Bytes Check.

Lemma exec_local ops a :
  forall p f g, f a = g a ->
  fst (fold_left exec ops (p, f)) = fst (fold_left exec ops (p, g))
  /\ snd (fold_left exec ops (p, f)) a = snd (fold_left exec ops (p, g)) a.
Proof.
  induction ops as [| op ops IH]; intros p f g H; [ now split |].
  destruct op as [q | ds]; cbn [fold_left exec fst snd].
  - now apply IH.
  - apply IH. now apply SlotFacts.store_ext.
Qed.

(** The byte at [a] after the calls depends on the file at [a] only. *)
Lemma run_ops_local ops f g a : f a = g a -> run_ops ops f a = run_ops ops g a.
Proof. intro H. unfold run_ops. now apply exec_local. Qed.

Lemma read_uint_ext f g o n :
  (forall k, (k < n)%nat -> f (o + Z.of_nat k) = g (o + Z.of_nat k)) ->
  read_uint f o n = read_uint g o n.
Proof.
  intro H. unfold read_uint. f_equal.
  apply (nth_ext _ _ 0 0); [ now rewrite !FileFacts.read_bytes_length |].
  intros k Hk. rewrite FileFacts.read_bytes_length in Hk.
  rewrite !FileFacts.read_bytes_nth by assumption. now apply H.
Qed.

Lemma read_F64_ext f g o :
  (forall a, o <= a < o + 8 -> f a = g a) -> read_F64 f o = read_F64 g o.
Proof.
  intro H. unfold read_F64. f_equal. apply read_uint_ext.
  intros k Hk. apply H. lia.
Qed.

Lemma read_bytes_store f p bs : read_bytes (store f p bs) p (length bs) = bs.
Proof.
  apply (EditFacts.read_bytes_inside _ _ _ _ [] []); [| reflexivity ].
  intros k Hk. rewrite FileFacts.store_in by lia.
  cbn [length Nat.add app]. rewrite app_nil_r. f_equal. lia.
Qed.

Lemma read_uint_store f p n v :
  read_uint (store f p (le_bytes n v)) p n = v mod 256 ^ Z.of_nat n.
Proof.
  unfold read_uint.
  rewrite <- (FileFacts.le_bytes_length n v) at 2.
  rewrite read_bytes_store. apply BitsFacts.le_value_le_bytes.
Qed.

Lemma chunks_length (g : Z -> list Z) n l :
  (forall x, length (g x) = n) -> length (flat_map g l) = (length l * n)%nat.
Proof.
  intro H. induction l as [| x l IH]; [ reflexivity |].
  cbn [flat_map length]. rewrite length_app, H, IH. lia.
Qed.

(** Chunk [k] of a sequence of chunks that was stored at [p]. *)
Lemma read_chunk f p (g : Z -> list Z) n l k :
  (forall x, length (g x) = n) -> (k < length l)%nat ->
  read_bytes (store f p (flat_map g l)) (p + Z.of_nat k * Z.of_nat n) n
  = g (nth k l 0).
Proof.
  intros Hg Hk.
  apply (nth_ext _ _ 0 0); [ now rewrite FileFacts.read_bytes_length, Hg |].
  intros r Hr. rewrite FileFacts.read_bytes_length in Hr.
  rewrite FileFacts.read_bytes_nth by assumption.
  rewrite FileFacts.store_in by (rewrite (chunks_length g n) by assumption; nia).
  replace (Z.to_nat (p + Z.of_nat k * Z.of_nat n + Z.of_nat r - p))
    with (k * n + r)%nat by lia.
  now apply BlockFacts.chunk_nth.
Qed.

Lemma read_uint_chunk f p n l k :
  (k < length l)%nat ->
  read_uint (store f p (flat_map (le_bytes n) l)) (p + Z.of_nat k * Z.of_nat n) n
  = nth k l 0 mod 256 ^ Z.of_nat n.
Proof.
  intro Hk. unfold read_uint.
  rewrite (read_chunk f p (le_bytes n) n l k)
    by (try (intro; apply FileFacts.le_bytes_length); assumption).
  apply BitsFacts.le_value_le_bytes.
Qed.

Section Blocks.
Variable o : options.
Variable stack : nat -> Z.
Variable h : LASheader.
Variable s : LASsummary.
Variable f : file.

Ltac outside := apply BucketFacts.out_of_slot; lia.

Lemma count_bytes a :
  107 <= a < 111 ->
  repaired_file o stack h s f a
  = run_ops (fst (check_number_of_point_records o h s)) f a.
Proof.
  intro H. rewrite BlockFacts.repaired_file_steps.
  destruct (DisjointFacts.ext_count_fills o h s) as [b2 [F2 _]].
  destruct (DisjointFacts.by_return_fills o stack h s) as [b3 F3].
  destruct (DisjointFacts.ext_by_return_fills o h s) as [b4 [F4 _]].
  destruct (DisjointFacts.bounding_box_fills o h s) as [b5 F5].
  rewrite (FileFacts.fills_frame _ _ _ _ a F5) by outside.
  rewrite (FileFacts.fills_frame _ _ _ _ a F4) by outside.
  rewrite (FileFacts.fills_frame _ _ _ _ a F3) by outside.
  rewrite (FileFacts.fills_frame _ _ _ _ a F2) by outside.
  reflexivity.
Qed.

Lemma ext_count_bytes a :
  247 <= a < 255 ->
  repaired_file o stack h s f a
  = run_ops (fst (check_extended_number_of_point_records o h s)) f a.
Proof.
  intro H. rewrite BlockFacts.repaired_file_steps.
  destruct (DisjointFacts.count_fills o h s) as [b1 F1].
  destruct (DisjointFacts.by_return_fills o stack h s) as [b3 F3].
  destruct (DisjointFacts.ext_by_return_fills o h s) as [b4 [F4 _]].
  destruct (DisjointFacts.bounding_box_fills o h s) as [b5 F5].
  rewrite (FileFacts.fills_frame _ _ _ _ a F5) by outside.
  rewrite (FileFacts.fills_frame _ _ _ _ a F4) by outside.
  rewrite (FileFacts.fills_frame _ _ _ _ a F3) by outside.
  apply run_ops_local.
  rewrite (FileFacts.fills_frame _ _ _ _ a F1) by outside.
  reflexivity.
Qed.

Lemma by_return_bytes a :
  111 <= a < 131 ->
  repaired_file o stack h s f a
  = run_ops (fst (check_number_of_points_by_return o stack h s)) f a.
Proof.
  intro H. rewrite BlockFacts.repaired_file_steps.
  destruct (DisjointFacts.count_fills o h s) as [b1 F1].
  destruct (DisjointFacts.ext_count_fills o h s) as [b2 [F2 _]].
  destruct (DisjointFacts.ext_by_return_fills o h s) as [b4 [F4 _]].
  destruct (DisjointFacts.bounding_box_fills o h s) as [b5 F5].
  rewrite (FileFacts.fills_frame _ _ _ _ a F5) by outside.
  rewrite (FileFacts.fills_frame _ _ _ _ a F4) by outside.
  apply run_ops_local.
  rewrite (FileFacts.fills_frame _ _ _ _ a F2) by outside.
  rewrite (FileFacts.fills_frame _ _ _ _ a F1) by outside.
  reflexivity.
Qed.

Lemma ext_by_return_bytes a :
  255 <= a < 375 ->
  repaired_file o stack h s f a
  = run_ops (fst (check_extended_number_of_points_by_return o h s)) f a.
Proof.
  intro H. rewrite BlockFacts.repaired_file_steps.
  destruct (DisjointFacts.count_fills o h s) as [b1 F1].
  destruct (DisjointFacts.ext_count_fills o h s) as [b2 [F2 _]].
  destruct (DisjointFacts.by_return_fills o stack h s) as [b3 F3].
  destruct (DisjointFacts.bounding_box_fills o h s) as [b5 F5].
  rewrite (FileFacts.fills_frame _ _ _ _ a F5) by outside.
  apply run_ops_local.
  rewrite (FileFacts.fills_frame _ _ _ _ a F3) by outside.
  rewrite (FileFacts.fills_frame _ _ _ _ a F2) by outside.
  rewrite (FileFacts.fills_frame _ _ _ _ a F1) by outside.
  reflexivity.
Qed.

Lemma box_bytes a :
  179 <= a < 227 ->
  repaired_file o stack h s f a = run_ops (fst (check_bounding_box o h s)) f a.
Proof.
  intro H. rewrite BlockFacts.repaired_file_steps.
  destruct (DisjointFacts.count_fills o h s) as [b1 F1].
  destruct (DisjointFacts.ext_count_fills o h s) as [b2 [F2 _]].
  destruct (DisjointFacts.by_return_fills o stack h s) as [b3 F3].
  destruct (DisjointFacts.ext_by_return_fills o h s) as [b4 [F4 _]].
  apply run_ops_local.
  rewrite (FileFacts.fills_frame _ _ _ _ a F4) by outside.
  rewrite (FileFacts.fills_frame _ _ _ _ a F3) by outside.
  rewrite (FileFacts.fills_frame _ _ _ _ a F2) by outside.
  rewrite (FileFacts.fills_frame _ _ _ _ a F1) by outside.
  reflexivity.
Qed.

(** The fields that the repair does not touch. *)
Lemma minor_after :
  version_minor (read_header (repaired_file o stack h s f))
  = version_minor (read_header f).
Proof.
  cbn [version_minor read_header]. apply read_uint_ext. intros k Hk.
  apply BlockFacts.repaired_file_frame. lia.
Qed.

Lemma format_after :
  point_data_format (read_header (repaired_file o stack h s f))
  = point_data_format (read_header f).
Proof.
  cbn [point_data_format read_header]. apply read_uint_ext. intros k Hk.
  apply BlockFacts.repaired_file_frame. lia.
Qed.

Lemma scale_offset_after :
  let h1 := read_header (repaired_file o stack h s f) in
  let h0 := read_header f in
  x_scale_factor h1 = x_scale_factor h0
  /\ y_scale_factor h1 = y_scale_factor h0
  /\ z_scale_factor h1 = z_scale_factor h0
  /\ x_offset h1 = x_offset h0
  /\ y_offset h1 = y_offset h0
  /\ z_offset h1 = z_offset h0.
Proof.
  cbn [x_scale_factor y_scale_factor z_scale_factor x_offset y_offset z_offset
       read_header].
  repeat split; apply read_F64_ext; intros a Ha;
    apply BlockFacts.repaired_file_frame; lia.
Qed.

End Blocks.

End AfterFacts.

Module SettleFacts.
Import LAS Patch Bytes Check.

Lemma existsb_none {A} (p : A -> bool) l x :
  existsb p l = false -> In x l -> p x = false.
Proof.
  intros H I. destruct (p x) eqn:E; [| reflexivity ].
  assert (existsb p l = true) by (apply existsb_exists; eauto). congruence.
Qed.

Lemma U32_value v : 0 <= v <= Mach.U32_MAX -> v mod 256 ^ Z.of_nat 4 = v.
Proof.
  unfold Mach.U32_MAX. intro H. change (256 ^ Z.of_nat 4) with 4294967296.
  apply Z.mod_small. lia.
Qed.

Lemma to_U32_value v : Mach.to_U32 v mod 256 ^ Z.of_nat 4 = Mach.to_U32 v.
Proof. apply U32_value. apply MachFacts.to_U32_range. Qed.

Lemma I64_value v :
  0 <= v < 2 ^ 63 -> Mach.to_I64 (v mod 256 ^ Z.of_nat 8) = v.
Proof.
  intro H. change (256 ^ Z.of_nat 8) with (2 ^ 64).
  rewrite Z.mod_small by lia. apply MachFacts.to_I64_id. lia.
Qed.

Lemma I64_not_negative v :
  0 <= v < 256 ^ Z.of_nat 8 -> 0 <= Mach.to_I64 v -> Mach.to_I64 v = v.
Proof.
  change (256 ^ Z.of_nat 8) with (2 ^ 64). unfold Mach.to_I64. intros R P.
  destruct (Z.lt_ge_cases v (2 ^ 63)) as [L | G].
  - rewrite Z.mod_small; lia.
  - exfalso. replace (v + 2 ^ 63) with (v - 2 ^ 63 + 1 * 2 ^ 64) in P by lia.
    rewrite Z_mod_plus_full, Z.mod_small in P; lia.
Qed.

Ltac settle_bools :=
  repeat match goal with
         | H : _ && _ = true |- _ => apply andb_true_iff in H; destruct H
         | H : _ && _ = false |- _ => apply andb_false_iff in H
         | H : negb _ = true |- _ => apply negb_true_iff in H
         | H : negb _ = false |- _ => apply negb_false_iff in H
         | H : (_ <? _) = true |- _ => apply Z.ltb_lt in H
         | H : (_ <? _) = false |- _ => apply Z.ltb_ge in H
         | H : (_ <=? _) = true |- _ => apply Z.leb_le in H
         | H : (_ <=? _) = false |- _ => apply Z.leb_gt in H
         | H : (_ =? _) = true |- _ => apply Z.eqb_eq in H
         | H : (_ =? _) = false |- _ => apply Z.eqb_neq in H
         | H : _ \/ _ |- _ => destruct H
         end.

Section After.
Variable o : options.
Variable stack : nat -> Z.
Variable s : LASsummary.
Variable f : file.
Hypothesis Hbytes : byte_file f.

Let h := read_header f.
Let h1 := read_header (repaired_file o stack h s f).

Lemma format_kept : point_data_format h1 = point_data_format h.
Proof. apply AfterFacts.format_after. Qed.

Lemma minor_kept : version_minor h1 = version_minor h.
Proof. apply AfterFacts.minor_after. Qed.

(** *** The legacy count *)

Lemma count_field_after :
  number_of_point_records h1
  = read_uint (run_ops (fst (check_number_of_point_records o h s)) f) 107 4.
Proof.
  unfold h1. cbn [number_of_point_records read_header].
  apply AfterFacts.read_uint_ext. intros k Hk.
  apply AfterFacts.count_bytes. lia.
Qed.

Lemma count_written v :
  read_uint (run_ops [Fseek 107; Fwrite [DU32 v]] f) 107 4
  = v mod 256 ^ Z.of_nat 4.
Proof.
  rewrite BucketFacts.run_seek_write.
  unfold data_bytes. cbn [flat_map datum_bytes]. rewrite app_nil_r.
  apply AfterFacts.read_uint_store.
Qed.

Lemma count_kept :
  read_uint (run_ops [] f) 107 4 = number_of_point_records h.
Proof. reflexivity. Qed.

(** After the repair the check of the legacy count has nothing to
    write. *)
Lemma count_settled o' :
  repair_counters o' = repair_counters o ->
  0 <= sum_number_of_point_records s ->
  fst (check_number_of_point_records o' h1 s) = [].
Proof.
  intros Ro Hreal.
  destruct (repair_counters o) eqn:R;
    [| apply RunFacts.count_no_repair; congruence ].
  pose proof count_field_after as E.
  pose proof (MachFacts.to_U32_id (sum_number_of_point_records s)) as T.
  unfold check_number_of_point_records in E |- *.
  rewrite !format_kept, ?minor_kept, Ro. rewrite R in E.
  repeat match type of E with
         | context [if ?b then _ else _] => destruct b eqn:?
         end;
    cbn [fst] in E;
    rewrite ?count_kept, ?count_written, ?to_U32_value in E;
    change (0 mod 256 ^ Z.of_nat 4) with 0 in E;
    rewrite E;
    repeat match goal with
           | |- context [if ?b then _ else _] => destruct b eqn:?
           end;
    try reflexivity; exfalso;
    settle_bools; unfold Mach.U32_MAX in *; lia.
Qed.

(** With a total that fits a [U32], the repaired legacy count is the
    total. *)
Lemma count_restored :
  repair_counters o = true ->
  point_data_format h < 6 ->
  0 <= sum_number_of_point_records s <= Mach.U32_MAX ->
  number_of_point_records h1 = sum_number_of_point_records s.
Proof.
  intros R F6 Hreal. rewrite count_field_after.
  unfold check_number_of_point_records. rewrite R.
  replace (point_data_format h <? 6) with true by (symmetry; apply Z.ltb_lt; lia).
  replace (6 <=? point_data_format h) with false by (symmetry; apply Z.leb_gt; lia).
  replace (sum_number_of_point_records s <=? Mach.U32_MAX) with true
    by (symmetry; apply Z.leb_le; lia).
  cbn [andb].
  destruct (Z.eqb_spec (sum_number_of_point_records s) (number_of_point_records h))
    as [Eq | Ne]; cbn [negb fst].
  - rewrite count_kept. congruence.
  - rewrite count_written, to_U32_value. apply MachFacts.to_U32_id. lia.
Qed.

(** *** The extended count *)

Lemma ext_count_field_after :
  3 < version_minor h ->
  extended_number_of_point_records h1
  = read_uint (run_ops (fst (check_extended_number_of_point_records o h s)) f)
      247 8.
Proof.
  intro M. pose proof minor_kept as Mk.
  unfold h1 in Mk |- *.
  cbn [extended_number_of_point_records version_minor read_header] in Mk |- *.
  rewrite Mk.
  replace (4 <=? version_minor h) with true by (symmetry; apply Z.leb_le; lia).
  apply AfterFacts.read_uint_ext. intros k Hk.
  apply AfterFacts.ext_count_bytes. lia.
Qed.

Lemma ext_count_written v :
  read_uint (run_ops [Fseek (235 + 12); Fwrite [DI64 v]] f) 247 8
  = v mod 256 ^ Z.of_nat 8.
Proof.
  rewrite BucketFacts.run_seek_write.
  unfold data_bytes. cbn [flat_map datum_bytes]. rewrite app_nil_r.
  apply AfterFacts.read_uint_store.
Qed.

Lemma ext_count_kept :
  3 < version_minor h ->
  read_uint (run_ops [] f) 247 8 = extended_number_of_point_records h.
Proof.
  intro M. unfold h. cbn [extended_number_of_point_records read_header run_ops].
  fold h. change (read_uint f 25 1) with (version_minor h).
  replace (4 <=? version_minor h) with true by (symmetry; apply Z.leb_le; lia).
  reflexivity.
Qed.

Lemma ext_count_settled :
  0 <= sum_number_of_point_records s < 2 ^ 63 ->
  fst (check_extended_number_of_point_records o h1 s) = [].
Proof.
  intro Hreal.
  destruct (repair_counters o) eqn:R;
    [| apply RunFacts.ext_count_no_repair; exact R ].
  unfold check_extended_number_of_point_records at 1.
  rewrite minor_kept.
  destruct (Z.ltb_spec 3 (version_minor h)) as [M | M]; [| reflexivity ].
  rewrite (ext_count_field_after M).
  unfold check_extended_number_of_point_records.
  replace (3 <? version_minor h) with true by (symmetry; apply Z.ltb_lt; lia).
  rewrite R.
  destruct (sum_number_of_point_records s
            =? Mach.to_I64 (extended_number_of_point_records h)) eqn:Eq;
    cbn [negb fst].
  - rewrite (ext_count_kept M), Eq. reflexivity.
  - rewrite ext_count_written, I64_value by assumption.
    rewrite Z.eqb_refl. reflexivity.
Qed.

Lemma ext_count_restored :
  repair_counters o = true ->
  3 < version_minor h ->
  0 <= sum_number_of_point_records s < 2 ^ 63 ->
  Mach.to_I64 (extended_number_of_point_records h1)
  = sum_number_of_point_records s.
Proof.
  intros R M Hreal. rewrite (ext_count_field_after M).
  unfold check_extended_number_of_point_records.
  replace (3 <? version_minor h) with true by (symmetry; apply Z.ltb_lt; lia).
  rewrite R.
  destruct (Z.eqb_spec (sum_number_of_point_records s)
              (Mach.to_I64 (extended_number_of_point_records h))) as [Eq | Ne];
    cbn [negb fst].
  - rewrite (ext_count_kept M). congruence.
  - rewrite ext_count_written. now apply I64_value.
Qed.

Lemma ext_count_raw :
  repair_counters o = true ->
  3 < version_minor h ->
  0 <= sum_number_of_point_records s < 2 ^ 63 ->
  extended_number_of_point_records h1 = sum_number_of_point_records s.
Proof.
  intros R M Hreal.
  pose proof (ext_count_restored R M Hreal) as E.
  rewrite <- E. symmetry. apply I64_not_negative; [| lia ].
  rewrite (ext_count_field_after M).
  apply BlockFacts.read_uint_range.
  now apply SampleFileFacts.run_ops_byte_file.
Qed.

(** *** The legacy counts by return *)

Lemma in_returns i n : In i (seq 1 n) -> exists k, i = S k /\ (k < n)%nat.
Proof.
  intro H. apply in_seq in H. destruct i as [| k]; [ lia |].
  exists k. split; [ reflexivity | lia ].
Qed.

Lemma by_return_cell_after k :
  (k < 5)%nat ->
  nth k (number_of_points_by_return h1) 0
  = read_uint (run_ops (fst (check_number_of_points_by_return o stack h s)) f)
      (111 + Z.of_nat k * Z.of_nat 4) 4.
Proof.
  intro Hk. unfold h1. cbn [number_of_points_by_return read_header].
  rewrite BlockFacts.read_uints_nth by assumption.
  apply AfterFacts.read_uint_ext. intros j Hj.
  apply AfterFacts.by_return_bytes. lia.
Qed.

Lemma by_return_cell_kept k :
  (k < 5)%nat ->
  read_uint (run_ops [] f) (111 + Z.of_nat k * Z.of_nat 4) 4
  = nth k (number_of_points_by_return h) 0.
Proof.
  intro Hk. unfold h. cbn [number_of_points_by_return read_header run_ops].
  now rewrite BlockFacts.read_uints_nth.
Qed.

Lemma by_return_cell_range k :
  (k < 5)%nat -> 0 <= nth k (number_of_points_by_return h) 0 <= Mach.U32_MAX.
Proof.
  intro Hk. rewrite <- by_return_cell_kept by assumption.
  pose proof (BlockFacts.read_uint_range (run_ops [] f)
                (111 + Z.of_nat k * Z.of_nat 4) 4 Hbytes) as B.
  change (256 ^ Z.of_nat 4) with 4294967296 in B. unfold Mach.U32_MAX. lia.
Qed.

Lemma by_return_cell_written k l :
  (k < length l)%nat ->
  read_uint (run_ops [Fseek 111; Fwrite (map DU32 l)] f)
    (111 + Z.of_nat k * Z.of_nat 4) 4
  = nth k l 0 mod 256 ^ Z.of_nat 4.
Proof.
  intro Hk. rewrite BucketFacts.run_seek_write, BlockFacts.data_bytes_DU32.
  now apply AfterFacts.read_uint_chunk.
Qed.

Lemma by_return_settled stack' :
  point_data_format h < 6 ->
  (forall i, (1 <= i <= 5)%nat -> 0 <= nth i (sum_number_of_points_by_return s) 0) ->
  fst (check_number_of_points_by_return o stack' h1 s) = [].
Proof.
  intros F6 Hreal. rewrite ReturnFacts.by_return_ops.
  destruct (repair_counters o) eqn:R; [| reflexivity ].
  rewrite HeaderFacts.existsb_false; [ reflexivity |].
  intros i Hi. destruct (in_returns _ _ Hi) as [k [-> Hk]].
  pose proof (by_return_cell_after k Hk) as E.
  pose proof (by_return_cell_range k Hk) as B.
  pose proof (Hreal (S k) ltac:(lia)) as P.
  pose proof (MachFacts.to_U32_id (nth (S k) (sum_number_of_points_by_return s) 0)) as T.
  rewrite ReturnFacts.by_return_ops, R in E. cbn [andb] in E.
  destruct (existsb (legacy_bucket_wrong h s) (seq 1 5)) eqn:W.
  - rewrite by_return_cell_written in E
      by (rewrite ReturnFacts.by_return_fold_length; cbn [br_array];
          now rewrite ReturnFacts.uninitialized_length).
    rewrite (ReturnFacts.by_return_fold_cell o h s (seq 1 5) _ k 0) in E;
      [| apply Forall_forall; intros x Hx; apply in_seq in Hx; lia
       | apply seq_NoDup
       | exact Hi
       | cbn [br_array]; now rewrite ReturnFacts.uninitialized_length ].
    unfold legacy_bucket_wrong. unfold legacy_bucket_value in E.
    rewrite format_kept, minor_kept.
    replace (S k - 1)%nat with k in * by lia.
    repeat match type of E with
           | context [if ?b then _ else _] => destruct b eqn:?
           end;
      rewrite ?to_U32_value in E;
      change (0 mod 256 ^ Z.of_nat 4) with 0 in E;
      rewrite E;
      repeat match goal with
             | |- context [if ?b then _ else _] => destruct b eqn:?
             end;
      settle_bools; unfold Mach.U32_MAX in *;
      first [ reflexivity
            | apply andb_false_iff; rewrite ?negb_false_iff, ?Z.eqb_eq, ?Z.leb_gt; lia
            | apply orb_false_iff; split;
              [ apply Z.leb_gt; lia
              | apply andb_false_iff; rewrite !negb_false_iff, ?Z.ltb_lt, ?Z.eqb_eq; lia ]
            | exfalso; lia ].
  - cbn [fst] in E. rewrite by_return_cell_kept in E by assumption.
    pose proof (existsb_none _ _ _ W Hi) as N.
    unfold legacy_bucket_wrong in N |- *.
    rewrite format_kept, minor_kept.
    replace (S k - 1)%nat with k in * by lia.
    rewrite E. exact N.
Qed.

Lemma by_return_restored k :
  repair_counters o = true ->
  point_data_format h < 6 ->
  (k < 5)%nat ->
  0 <= nth (S k) (sum_number_of_points_by_return s) 0 <= Mach.U32_MAX ->
  nth k (number_of_points_by_return h1) 0
  = nth (S k) (sum_number_of_points_by_return s) 0.
Proof.
  intros R F6 Hk Hreal.
  assert (Hi : In (S k) (seq 1 5)) by (apply in_seq; lia).
  pose proof (by_return_cell_after k Hk) as E.
  pose proof (MachFacts.to_U32_id _ Hreal) as T.
  rewrite ReturnFacts.by_return_ops, R in E. cbn [andb] in E.
  destruct (existsb (legacy_bucket_wrong h s) (seq 1 5)) eqn:W.
  - rewrite by_return_cell_written in E
      by (rewrite ReturnFacts.by_return_fold_length; cbn [br_array];
          now rewrite ReturnFacts.uninitialized_length).
    rewrite (ReturnFacts.by_return_fold_cell o h s (seq 1 5) _ k 0) in E;
      [| apply Forall_forall; intros x Hx; apply in_seq in Hx; lia
       | apply seq_NoDup
       | exact Hi
       | cbn [br_array]; now rewrite ReturnFacts.uninitialized_length ].
    unfold legacy_bucket_value in E.
    replace (S k - 1)%nat with k in * by lia.
    repeat match type of E with
           | context [if ?b then _ else _] => destruct b eqn:?
           end;
      rewrite ?to_U32_value in E;
      change (0 mod 256 ^ Z.of_nat 4) with 0 in E;
      settle_bools; unfold Mach.U32_MAX in *; lia.
  - cbn [fst] in E. rewrite by_return_cell_kept in E by assumption.
    pose proof (existsb_none _ _ _ W Hi) as N.
    unfold legacy_bucket_wrong in N.
    replace (S k - 1)%nat with k in * by lia.
    rewrite E.
    repeat match type of N with
           | context [if ?b then _ else _] => destruct b eqn:?
           end;
      try apply orb_false_iff in N; try destruct N;
      settle_bools; unfold Mach.U32_MAX in *; lia.
Qed.

(** *** The extended counts by return *)

Lemma ext_by_return_cell_after k :
  3 < version_minor h ->
  (k < 15)%nat ->
  nth k (extended_number_of_points_by_return h1) 0
  = read_uint
      (run_ops (fst (check_extended_number_of_points_by_return o h s)) f)
      (255 + Z.of_nat k * Z.of_nat 8) 8.
Proof.
  intros M Hk. pose proof minor_kept as Mk.
  unfold h1 in Mk |- *.
  cbn [extended_number_of_points_by_return version_minor read_header] in Mk |- *.
  rewrite Mk.
  replace (4 <=? version_minor h) with true by (symmetry; apply Z.leb_le; lia).
  rewrite BlockFacts.read_uints_nth by assumption.
  apply AfterFacts.read_uint_ext. intros j Hj.
  apply AfterFacts.ext_by_return_bytes. lia.
Qed.

Lemma ext_by_return_cell_kept k :
  3 < version_minor h ->
  (k < 15)%nat ->
  read_uint (run_ops [] f) (255 + Z.of_nat k * Z.of_nat 8) 8
  = nth k (extended_number_of_points_by_return h) 0.
Proof.
  intros M Hk. unfold h.
  cbn [extended_number_of_points_by_return read_header run_ops].
  fold h. change (read_uint f 25 1) with (version_minor h).
  replace (4 <=? version_minor h) with true by (symmetry; apply Z.leb_le; lia).
  now rewrite BlockFacts.read_uints_nth.
Qed.

Lemma ext_by_return_cell_written k l :
  (k < length l)%nat ->
  read_uint (run_ops [Fseek (235 + 20); Fwrite (map DI64 l)] f)
    (255 + Z.of_nat k * Z.of_nat 8) 8
  = nth k l 0 mod 256 ^ Z.of_nat 8.
Proof.
  intro Hk. rewrite BucketFacts.run_seek_write, BlockFacts.data_bytes_DI64.
  change (235 + 20) with 255.
  now apply AfterFacts.read_uint_chunk.
Qed.

(** Cell [k] of the extended counts of the repaired header, as a signed
    value: the summary's count when the block was written, the header's
    count when it was not. *)
Lemma ext_by_return_cell_value k :
  repair_counters o = true ->
  3 < version_minor h ->
  (k < 15)%nat ->
  0 <= nth (S k) (sum_number_of_points_by_return s) 0 < 2 ^ 63 ->
  Mach.to_I64 (nth k (extended_number_of_points_by_return h1) 0)
  = nth (S k) (sum_number_of_points_by_return s) 0.
Proof.
  intros R M Hk Hreal.
  assert (Hi : In (S k) (seq 1 15)) by (apply in_seq; lia).
  rewrite (ext_by_return_cell_after k M Hk).
  rewrite ReturnFacts.ext_by_return_ops, R.
  replace (3 <? version_minor h) with true by (symmetry; apply Z.ltb_lt; lia).
  cbn [andb].
  destruct (existsb (ext_bucket_wrong h s) (seq 1 15)) eqn:W.
  - rewrite ext_by_return_cell_written
      by (rewrite ReturnFacts.ext_by_return_fold_length; cbn [br_array];
          now rewrite repeat_length).
    rewrite (ReturnFacts.ext_by_return_fold_cell o h s (seq 1 15) _ k 0);
      [ now apply I64_value
      | apply Forall_forall; intros x Hx; apply in_seq in Hx; lia
      | apply seq_NoDup
      | exact Hi
      | cbn [br_array]; now rewrite repeat_length ].
  - rewrite (ext_by_return_cell_kept k M Hk).
    pose proof (existsb_none _ _ _ W Hi) as N.
    unfold ext_bucket_wrong in N.
    replace (S k - 1)%nat with k in N by lia.
    apply negb_false_iff, Z.eqb_eq in N. exact N.
Qed.

Lemma ext_by_return_cell_raw k :
  repair_counters o = true ->
  3 < version_minor h ->
  (k < 15)%nat ->
  0 <= nth (S k) (sum_number_of_points_by_return s) 0 < 2 ^ 63 ->
  nth k (extended_number_of_points_by_return h1) 0
  = nth (S k) (sum_number_of_points_by_return s) 0.
Proof.
  intros R M Hk Hreal.
  pose proof (ext_by_return_cell_value k R M Hk Hreal) as E.
  rewrite <- E. symmetry. apply I64_not_negative; [| lia ].
  rewrite (ext_by_return_cell_after k M Hk).
  apply BlockFacts.read_uint_range.
  now apply SampleFileFacts.run_ops_byte_file.
Qed.

Lemma ext_by_return_settled :
  (forall i, (1 <= i <= 15)%nat ->
             0 <= nth i (sum_number_of_points_by_return s) 0 < 2 ^ 63) ->
  fst (check_extended_number_of_points_by_return o h1 s) = [].
Proof.
  intro Hreal. rewrite ReturnFacts.ext_by_return_ops, minor_kept.
  destruct (Z.ltb_spec 3 (version_minor h)) as [M | M]; [| reflexivity ].
  destruct (repair_counters o) eqn:R; [| reflexivity ].
  rewrite HeaderFacts.existsb_false; [ reflexivity |].
  intros i Hi. destruct (in_returns _ _ Hi) as [k [-> Hk]].
  unfold ext_bucket_wrong. replace (S k - 1)%nat with k by lia.
  rewrite (ext_by_return_cell_value k R M Hk) by (apply Hreal; lia).
  now rewrite Z.eqb_refl.
Qed.

(** *** The bounding box *)

Lemma box_read_after p :
  179 <= p <= 219 ->
  read_F64 (repaired_file o stack h s f) p
  = read_F64 (run_ops (fst (check_bounding_box o h s)) f) p.
Proof.
  intro Hp. apply AfterFacts.read_F64_ext. intros a Ha.
  apply AfterFacts.box_bytes. lia.
Qed.

Lemma data_bytes_DF64 l :
  data_bytes (map DF64 l) = flat_map (le_bytes 8) (map bits_of_F64 l).
Proof.
  induction l as [| x l IH]; [ reflexivity |].
  unfold data_bytes in *. cbn [map flat_map datum_bytes]. now rewrite IH.
Qed.

Lemma concat_wrapped {A B} (g : A -> B) (l : list A) :
  concat (map (fun x => [g x]) l) = map g l.
Proof. induction l as [| x l IH]; [ reflexivity |]. cbn. now rewrite IH. Qed.

(** The doubles written one [fwrite] each from the position of one
    [fseek] are read back bit for bit. *)
Lemma doubles_written p l k :
  (k < length l)%nat ->
  read_F64 (run_ops (Fseek p :: map (fun x => Fwrite [DF64 x]) l) f)
    (p + Z.of_nat k * Z.of_nat 8)
  = nth k l 0%float.
Proof.
  intro Hk. unfold read_F64.
  rewrite (AfterFacts.read_uint_ext _
             (store f p (flat_map (le_bytes 8) (map bits_of_F64 l)))).
  - rewrite AfterFacts.read_uint_chunk by now rewrite length_map.
    rewrite (nth_indep _ 0 (bits_of_F64 0%float)) by now rewrite length_map.
    rewrite map_nth.
    change (256 ^ Z.of_nat 8) with (2 ^ 64).
    rewrite Z.mod_small by apply BitsFacts.bits_of_F64_range.
    apply BitsFacts.F64_of_bits_of_F64.
  - intros j Hj. unfold run_ops. cbn [fold_left exec snd fst].
    replace (map (fun x => Fwrite [DF64 x]) l)
      with (map Fwrite (map (fun x => [DF64 x]) l)) by now rewrite map_map.
    destruct (SlotFacts.exec_writes (map (fun x => [DF64 x]) l) p f) as [_ E].
    now rewrite E, concat_wrapped, data_bytes_DF64.
Qed.

Lemma real_box_after : real_box h1 s = real_box h s.
Proof.
  destruct (AfterFacts.scale_offset_after o stack h s f)
    as [Sx [Sy [Sz [Ox [Oy Oz]]]]].
  unfold real_box, get_x, get_y, get_z. fold h h1 in Sx, Sy, Sz, Ox, Oy, Oz.
  now rewrite Sx, Sy, Sz, Ox, Oy, Oz.
Qed.

Lemma header_box_after :
  header_box h1
  = if repair_bb o && box_wrong_entry h s then real_box h s else header_box h.
Proof.
  unfold header_box at 1. unfold h1.
  cbn [max_x min_x max_y min_y max_z min_z read_header].
  rewrite !box_read_after by lia.
  rewrite HeaderFacts.bounding_box_ops.
  destruct (repair_bb o && box_wrong_entry h s).
  - change [Fseek 179; Fwrite [DF64 (get_x h (max_X s))];
            Fwrite [DF64 (get_x h (min_X s))];
            Fwrite [DF64 (get_y h (max_Y s))];
            Fwrite [DF64 (get_y h (min_Y s))];
            Fwrite [DF64 (get_z h (max_Z s))];
            Fwrite [DF64 (get_z h (min_Z s))]]
      with (Fseek 179 :: map (fun x => Fwrite [DF64 x]) (real_box h s)).
    set (ops := Fseek 179 :: map (fun x => Fwrite [DF64 x]) (real_box h s)).
    pose proof (fun k => doubles_written 179 (real_box h s) k) as D.
    fold ops in D. cbn [length real_box] in D.
    pose proof (D 0%nat ltac:(lia)) as D0. pose proof (D 1%nat ltac:(lia)) as D1.
    pose proof (D 2%nat ltac:(lia)) as D2. pose proof (D 3%nat ltac:(lia)) as D3.
    pose proof (D 4%nat ltac:(lia)) as D4. pose proof (D 5%nat ltac:(lia)) as D5.
    change (179 + Z.of_nat 0 * Z.of_nat 8) with 179 in D0.
    change (179 + Z.of_nat 1 * Z.of_nat 8) with 187 in D1.
    change (179 + Z.of_nat 2 * Z.of_nat 8) with 195 in D2.
    change (179 + Z.of_nat 3 * Z.of_nat 8) with 203 in D3.
    change (179 + Z.of_nat 4 * Z.of_nat 8) with 211 in D4.
    change (179 + Z.of_nat 5 * Z.of_nat 8) with 219 in D5.
    rewrite D0, D1, D2, D3, D4, D5. reflexivity.
  - reflexivity.
Qed.

End After.

Lemma F64_neq_same x : is_nan x = false -> F64_neq x x = false.
Proof.
  unfold is_nan, F64_neq. intro N. rewrite eqb_spec.
  rewrite BoxFacts.SFeqb_refl; [ reflexivity |].
  intro E. rewrite E in N. discriminate.
Qed.

Lemma box_wrong_entry_fields h h' s :
  real_box h' s = real_box h s -> header_box h' = header_box h ->
  box_wrong_entry h' s = box_wrong_entry h s.
Proof.
  unfold real_box, header_box, box_wrong_entry. intros R H.
  injection R as -> -> -> -> -> ->. injection H as -> -> -> -> -> ->.
  reflexivity.
Qed.

Lemma box_wrong_entry_same h s :
  header_box h = real_box h s ->
  forallb (fun x => negb (is_nan x)) (real_box h s) = true ->
  box_wrong_entry h s = false.
Proof.
  unfold real_box, header_box, box_wrong_entry. intros H N.
  injection H as -> -> -> -> -> ->.
  cbn [forallb] in N.
  repeat (apply andb_true_iff in N; destruct N as [?N N]).
  repeat match goal with
         | H : negb _ = true |- _ => apply negb_true_iff in H
         end.
  now rewrite !F64_neq_same.
Qed.

Lemma box_settled o stack s f :
  let h := read_header f in
  let h1 := read_header (repaired_file o stack h s f) in
  (repair_bb o = true -> box_wrong_entry h s = true ->
   forallb (fun x => negb (is_nan x)) (real_box h s) = true) ->
  fst (check_bounding_box o h1 s) = [].
Proof.
  intros h h1 N. rewrite HeaderFacts.bounding_box_ops.
  destruct (repair_bb o) eqn:B; [| reflexivity ].
  cbn [andb].
  pose proof (header_box_after o stack s f) as Hb.
  pose proof (real_box_after o stack s f) as Rb.
  fold h h1 in Hb, Rb. rewrite B in Hb. cbn [andb] in Hb.
  destruct (box_wrong_entry h s) eqn:W.
  - rewrite box_wrong_entry_same; [ reflexivity | congruence |].
    rewrite Rb. now apply N.
  - rewrite (box_wrong_entry_fields h h1 s Rb Hb), W. reflexivity.
Qed.

End SettleFacts.

Module StackFacts.
Import LAS Patch Check.

Lemma by_return_step_flags o h s st st' i :
  br_wrong_entry st = br_wrong_entry st' -> br_report st = br_report st' ->
  br_wrong_entry (by_return_step o h s st i)
  = br_wrong_entry (by_return_step o h s st' i)
  /\ br_report (by_return_step o h s st i)
     = br_report (by_return_step o h s st' i).
Proof.
  intros W R. unfold by_return_step.
  repeat match goal with
         | |- context [if ?c then _ else _] =>
             lazymatch c with
             | context [br_array] => fail
             | _ => destruct c
             end
         end;
    cbn [br_wrong_entry br_report]; rewrite ?W, ?R; split; reflexivity.
Qed.

Lemma by_return_fold_flags o h s l st st' :
  br_wrong_entry st = br_wrong_entry st' -> br_report st = br_report st' ->
  br_wrong_entry (fold_left (by_return_step o h s) l st)
  = br_wrong_entry (fold_left (by_return_step o h s) l st')
  /\ br_report (fold_left (by_return_step o h s) l st)
     = br_report (fold_left (by_return_step o h s) l st').
Proof.
  revert st st'. induction l as [| i l IH]; intros st st' W R;
    [ now split |].
  cbn [fold_left].
  destruct (by_return_step_flags o h s st st' i W R) as [W' R'].
  now apply IH.
Qed.

Lemma returns_positive n : Forall (fun i => (1 <= i)%nat) (seq 1 n).
Proof. apply Forall_forall. intros x Hx. apply in_seq in Hx. lia. Qed.

(** A cell of the local array after the loop. *)
Lemma by_return_cell o stack h s k :
  (k < 5)%nat ->
  nth k (br_array (fold_left (by_return_step o h s) (seq 1 5)
                     (mkByReturn (uninitialized stack 5) false []))) 0
  = match legacy_bucket_value h s (S k) with
    | Some v => v
    | None => Mach.to_U32 (stack k)
    end.
Proof.
  intro Hk.
  rewrite (ReturnFacts.by_return_fold_cell o h s (seq 1 5) _ k 0);
    [| apply returns_positive
     | apply seq_NoDup
     | apply in_seq; lia
     | cbn [br_array]; now rewrite ReturnFacts.uninitialized_length ].
  destruct (legacy_bucket_value h s (S k)); [ reflexivity |].
  cbn [br_array]. unfold uninitialized.
  rewrite (nth_indep _ 0 (Mach.to_U32 (stack 0%nat)))
    by now rewrite length_map, length_seq.
  rewrite (map_nth (fun k => Mach.to_U32 (stack k))).
  now rewrite seq_nth.
Qed.

Lemma bucket_value_given h s i :
  6 <= point_data_format h \/ 4 <= version_minor h
  \/ nth i (sum_number_of_points_by_return s) 0 <= Mach.U32_MAX ->
  legacy_bucket_value h s i <> None.
Proof.
  intro H. unfold legacy_bucket_value.
  repeat match goal with
         | |- context [if ?c then _ else _] => destruct c eqn:?
         end; try discriminate.
  SettleFacts.settle_bools; lia.
Qed.

End StackFacts.

(** X10. In a file of point format below 6 the repair settles: checked
    against the header of the repaired file and the same summary of the
    points, the five checks have nothing left to write, whatever the local
    array holds this time, and a second repair leaves every byte as it
    is. The counts of the summary are not negative and fit a signed 64 bit
    value, and no recomputed extremum is a NaN. *)
Theorem repair_settles_below_format_6
    (o : Check.options) (stack stack' : nat -> Z) (s : LAS.LASsummary)
    (f : Bytes.file) :
  let h := LAS.read_header f in
  let f1 := Check.repaired_file o stack h s f in
  Bytes.byte_file f ->
  LAS.point_data_format h < 6 ->
  0 <= LAS.sum_number_of_point_records s < 2 ^ 63 ->
  (forall i, (1 <= i <= 15)%nat ->
             0 <= nth i (LAS.sum_number_of_points_by_return s) 0 < 2 ^ 63) ->
  forallb (fun x => negb (Check.is_nan x)) (Check.real_box h s) = true ->
  fst (Check.check_header o stack' (LAS.read_header f1) s) = []
  /\ forall a, Check.repaired_file o stack' (LAS.read_header f1) s f1 a = f1 a.
Proof.
  intros h f1 B F6 Ht Hr Hn.
  assert (E : fst (Check.check_header o stack' (LAS.read_header f1) s) = []).
  { rewrite HeaderFacts.check_header_ops. unfold f1, h.
    rewrite (SettleFacts.count_settled o stack s f o eq_refl) by lia.
    rewrite (SettleFacts.ext_count_settled o stack s f Ht).
    rewrite (SettleFacts.by_return_settled o stack s f B stack' F6)
      by (intros i Hi; apply Hr; lia).
    rewrite (SettleFacts.ext_by_return_settled o stack s f Hr).
    rewrite (SettleFacts.box_settled o stack s f (fun _ _ => Hn)).
    reflexivity. }
  split; [ exact E |].
  intro a. unfold Check.repaired_file at 1. now rewrite E.
Qed.

Lemma repair_settles_below_format_6_witness :
  let f := Samples.file_of_header Samples.header_12 in
  let f1 :=
    Check.repaired_file Samples.repair_all Samples.zero_stack
      (LAS.read_header f) Samples.summary_97 f in
  fst (Check.check_header Samples.repair_all (fun k => Z.of_nat k + 7)
         (LAS.read_header f1) Samples.summary_97) = [].
Proof.
  apply (repair_settles_below_format_6 Samples.repair_all Samples.zero_stack
           (fun k => Z.of_nat k + 7) Samples.summary_97
           (Samples.file_of_header Samples.header_12)).
  - apply SampleFileFacts.file_of_header_bytes.
  - vm_compute. reflexivity.
  - vm_compute. split; [ discriminate | reflexivity ].
  - intros i Hi.
    do 16 (destruct i as [| i];
           [ vm_compute; split; [ discriminate | reflexivity ] |]).
    lia.
  - vm_compute. reflexivity.
Defined.

(** X11. With repair of the counters on, a file of point format below 6
    and counts of the summary that fit 32 bits, the header a reader
    parses from the repaired file holds the counts of the summary: the
    legacy count is the total, the five legacy counts by return are the
    counts of returns 1 to 5, and from minor version 4 on the extended
    count and the fifteen extended counts by return are the total and the
    counts of returns 1 to 15. Minor version and point format are as
    they were. *)
Theorem repair_restores_counts
    (o : Check.options) (stack : nat -> Z) (s : LAS.LASsummary)
    (f : Bytes.file) :
  let h := LAS.read_header f in
  let h1 := LAS.read_header (Check.repaired_file o stack h s f) in
  Bytes.byte_file f ->
  Check.repair_counters o = true ->
  LAS.point_data_format h < 6 ->
  0 <= LAS.sum_number_of_point_records s <= Mach.U32_MAX ->
  (forall i, (1 <= i <= 15)%nat ->
             0 <= nth i (LAS.sum_number_of_points_by_return s) 0 <= Mach.U32_MAX) ->
  LAS.number_of_point_records h1 = LAS.sum_number_of_point_records s
  /\ (forall k, (k < 5)%nat ->
        nth k (LAS.number_of_points_by_return h1) 0
        = nth (S k) (LAS.sum_number_of_points_by_return s) 0)
  /\ (3 < LAS.version_minor h ->
      LAS.extended_number_of_point_records h1
      = LAS.sum_number_of_point_records s
      /\ forall k, (k < 15)%nat ->
           nth k (LAS.extended_number_of_points_by_return h1) 0
           = nth (S k) (LAS.sum_number_of_points_by_return s) 0)
  /\ LAS.version_minor h1 = LAS.version_minor h
  /\ LAS.point_data_format h1 = LAS.point_data_format h.
Proof.
  intros h h1 B R F6 Ht Hr. unfold Mach.U32_MAX in *.
  split; [ apply SettleFacts.count_restored; try assumption;
           unfold Mach.U32_MAX; lia |].
  split.
  { intros k Hk. apply SettleFacts.by_return_restored; try assumption.
    unfold Mach.U32_MAX. apply Hr. lia. }
  split.
  { intro M. split.
    - apply SettleFacts.ext_count_raw; try assumption. lia.
    - intros k Hk. apply SettleFacts.ext_by_return_cell_raw; try assumption.
      specialize (Hr (S k) ltac:(lia)). lia. }
  split; [ apply AfterFacts.minor_after | apply AfterFacts.format_after ].
Qed.

Lemma repair_restores_counts_witness :
  let f := Samples.file_of_header Samples.header_12 in
  let h1 :=
    LAS.read_header
      (Check.repaired_file Samples.repair_all Samples.zero_stack
         (LAS.read_header f) Samples.summary_97 f) in
  LAS.number_of_point_records h1 = 97
  /\ nth 0 (LAS.number_of_points_by_return h1) 0 = 57.
Proof.
  destruct (repair_restores_counts Samples.repair_all Samples.zero_stack
              Samples.summary_97 (Samples.file_of_header Samples.header_12))
    as [C [Br _]].
  - apply SampleFileFacts.file_of_header_bytes.
  - reflexivity.
  - vm_compute. reflexivity.
  - vm_compute. split; discriminate.
  - intros i Hi.
    do 16 (destruct i as [| i]; [ vm_compute; split; discriminate |]).
    lia.
  - split; [ exact C | exact (Br 0%nat ltac:(lia)) ].
Defined.

(** X12. The repair of the bounding box is all or nothing: with
    [-repair_bb], as soon as one of the six header values compares
    unequal to the recomputed one, all six doubles a reader parses from
    the repaired file are the recomputed ones, bit for bit; else, and
    without [-repair_bb], the six are the ones of the header. Scale
    factors and offsets stay, so the recomputed extrema of the repaired
    header are the ones of the header read. *)
Theorem box_repair_all_or_nothing
    (o : Check.options) (stack : nat -> Z) (s : LAS.LASsummary)
    (f : Bytes.file) :
  let h := LAS.read_header f in
  let h1 := LAS.read_header (Check.repaired_file o stack h s f) in
  Check.header_box h1
  = (if Check.repair_bb o && Check.box_wrong_entry h s
     then Check.real_box h s else Check.header_box h)
  /\ Check.real_box h1 s = Check.real_box h s
  /\ LAS.x_scale_factor h1 = LAS.x_scale_factor h
  /\ LAS.y_scale_factor h1 = LAS.y_scale_factor h
  /\ LAS.z_scale_factor h1 = LAS.z_scale_factor h
  /\ LAS.x_offset h1 = LAS.x_offset h
  /\ LAS.y_offset h1 = LAS.y_offset h
  /\ LAS.z_offset h1 = LAS.z_offset h.
Proof.
  intros h h1.
  split; [ apply SettleFacts.header_box_after |].
  split; [ apply SettleFacts.real_box_after |].
  apply AfterFacts.scale_offset_after.
Qed.

(** X13. The local array of the legacy counts by return has no
    initializer, and yet the outcome of the check does not depend on what
    its memory held when the point format is 6 or more, or the minor
    version is 4 or more, or the counts of returns 1 to 5 fit 32 bits:
    every cell is assigned before the array is written. *)
Theorem by_return_repair_ignores_stack
    (o : Check.options) (stack stack' : nat -> Z) (h : LAS.LASheader)
    (s : LAS.LASsummary) :
  6 <= LAS.point_data_format h \/ 4 <= LAS.version_minor h
  \/ (forall i, (1 <= i <= 5)%nat ->
                nth i (LAS.sum_number_of_points_by_return s) 0 <= Mach.U32_MAX) ->
  Check.check_number_of_points_by_return o stack h s
  = Check.check_number_of_points_by_return o stack' h s.
Proof.
  intro H. unfold Check.check_number_of_points_by_return.
  destruct (StackFacts.by_return_fold_flags o h s (seq 1 5)
              (Check.mkByReturn (Check.uninitialized stack 5) false [])
              (Check.mkByReturn (Check.uninitialized stack' 5) false [])
              eq_refl eq_refl) as [W R].
  assert (A : Check.br_array
                (fold_left (Check.by_return_step o h s) (seq 1 5)
                   (Check.mkByReturn (Check.uninitialized stack 5) false []))
              = Check.br_array
                  (fold_left (Check.by_return_step o h s) (seq 1 5)
                     (Check.mkByReturn (Check.uninitialized stack' 5) false []))).
  { apply (nth_ext _ _ 0 0).
    - rewrite !ReturnFacts.by_return_fold_length. cbn [Check.br_array].
      now rewrite !ReturnFacts.uninitialized_length.
    - intros k Hk. rewrite ReturnFacts.by_return_fold_length in Hk.
      cbn [Check.br_array] in Hk.
      rewrite ReturnFacts.uninitialized_length in Hk.
      rewrite !StackFacts.by_return_cell by assumption.
      pose proof (StackFacts.bucket_value_given h s (S k)) as G.
      destruct (Check.legacy_bucket_value h s (S k)); [ reflexivity |].
      exfalso. apply G; [| reflexivity ].
      destruct H as [H | [H | H]]; [ now left | now right; left |].
      right; right. apply H. lia. }
  now rewrite W, R, A.
Qed.

Lemma by_return_repair_ignores_stack_witness :
  Check.check_number_of_points_by_return Samples.repair_all Samples.zero_stack
    Samples.header_12 Samples.summary_97
  = Check.check_number_of_points_by_return Samples.repair_all
      (fun k => Z.of_nat k + 7) Samples.header_12 Samples.summary_97.
Proof.
  apply by_return_repair_ignores_stack.
  right; right. intros i Hi.
  do 6 (destruct i as [| i]; [ vm_compute; discriminate |]).
  lia.
Defined.

(** X14. Below point format 6 and minor version 4, a count of a return
    beyond 2^32-1 cannot be repaired and its cell of the local array is
    not assigned; when the count of another return is wrong and fits 32
    bits, the block of five is written all the same, and the cell of the
    count that cannot be repaired takes to the file what the memory of the
    array held. *)
Theorem unrepairable_bucket_writes_stack
    (o : Check.options) (stack : nat -> Z) (h : LAS.LASheader)
    (s : LAS.LASsummary) (i j : nat) :
  Check.repair_counters o = true ->
  LAS.point_data_format h < 6 ->
  LAS.version_minor h < 4 ->
  (i < 5)%nat -> (j < 5)%nat ->
  Mach.U32_MAX < nth (S i) (LAS.sum_number_of_points_by_return s) 0 ->
  nth i (LAS.number_of_points_by_return h) 0
  <> nth (S i) (LAS.sum_number_of_points_by_return s) 0 ->
  0 <= nth (S j) (LAS.sum_number_of_points_by_return s) 0 <= Mach.U32_MAX ->
  nth j (LAS.number_of_points_by_return h) 0
  <> nth (S j) (LAS.sum_number_of_points_by_return s) 0 ->
  exists cells,
    fst (Check.check_number_of_points_by_return o stack h s)
    = [Patch.Fseek 111; Patch.Fwrite (map Patch.DU32 cells)]
    /\ length cells = 5%nat
    /\ nth i cells 0 = Mach.to_U32 (stack i)
    /\ nth j cells 0 = nth (S j) (LAS.sum_number_of_points_by_return s) 0.
Proof.
  intros R F6 M4 Hi Hj Bi Ni Bj Nj.
  exists (Check.br_array
            (fold_left (Check.by_return_step o h s) (seq 1 5)
               (Check.mkByReturn (Check.uninitialized stack 5) false []))).
  assert (Vi : Check.legacy_bucket_value h s (S i) = None).
  { unfold Check.legacy_bucket_value. replace (S i - 1)%nat with i by lia.
    replace (LAS.point_data_format h <? 6) with true
      by (symmetry; apply Z.ltb_lt; lia).
    destruct (Z.eqb_spec (nth i (LAS.number_of_points_by_return h) 0)
                (nth (S i) (LAS.sum_number_of_points_by_return s) 0));
      [ contradiction |].
    cbn [negb andb].
    replace (_ <=? Mach.U32_MAX) with false by (symmetry; apply Z.leb_gt; lia).
    replace (LAS.version_minor h <? 4) with true
      by (symmetry; apply Z.ltb_lt; lia).
    reflexivity. }
  assert (Vj : Check.legacy_bucket_value h s (S j)
               = Some (nth (S j) (LAS.sum_number_of_points_by_return s) 0)).
  { unfold Check.legacy_bucket_value. replace (S j - 1)%nat with j by lia.
    replace (LAS.point_data_format h <? 6) with true
      by (symmetry; apply Z.ltb_lt; lia).
    destruct (Z.eqb_spec (nth j (LAS.number_of_points_by_return h) 0)
                (nth (S j) (LAS.sum_number_of_points_by_return s) 0));
      [ contradiction |].
    cbn [negb andb].
    replace (_ <=? Mach.U32_MAX) with true by (symmetry; apply Z.leb_le; lia).
    now rewrite MachFacts.to_U32_id. }
  assert (Wj : Check.legacy_bucket_wrong h s (S j) = true).
  { unfold Check.legacy_bucket_wrong. replace (S j - 1)%nat with j by lia.
    replace (LAS.point_data_format h <? 6) with true
      by (symmetry; apply Z.ltb_lt; lia).
    destruct (Z.eqb_spec (nth j (LAS.number_of_points_by_return h) 0)
                (nth (S j) (LAS.sum_number_of_points_by_return s) 0));
      [ contradiction |].
    cbn [negb andb].
    replace (_ <=? Mach.U32_MAX) with true by (symmetry; apply Z.leb_le; lia).
    reflexivity. }
  split.
  { rewrite ReturnFacts.by_return_ops, R.
    replace (existsb (Check.legacy_bucket_wrong h s) (seq 1 5)) with true;
      [ reflexivity |].
    symmetry. apply existsb_exists. exists (S j).
    split; [ apply in_seq; lia | exact Wj ]. }
  split.
  { rewrite ReturnFacts.by_return_fold_length. cbn [Check.br_array].
    apply ReturnFacts.uninitialized_length. }
  split.
  - rewrite StackFacts.by_return_cell by assumption. now rewrite Vi.
  - rewrite StackFacts.by_return_cell by assumption. now rewrite Vj.
Qed.

Lemma unrepairable_bucket_writes_stack_witness :
  exists cells,
    fst (Check.check_number_of_points_by_return Samples.repair_all
           (fun k => Z.of_nat k + 7) Samples.header_12
           MoreSamples.summary_overflow)
    = [Patch.Fseek 111; Patch.Fwrite (map Patch.DU32 cells)]
    /\ length cells = 5%nat
    /\ nth 0 cells 0 = 7
    /\ nth 1 cells 0 = 38.
Proof.
  apply (unrepairable_bucket_writes_stack Samples.repair_all
           (fun k => Z.of_nat k + 7) Samples.header_12
           MoreSamples.summary_overflow 0 1).
  - reflexivity.
  - vm_compute. reflexivity.
  - vm_compute. reflexivity.
  - lia.
  - lia.
  - vm_compute. reflexivity.
  - vm_compute. discriminate.
  - vm_compute. split; discriminate.
  - vm_compute. discriminate.
Defined.

(** ** The creation date of [-auto_date] *)

Module DateFacts.
Import LAS Patch Run AutoDate.

Lemma file_ops_no_refusal ops : existsb is_refusal (map FileOp ops) = false.
Proof. induction ops; [ reflexivity | assumption ]. Qed.

Lemma reports_no_refusal ms : existsb is_refusal (map Reported ms) = false.
Proof. induction ms; [ reflexivity | assumption ]. Qed.

Lemma events_of_no_refusal out : existsb is_refusal (events_of out) = false.
Proof.
  unfold events_of.
  now rewrite existsb_app, file_ops_no_refusal, reports_no_refusal.
Qed.

Lemma reads_no_refusal t :
  Forall (fun e => e = ReadPoint) t -> existsb is_refusal t = false.
Proof.
  induction 1 as [| e t He _ IH]; [ reflexivity |].
  subst e. exact IH.
Qed.

Section Passes.
Variables U8_CLAMP U16_CLAMP U32_CLAMP : Z -> Z.
Variable point : Type.
Variable lassummary_add : LASsummary -> point -> LASsummary.

Lemma check_phase_no_refusal c o h s :
  existsb is_refusal (check_phase c o h s) = false.
Proof.
  unfold check_phase. destruct (check_points c); [| reflexivity ].
  apply events_of_no_refusal.
Qed.

Lemma read_and_check_no_refusal c i h pts :
  regular i ->
  existsb is_refusal (read_and_check point lassummary_add c i h pts) = false.
Proof.
  intros [P [M [B [L [N O]]]]].
  unfold read_and_check. rewrite existsb_app.
  rewrite (reads_no_refusal _ (RunFacts.read_pass_reads point lassummary_add c pts)).
  cbn [orb existsb is_refusal].
  unfold repair_gate, reopen. rewrite P, M, B, L, O. cbn [negb].
  destruct (Check.repair_bb (opts c) || Check.repair_counters (opts c));
    cbn [existsb is_refusal orb]; apply check_phase_no_refusal.
Qed.

Lemma edit_phase_regular ops c i rest :
  regular i ->
  FullRun.edit_phase ops c i rest
  = if edit_header c then OpenedForUpdate :: map FileOp ops ++ rest else rest.
Proof.
  intros [P [M [B [L [N O]]]]]. unfold FullRun.edit_phase.
  now rewrite P, M, B, N, O.
Qed.

Lemma settings_after_regular c i :
  regular i -> settings_after c i = set_edit_header c (edit_header c).
Proof.
  intros [P [M [B [L [N O]]]]].
  unfold settings_after, set_edit_header, edit_header_after, opts_after.
  rewrite P, M, B, L, N, O. cbn [negb orb].
  now rewrite !andb_true_r, andb_false_r.
Qed.

End Passes.

Lemma startday_not_negative m :
  1 <= m <= 12 -> 0 <= nth (Z.to_nat m) startday 0.
Proof.
  intro H.
  assert (C : m = 1 \/ m = 2 \/ m = 3 \/ m = 4 \/ m = 5 \/ m = 6 \/ m = 7
              \/ m = 8 \/ m = 9 \/ m = 10 \/ m = 11 \/ m = 12) by lia.
  repeat destruct C as [-> | C]; try subst m; vm_compute; discriminate.
Qed.

Lemma creation_day_positive t : date t -> 1 <= creation_day t.
Proof.
  intros [M [D Y]]. unfold creation_day.
  pose proof (startday_not_negative _ M).
  destruct ((wYear t mod 4 =? 0) && (2 <? wMonth t)); lia.
Qed.

(** The calls of the edit block when only the creation date is set. *)
Lemma dated_ops U8_CLAMP U16_CLAMP U32_CLAMP h day year :
  day <> -1 -> year <> -1 ->
  Edit.edit_ops U8_CLAMP U16_CLAMP U32_CLAMP h
    (with_creation Edit.no_header_edits day year) Locator.no_edits
  = [Fseek 90; Fwrite [DU16 (U16_CLAMP day)];
     Fseek 92; Fwrite [DU16 (U16_CLAMP year)]].
Proof.
  intros D Y. unfold Edit.edit_ops, Edit.fixed_edit_ops, Edit.slots.
  cbn [with_creation Edit.no_header_edits
       Edit.set_file_source_ID Edit.set_global_encoding
       Edit.set_project_ID_GUID_data_1 Edit.set_project_ID_GUID_data_2
       Edit.set_project_ID_GUID_data_3 Edit.set_project_ID_GUID_data_4
       Edit.set_version_major Edit.set_version_minor
       Edit.set_system_identifier Edit.set_generating_software
       Edit.set_creation_day Edit.set_creation_year
       Edit.set_header_size Edit.set_offset_to_point_data
       Edit.set_number_of_variable_length_records
       Edit.set_point_data_format Edit.set_point_data_record_length
       Edit.set_number_of_point_records Edit.set_number_of_points_by_return
       Edit.set_scale Edit.set_offset Edit.set_bounding_box
       Edit.set_start_of_waveform_data_packet_record].
  apply Z.eqb_neq in D, Y.
  cbn [flat_map Edit.slot_ops Edit.requested Edit.slot_offset Edit.slot_writes
       fst snd Edit.allocated Z.eqb negb app map Pos.eqb].
  rewrite D, Y. reflexivity.
Qed.

Section Dated.
Variables U8_CLAMP U16_CLAMP U32_CLAMP : Z -> Z.
Variable point : Type.
Variable lassummary_add : LASsummary -> point -> LASsummary.
Variable c : settings.
Hypothesis no_vlr_edits : edits c = Locator.no_edits.

(** The pass over [x] when the pass before has set the date [t]. *)
Lemma dated_pass t x :
  date t -> regular (inp x) ->
  pass U8_CLAMP U16_CLAMP U32_CLAMP point lassummary_add
    (set_edit_header c true)
    (with_creation Edit.no_header_edits (creation_day t) (wYear t)) x
  = OpenedForUpdate
    :: map FileOp [Fseek 90; Fwrite [DU16 (U16_CLAMP (creation_day t))];
                   Fseek 92; Fwrite [DU16 (U16_CLAMP (wYear t))]]
    ++ read_and_check point lassummary_add c (inp x) (header x) (points x).
Proof.
  intros T G. unfold pass, FullRun.run.
  rewrite edit_phase_regular by assumption.
  cbn [edit_header set_edit_header edits]. rewrite no_vlr_edits.
  pose proof (creation_day_positive t T) as P. destruct T as [_ [_ Y]].
  rewrite dated_ops by lia. reflexivity.
Qed.

Lemma pass_no_refusal c' e x :
  regular (inp x) ->
  existsb is_refusal
    (pass U8_CLAMP U16_CLAMP U32_CLAMP point lassummary_add c' e x) = false.
Proof.
  intro G. unfold pass, FullRun.run. rewrite edit_phase_regular by assumption.
  destruct (edit_header c'); [| now apply read_and_check_no_refusal ].
  cbn [existsb is_refusal orb].
  rewrite existsb_app, file_ops_no_refusal.
  now apply read_and_check_no_refusal.
Qed.

(** The passes that follow a pass over a file of the date [t]: pass [k]
    writes the date of the file before it. *)
Lemma passes_dated t files k p x :
  date t ->
  Forall (fun x => regular (inp x) /\ has_name x = true /\ date (created x)) files ->
  nth_error (t :: map created files) k = Some p ->
  nth_error files k = Some x ->
  nth_error
    (passes U8_CLAMP U16_CLAMP U32_CLAMP point lassummary_add true true
       (set_edit_header c true)
       (with_creation Edit.no_header_edits (creation_day t) (wYear t)) files) k
  = Some (OpenedForUpdate
          :: map FileOp [Fseek 90; Fwrite [DU16 (U16_CLAMP (creation_day p))];
                         Fseek 92; Fwrite [DU16 (U16_CLAMP (wYear p))]]
          ++ read_and_check point lassummary_add c (inp x) (header x) (points x)).
Proof.
  revert t k. induction files as [| y files IH]; intros t k T F Hp Hx;
    [ destruct k; discriminate Hx |].
  inversion F as [| ? ? [G [N D]] F']; subst.
  cbn [passes]. rewrite pass_no_refusal by assumption.
  rewrite andb_false_r, N, settings_after_regular by assumption.
  cbn [andb].
  change (set_edit_header (set_edit_header (set_edit_header c true) _) true)
    with (set_edit_header c true).
  destruct k as [| k].
  - cbn [nth_error] in Hp, Hx |- *. injection Hp as <-. injection Hx as <-.
    now rewrite dated_pass.
  - cbn [nth_error map] in Hp, Hx |- *.
    apply (IH (created y) k); assumption.
Qed.

Lemma passes_length win32 auto c' e files :
  Forall (fun x => regular (inp x)) files ->
  length (passes U8_CLAMP U16_CLAMP U32_CLAMP point lassummary_add win32 auto
            c' e files)
  = length files.
Proof.
  revert c' e. induction files as [| y files IH]; intros c' e F;
    [ reflexivity |].
  inversion F as [| ? ? G F']; subst.
  cbn [passes length]. rewrite pass_no_refusal by assumption.
  rewrite andb_false_r.
  destruct (win32 && auto && has_name y); now rewrite IH.
Qed.

(** Without the block of [-auto_date] a flag that is off stays off. *)
Lemma passes_plain win32 auto e files :
  win32 && auto = false ->
  edit_header c = false ->
  Forall (fun x => regular (inp x)) files ->
  passes U8_CLAMP U16_CLAMP U32_CLAMP point lassummary_add win32 auto c e files
  = map (fun x => read_and_check point lassummary_add c (inp x) (header x)
                    (points x)) files.
Proof.
  intros W E F. clear no_vlr_edits.
  destruct c as [halt eh ed cp ss st o sk]. cbn [edit_header] in E. subst eh.
  induction F as [| y files G F' IH]; [ reflexivity |].
  cbn [passes map]. rewrite pass_no_refusal by assumption.
  rewrite andb_false_r, W, settings_after_regular by assumption.
  cbn [andb]. unfold set_edit_header.
  cbn [edit_header halt_on_error edits check_points subsequence_start
       subsequence_stop opts stack].
  rewrite IH. reflexivity.
Qed.

End Dated.

End DateFacts.

(** X15. [-auto_date] on Windows, given alone for files on disk: the
    creation date of a file is written to the header of the file that
    comes after it. The pass over the first file edits nothing; the pass
    over every later file opens it for update and writes, at the offsets
    90 and 92, the day of the year and the year in which the file before
    it was created; the date of the last file is written nowhere. In a
    build for another system the option edits no file. *)
Theorem auto_date_lags_one_file
    (U8_CLAMP U16_CLAMP U32_CLAMP : Z -> Z) (point : Type)
    (lassummary_add : LAS.LASsummary -> point -> LAS.LASsummary)
    (c : Run.settings) (files : list (AutoDate.file_in point)) :
  Run.edit_header c = false ->
  Run.edits c = Locator.no_edits ->
  Forall (fun x => AutoDate.regular (AutoDate.inp x)
                   /\ AutoDate.has_name x = true
                   /\ AutoDate.date (AutoDate.created x)) files ->
  let read x :=
    Run.read_and_check point lassummary_add c (AutoDate.inp x)
      (AutoDate.header x) (AutoDate.points x) in
  let traces :=
    AutoDate.passes U8_CLAMP U16_CLAMP U32_CLAMP point lassummary_add
      true true c Edit.no_header_edits files in
  length traces = length files
  /\ (forall x, nth_error files 0 = Some x -> nth_error traces 0 = Some (read x))
  /\ (forall k p x,
        nth_error files k = Some p -> nth_error files (S k) = Some x ->
        nth_error traces (S k)
        = Some (Run.OpenedForUpdate
                :: map Run.FileOp
                     [Patch.Fseek 90;
                      Patch.Fwrite
                        [Patch.DU16
                           (U16_CLAMP (AutoDate.creation_day (AutoDate.created p)))];
                      Patch.Fseek 92;
                      Patch.Fwrite
                        [Patch.DU16 (U16_CLAMP (AutoDate.wYear (AutoDate.created p)))]]
                ++ read x))
  /\ AutoDate.passes U8_CLAMP U16_CLAMP U32_CLAMP point lassummary_add
       false true c Edit.no_header_edits files
     = map read files.
Proof.
  intros E V F read traces.
  assert (G : Forall (fun x => AutoDate.regular (AutoDate.inp x)) files).
  { eapply Forall_impl; [| exact F ]. now intros x [G _]. }
  split; [ now apply DateFacts.passes_length |].
  split.
  { intros x Hx. destruct files as [| y rest]; [ discriminate Hx |].
    injection Hx as ->. unfold traces. cbn [AutoDate.passes nth_error].
    unfold AutoDate.pass, FullRun.run, FullRun.edit_phase. now rewrite E. }
  split.
  { intros k p x Hp Hx. destruct files as [| y rest]; [ discriminate Hx |].
    inversion F as [| ? ? [Gy [Ny Dy]] F']; subst.
    unfold traces. cbn [AutoDate.passes].
    rewrite DateFacts.pass_no_refusal by assumption.
    rewrite andb_false_r, Ny, DateFacts.settings_after_regular by assumption.
    cbn [andb nth_error].
    change (AutoDate.set_edit_header (AutoDate.set_edit_header c _) true)
      with (AutoDate.set_edit_header c true).
    cbn [nth_error] in Hx.
    apply DateFacts.passes_dated; try assumption.
    destruct k as [| k]; cbn [nth_error] in Hp |- *.
    - now injection Hp as ->.
    - now apply map_nth_error. }
  now apply DateFacts.passes_plain.
Qed.

Lemma auto_date_lags_one_file_witness :
  let traces :=
    AutoDate.passes (MoreSamples.clamp 255) (MoreSamples.clamp 65535)
      (MoreSamples.clamp 4294967295) unit Samples.count_point true true
      DateSamples.plain_run Edit.no_header_edits DateSamples.three_files in
  nth_error traces 1
  = Some (Run.OpenedForUpdate
          :: map Run.FileOp
               [Patch.Fseek 90; Patch.Fwrite [Patch.DU16 61];
                Patch.Fseek 92; Patch.Fwrite [Patch.DU16 2024]]
          ++ Run.read_and_check unit Samples.count_point DateSamples.plain_run
               MoreSamples.regular_input Samples.header_12 [tt]).
Proof.
  assert (D : forall t,
             1 <= AutoDate.wMonth t <= 12 -> 1 <= AutoDate.wDay t ->
             0 <= AutoDate.wYear t ->
             AutoDate.regular
               (AutoDate.inp (DateSamples.file_created t))
             /\ AutoDate.has_name (DateSamples.file_created t) = true
             /\ AutoDate.date (AutoDate.created (DateSamples.file_created t))).
  { intros t M Dd Y. repeat split; try reflexivity; cbn; lia. }
  destruct (auto_date_lags_one_file (MoreSamples.clamp 255)
              (MoreSamples.clamp 65535) (MoreSamples.clamp 4294967295)
              unit Samples.count_point DateSamples.plain_run
              DateSamples.three_files eq_refl eq_refl)
    as [_ [_ [H _]]].
  - repeat constructor; apply D; cbn; lia.
  - exact (H 0%nat (DateSamples.file_created DateSamples.march_2024)
             (DateSamples.file_created DateSamples.december_2023)
             eq_refl eq_refl).
Defined.

(** X16. The day that [-auto_date] computes is the day of the year in a
    calendar in which every year divisible by 4 is a leap year: the days
    of the months before the month of the date, February counted with 29
    days in such a year and with 28 in any other, and the day of the
    month. *)
Theorem creation_day_is_day_of_year (t : AutoDate.SYSTEMTIME) :
  1 <= AutoDate.wMonth t <= 12 ->
  AutoDate.creation_day t
  = fold_right Z.add 0
      (firstn (Z.to_nat (AutoDate.wMonth t - 1))
         [31; if AutoDate.wYear t mod 4 =? 0 then 29 else 28;
          31; 30; 31; 30; 31; 31; 30; 31; 30; 31])
    + AutoDate.wDay t.
Proof.
  intro H. unfold AutoDate.creation_day.
  assert (C : AutoDate.wMonth t = 1 \/ AutoDate.wMonth t = 2
              \/ AutoDate.wMonth t = 3 \/ AutoDate.wMonth t = 4
              \/ AutoDate.wMonth t = 5 \/ AutoDate.wMonth t = 6
              \/ AutoDate.wMonth t = 7 \/ AutoDate.wMonth t = 8
              \/ AutoDate.wMonth t = 9 \/ AutoDate.wMonth t = 10
              \/ AutoDate.wMonth t = 11 \/ AutoDate.wMonth t = 12) by lia.
  repeat destruct C as [C | C]; rewrite C;
    destruct (AutoDate.wYear t mod 4 =? 0);
    match goal with
    | |- context [nth ?n ?l 0] =>
        let v := eval vm_compute in (nth n l 0) in change (nth n l 0) with v
    end;
    match goal with
    | |- context [fold_right Z.add 0 ?l] =>
        let v := eval vm_compute in (fold_right Z.add 0 l) in
        change (fold_right Z.add 0 l) with v
    end;
    cbn [andb Z.ltb Z.compare Pos.compare Pos.compare_cont]; lia.
Qed.

Lemma creation_day_is_day_of_year_witness :
  AutoDate.creation_day DateSamples.january_2100 = 15
  /\ AutoDate.creation_day (AutoDate.mkSystemTime 2100 3 1) = 61.
Proof.
  split.
  - apply (creation_day_is_day_of_year DateSamples.january_2100).
    cbn. lia.
  - apply (creation_day_is_day_of_year (AutoDate.mkSystemTime 2100 3 1)).
    cbn. lia.
Defined.

(** ** The doubles of the report *)

Module PrintFacts.
Import Print.

Lemma skip_zeros_stops pre c n tail :
  c <> zero_char ->
  skip_zeros (pre ++ c :: repeat zero_char n ++ tail) (length pre + n)
  = Some (length pre).
Proof.
  intro C. apply Z.eqb_neq in C. revert tail.
  induction n as [| n IH]; intro tail.
  - rewrite Nat.add_0_r.
    assert (E : nth (length pre) (pre ++ c :: repeat zero_char 0 ++ tail) 0 = c)
      by (rewrite app_nth2, Nat.sub_diag by lia; reflexivity).
    destruct (length pre) as [| k] eqn:L; cbn [skip_zeros]; now rewrite E, C.
  - rewrite Nat.add_succ_r. cbn [skip_zeros].
    replace (nth (S (length pre + n))
               (pre ++ c :: repeat zero_char (S n) ++ tail) 0)
      with zero_char.
    + rewrite Z.eqb_refl.
      replace (repeat zero_char (S n) ++ tail)
        with (repeat zero_char n ++ zero_char :: tail)
        by (cbn [repeat]; now rewrite repeat_cons, <- app_assoc).
      apply IH.
    + rewrite app_nth2 by lia.
      replace (S (length pre + n) - length pre)%nat with (S n) by lia.
      cbn [nth]. rewrite app_nth1 by (rewrite repeat_length; lia).
      rewrite (nth_indep _ 0 zero_char) by (rewrite repeat_length; lia).
      symmetry. apply nth_repeat.
Qed.

Lemma stripped pre c n :
  c <> zero_char ->
  lidardouble2string (pre ++ c :: repeat zero_char n)
  = Some (if c =? dot_char then (pre, Z.of_nat (length pre))
          else (pre ++ [c], Z.of_nat (S (length pre)))).
Proof.
  intro C. unfold lidardouble2string.
  rewrite length_app. cbn [length]. rewrite repeat_length, Nat.add_succ_r.
  rewrite <- (app_nil_r (repeat zero_char n)) at 1.
  rewrite skip_zeros_stops by assumption.
  rewrite app_nth2, Nat.sub_diag by lia. cbn [nth].
  destruct (c =? dot_char).
  - now rewrite firstn_app, firstn_all, Nat.sub_diag, app_nil_r.
  - f_equal. f_equal.
    replace (S (length pre)) with (length (pre ++ [c]))
      by (rewrite length_app; cbn; lia).
    change (pre ++ c :: repeat zero_char n)
      with (pre ++ [c] ++ repeat zero_char n).
    rewrite app_assoc, firstn_app, firstn_all, Nat.sub_diag.
    now rewrite app_nil_r.
Qed.

End PrintFacts.

(** X17. [lidardouble2string] removes the zeros at the end of what
    [sprintf] has printed and, when nothing else is left of the
    fraction, the decimal point: a string that ends in a decimal point
    and zeros is cut before the point, zeros in front of the point stay;
    a string that ends in a character other than a point or a zero,
    followed by zeros, is cut after that character. The value returned
    is the length of the string that is left. *)
Theorem lidardouble2string_strips_zeros (pre : list Z) (c : Z) (n : nat) :
  c <> Print.zero_char -> c <> Print.dot_char ->
  Print.lidardouble2string (pre ++ Print.dot_char :: repeat Print.zero_char n)
  = Some (pre, Z.of_nat (length pre))
  /\ Print.lidardouble2string (pre ++ c :: repeat Print.zero_char n)
     = Some (pre ++ [c], Z.of_nat (length (pre ++ [c]))).
Proof.
  intros C D. split.
  - rewrite PrintFacts.stripped by discriminate. reflexivity.
  - rewrite PrintFacts.stripped by assumption.
    apply Z.eqb_neq in D. rewrite D, length_app. cbn [length].
    now rewrite Nat.add_1_r.
Qed.

Lemma lidardouble2string_strips_zeros_witness :
  Print.lidardouble2string Print.two = Some ([50], 1)
  /\ Print.lidardouble2string Print.one_and_a_half = Some ([49; 46; 53], 3).
Proof.
  destruct (lidardouble2string_strips_zeros [50] 55 3) as [A _];
    [ discriminate | discriminate |].
  destruct (lidardouble2string_strips_zeros [49; 46] 53 2) as [_ B];
    [ discriminate | discriminate |].
  split; [ exact A | exact B ].
Defined.
